(** * toutiao-auto-publisher: the resilient publishing orchestrator

    A shallow embedding of the parts of [ai_analyzer.py] and [publisher.py]
    that locate page elements through the selector cache, keep the
    published-record file, split generated text into title and body, and
    sequence cover generation, publishing and record keeping; and of the
    parts of [publisher.py], [utils.py] and [hot_topic_finder.py] that turn
    Markdown files into articles, name the files written, and filter and
    save the crawled topics.

    Conventions.
    - A Python [str] is the list of its code points ([pystr]); [len], slices
      and [strip] work on code points, as in Python.  Lone surrogates and
      floating-point JSON numbers are outside the model.
    - Values coming out of [json.load] are [pyval]s.
    - Effectful code runs in the monad [M S A]: it threads a state [S],
      returns a value or raises a Python exception, and emits the list of
      observable events (log records, sleeps, calls to collaborators).
    - Collaborators that live outside the repository (the Selenium driver,
      the text and image services, the publisher object handed to
      [process_hot_searches]) are type classes: every theorem holds for each
      of their instances. *)

From Stdlib Require Import Strings.String Strings.Ascii.
From Stdlib Require Import ZArith QArith Lia.
From stdpp Require Import gmap list.

Set Warnings "-register-all".
Set Default Proof Using "Type".

(* ===================================================================== *)
(** ** Python strings                                                      *)
(* ===================================================================== *)

Module PyStr.

Definition pystr := list N.

(** [str.isspace] for one code point (CPython's [_PyUnicode_IsWhitespace]). *)
Definition isspace (c : N) : bool :=
  ((9 <=? c) && (c <=? 13) || (28 <=? c) && (c <=? 32)
   || (c =? 133) || (c =? 160) || (c =? 5760)
   || (8192 <=? c) && (c <=? 8202)
   || (c =? 8232) || (c =? 8233) || (c =? 8239) || (c =? 8287)
   || (c =? 12288))%N.

Fixpoint lstrip (s : pystr) : pystr :=
  match s with
  | [] => []
  | c :: r => if isspace c then lstrip r else s
  end.

Definition rstrip (s : pystr) : pystr := rev (lstrip (rev s)).

(** [s.strip()] *)
Definition strip (s : pystr) : pystr := rstrip (lstrip s).

(** [s.startswith(p)] *)
Fixpoint startswith (p s : pystr) : bool :=
  match p, s with
  | [], _ => true
  | _ :: _, [] => false
  | a :: p', b :: s' => (a =? b)%N && startswith p' s'
  end.

(** [s.replace(old, empty)] for a non-empty [old]: the occurrences of [old] are
    found from left to right, without overlap, and dropped.  [skip] counts
    the code points of a match that are still to be dropped. *)
Fixpoint remove_from (old : pystr) (skip : nat) (s : pystr) : pystr :=
  match s with
  | [] => []
  | c :: r =>
      match skip with
      | S k => remove_from old k r
      | O => if startswith old s then remove_from old (length old - 1) r
             else c :: remove_from old 0 r
      end
  end.

Definition remove_all (old s : pystr) : pystr := remove_from old 0 s.

Definition newline : N := 10.

(** [s.split("\n")]: never empty, the empty string gives one empty line. *)
Fixpoint split_nl (s : pystr) : list pystr :=
  match s with
  | [] => [[]]
  | c :: r =>
      if (c =? newline)%N then [] :: split_nl r
      else match split_nl r with
           | [] => [[c]]
           | l :: ls => (c :: l) :: ls
           end
  end.

(** ["\n".join(lines)] *)
Fixpoint join_nl (lines : list pystr) : pystr :=
  match lines with
  | [] => []
  | [l] => l
  | l :: ls => l ++ newline :: join_nl ls
  end.

(** Truth value of a string: the empty string is false. *)
Definition nonempty (s : pystr) : bool :=
  match s with [] => false | _ => true end.

(** Whether [old] occurs in [s] at some position ([old in s]). *)
Fixpoint occurs (old s : pystr) : bool :=
  match s with
  | [] => startswith old []
  | _ :: r => startswith old s || occurs old r
  end.

End PyStr.
Export PyStr.

(* ===================================================================== *)
(** ** ai_analyzer.py: splitting generated text into title and body        *)
(* ===================================================================== *)

Module Shaping.

(** The two spellings of the marker: ["标题："] (full-width colon, U+FF1A)
    and ["标题:"] (ASCII colon). *)
Definition marker_fullwidth : pystr := [26631; 39064; 65306]%N.
Definition marker_ascii : pystr := [26631; 39064; 58]%N.

(** The [for i, line in enumerate(lines)] loop with its [break]: the first
    line that, once stripped, starts with a marker gives the title and
    [content_start_idx = i + 1]. *)
Fixpoint find_title_line (i : nat) (lines : list pystr) : option (pystr * nat) :=
  match lines with
  | [] => None
  | line :: rest =>
      let line := strip line in
      if startswith marker_fullwidth line then
        Some (strip (remove_all marker_fullwidth line), S i)
      else if startswith marker_ascii line then
        Some (strip (remove_all marker_ascii line), S i)
      else find_title_line (S i) rest
  end.

(** [not title], for [title] equal to [None] or to a string. *)
Definition not_title (title : option pystr) : bool :=
  match title with
  | None => true
  | Some t => negb (nonempty t)
  end.

(** [while content_lines and not content_lines[0].strip(): ...] *)
Fixpoint skip_blank (content_lines : list pystr) : list pystr :=
  match content_lines with
  | [] => []
  | l :: ls => if nonempty (strip l) then content_lines else skip_blank ls
  end.

(** The body from line [idx] on: [lines[idx:]], leading blank lines
    skipped, joined and stripped. *)
Definition content_from (idx : nat) (lines : list pystr) : pystr :=
  strip (join_nl (skip_blank (drop idx lines))).

Definition extract_title_and_content (article_text : pystr)
  : option pystr * pystr :=
  let lines := split_nl (strip article_text) in
  let '(title, content_start_idx) :=
    match find_title_line 0 lines with
    | Some (t, i) => (Some t, i)
    | None => (None, 0)
    end in
  let '(title, content_start_idx) :=
    match lines with
    | first :: _ =>
        if not_title title then
          let first_line := strip first in
          if (5 <? length first_line) && (length first_line <? 50)
          then (Some first_line, 1)
          else (title, content_start_idx)
        else (title, content_start_idx)
    | [] => (title, content_start_idx)
    end in
  let '(title, content_start_idx) :=
    if not_title title then
      match lines with
      | first :: _ => (Some (take 30 (strip first)), 0)
      | [] => (title, content_start_idx)
      end
    else (title, content_start_idx) in
  (title, content_from content_start_idx lines).

End Shaping.

(* ===================================================================== *)
(** ** Python values, exceptions and effects                                *)
(* ===================================================================== *)

Module Py.

(** What [json.load] can return.  A JSON object is a [dict] with string
    keys; numbers are integers here. *)
Inductive pyval :=
| VNone
| VBool (b : bool)
| VInt (n : Z)
| VStr (s : pystr)
| VList (l : list pyval)
| VDict (d : gmap pystr pyval).

(** [bool(v)] *)
Definition truthy (v : pyval) : bool :=
  match v with
  | VNone => false
  | VBool b => b
  | VInt n => negb (n =? 0)%Z
  | VStr s => nonempty s
  | VList l => match l with [] => false | _ => true end
  | VDict d => negb (size d =? 0)%nat
  end.

(** Lists and dicts have no hash: they cannot be put in a [set]. *)
Definition hashable (v : pyval) : bool :=
  match v with
  | VList _ | VDict _ => false
  | _ => true
  end.

Definition as_number (v : pyval) : option Z :=
  match v with
  | VBool b => Some (if b then 1 else 0)%Z
  | VInt n => Some n
  | _ => None
  end.

(** [a == b] when at least one side is [None], a [bool], an [int] or a
    [str]: [True == 1], and values of different kinds are unequal. *)
Definition py_eqb (a b : pyval) : bool :=
  match a, b with
  | VNone, VNone => true
  | VStr s, VStr t => bool_decide (s = t)
  | _, _ => match as_number a, as_number b with
            | Some x, Some y => (x =? y)%Z
            | _, _ => false
            end
  end.

(** The exception classes the code meets.  All derive from [Exception]. *)
Inductive exn :=
| OSError
| JSONDecodeError
| UnicodeDecodeError
| TypeError
| ValueError
| KeyError
| AttributeError
| RuntimeError
| WebDriverException
| ServiceError.

Inductive outcome (A : Type) :=
| Ret (a : A)
| Raise (e : exn).
Arguments Ret {A} a.
Arguments Raise {A} e.

End Py.
Export Py.

(* ===================================================================== *)
(** ** Observable events                                                    *)
(* ===================================================================== *)

Module Trace.

Inductive level := DEBUG | INFO | WARNING | ERROR.

(** The records the code logs, one constructor per message text. *)
Inductive message :=
(* publisher.py: selector cache *)
| CacheLoaded (n : nat)
| CacheLoadFailed
| CacheSaved (n : nat)
| CacheSaveFailed
| CachedSelectorUsed (cache_key : pystr)
| CachedSelectorFailed (cache_key : pystr)
| SelectorCached (cache_key selector : pystr)
(* publisher.py: ToutiaoPublisher *)
| EnterPublishPage
| TypeTitle (title : pystr)
| WriteContent
| SingleCoverOn
| SingleCoverNotSwitched
| NoCoverOn
| NoCoverNotSwitched
| UploadCover (abs_path : pystr)
| CoverUploaded
| CachedUploadFailed
| CoverUploadedByClick
| ClickUploadFailed
| CoverUploadSkipped
| CoverConfirmClicked
| CoverConfirmNotFound
| SubmitStart
| SubmitStepOne
| PreviewClicked
| SubmitStepTwo
| ConfirmClicked
| ConfirmNotFound
| SubmitDone
(* ai_analyzer.py: published records *)
| RecordsBadFormat
| RecordsReadFailed
| RecordSaved (url : pystr)
| RecordSaveFailed
(* the two work loops *)
| NoArticles
| NoHotSearches
| RecordsLoaded (n : nat)
| SkippedPublished (skipped remaining : nat)
| NothingToDo
| StartProcessing (n : nat)
| ItemIncomplete (idx : nat)
| Processing (idx n : nat)
| GeneratingArticle (idx n : nat) (topic : pystr)
| GenerationFailed (topic : pystr)
| TitleGenerated (title : pystr)
| CoverTry (attempt max_retries : nat)
| CoverGenerated (cover_path : pystr)
| CoverAttemptFailed (attempt : nat)
| CoverGaveUp (max_retries : nat) (title : pystr)
| SkippedNoCover (title : pystr)
| Published (title : pystr)
| CoverRemoved (cover_path : pystr)
| CoverRemoveFailed
| WaitingNext (title : pystr)
| PublishFailed
| PublishFileFailed
| AllDone.

Inductive By := XPATH | CSS_SELECTOR.

Inductive script :=
| ClickScript        (* "arguments[0].click();" *)
| SetInnerHTML       (* "arguments[0].innerHTML = arguments[1];" *)
| RevealInput.       (* the style assignments that make the file input visible *)

Definition element := nat.

(** Calls to the Selenium driver. *)
Inductive command :=
| Navigate (url : pystr)
| WaitUntil (timeout : Z) (clickable : bool) (how : By) (locator : pystr)
| FindElement (how : By) (locator : pystr)
| ExecuteScript (s : script) (el : element) (arg : option pystr)
| ClearElement (el : element)
| SendKeys (el : element) (text : pystr).

Inductive event :=
| Log (lvl : level) (m : message)
| Sleep (seconds : Q)
| Driver (c : command) (ok : bool)
| WriteSelectorCache (ok : bool)
| WriteRecords (url : pystr) (ok : bool)
| GenerateText (topic : pystr) (url : pystr)
| GenerateCover (title : pystr) (ok : bool)
| Publish (title : pystr) (cover_path : option pystr) (use_cover : bool) (ok : bool)
| SaveArticle (topic title : pystr) (ok : bool)
| Remove (path : pystr) (ok : bool).

Definition is_log (lvl : level) (e : event) : bool :=
  match e with
  | Log l _ => match l, lvl with
               | DEBUG, DEBUG | INFO, INFO | WARNING, WARNING | ERROR, ERROR => true
               | _, _ => false
               end
  | _ => false
  end.

End Trace.
Export Trace.

(* ===================================================================== *)
(** ** The effect monad                                                     *)
(* ===================================================================== *)

Module Eff.

(** A computation over a state [S]: its outcome, the final state and the
    events it emitted, in order. *)
Definition M (S A : Type) : Type := S -> outcome A * S * list event.

Definition ret {S A} (a : A) : M S A := fun s => (Ret a, s, []).

Definition bind {S A B} (c : M S A) (k : A -> M S B) : M S B :=
  fun s =>
    match c s with
    | (Ret a, s1, t1) =>
        match k a s1 with
        | (r, s2, t2) => (r, s2, t1 ++ t2)
        end
    | (Raise e, s1, t1) => (Raise e, s1, t1)
    end.

Definition raise {S A} (e : exn) : M S A := fun s => (Raise e, s, []).

(** [try: c  except <classes>: handler], for the classes [catches] accepts. *)
Definition try_except {S A} (c : M S A) (catches : exn -> bool)
    (handler : exn -> M S A) : M S A :=
  fun s =>
    match c s with
    | (Ret a, s1, t1) => (Ret a, s1, t1)
    | (Raise e, s1, t1) =>
        if catches e then
          match handler e s1 with
          | (r, s2, t2) => (r, s2, t1 ++ t2)
          end
        else (Raise e, s1, t1)
    end.

Definition emit {S} (e : event) : M S unit := fun s => (Ret tt, s, [e]).
Definition get {S} : M S S := fun s => (Ret s, s, []).
Definition put {S} (s : S) : M S unit := fun _ => (Ret tt, s, []).

Definition log {S} (lvl : level) (m : message) : M S unit := emit (Log lvl m).

(** [time.sleep(seconds)]: a negative duration is a [ValueError]. *)
Definition sleep {S} (seconds : Q) : M S unit :=
  if Qle_bool 0 seconds then emit (Sleep seconds) else raise ValueError.

(** [except Exception] *)
Definition any_exception (e : exn) : bool := true.

End Eff.
Export Eff.

Declare Scope eff_scope.
Delimit Scope eff_scope with eff.
Notation "x <- c ;; k" := (bind c (fun x => k))
  (at level 100, c at next level, right associativity) : eff_scope.
Notation "c ;; k" := (bind c (fun _ => k))
  (at level 100, right associativity) : eff_scope.
Open Scope eff_scope.

(* ===================================================================== *)
(** ** String literals                                                      *)
(* ===================================================================== *)

Module Lit.

(** Reads the UTF-8 bytes of a literal as code points.  [pending] counts the
    continuation bytes still expected and [acc] holds the bits read so far. *)
Fixpoint utf8_decode (bytes : list N) (pending : nat) (acc : N) : pystr :=
  match bytes with
  | [] => []
  | b :: r =>
      match pending with
      | S k =>
          let acc' := (acc * 64 + b mod 64)%N in
          match k with
          | O => acc' :: utf8_decode r 0 0
          | S _ => utf8_decode r k acc'
          end
      | O =>
          if (b <? 128)%N then b :: utf8_decode r 0 0
          else if (b <? 224)%N then utf8_decode r 1 (b mod 32)%N
          else if (b <? 240)%N then utf8_decode r 2 (b mod 16)%N
          else utf8_decode r 3 (b mod 8)%N
      end
  end.

Definition u (s : String.string) : pystr :=
  utf8_decode (map Ascii.N_of_ascii (String.list_ascii_of_string s)) 0 0.
Arguments u s%_string_scope.

End Lit.
Export Lit.

(* ===================================================================== *)
(** ** The two JSON files                                                   *)
(* ===================================================================== *)

Module Files.

(** What reading a path gives. *)
Inductive file_state :=
| Absent            (* [os.path.exists] is false *)
| Unreadable        (* [open] raises [OSError] *)
| Undecodable       (* the bytes are not UTF-8 *)
| NotJson           (* [json.load] raises [JSONDecodeError] *)
| Json (v : pyval). (* [json.load] returns [v] *)

(** A path: what it holds, and whether [open(path, "w")] succeeds. *)
Record file := { f_state : file_state; f_writable : bool }.

Definition path_exists (f : file) : bool :=
  match f_state f with
  | Absent => false
  | _ => true
  end.

(** [with open(path, "r", encoding="utf-8") as f: json.load(f)] *)
Definition json_load : M file pyval :=
  fun f =>
    match f_state f with
    | Absent | Unreadable => (Raise OSError, f, [])
    | Undecodable => (Raise UnicodeDecodeError, f, [])
    | NotJson => (Raise JSONDecodeError, f, [])
    | Json v => (Ret v, f, [])
    end.

(** [with open(path, "w", encoding="utf-8") as f: json.dump(v, f, ...)] *)
Definition json_dump (v : pyval) : M file unit :=
  fun f =>
    if f_writable f then (Ret tt, {| f_state := Json v; f_writable := true |}, [])
    else (Raise OSError, f, []).

(** Runs a computation on a part of the state. *)
Definition zoom {S T A} (proj : S -> T) (upd : T -> S -> S) (c : M T A) : M S A :=
  fun s =>
    match c (proj s) with
    | (r, t, tr) => (r, upd t s, tr)
    end.

End Files.
Export Files.

(* ===================================================================== *)
(** ** ai_analyzer.py: the published-record file                            *)
(* ===================================================================== *)

Module Records.

(** A Python [set] of hashable values, as the list of its members: no two
    of them are equal for [==]. *)
Definition pyset := list pyval.

Definition set_mem (x : pyval) (s : pyset) : bool := existsb (py_eqb x) s.

Definition set_add (x : pyval) (s : pyset) : pyset :=
  if set_mem x s then s else s ++ [x].

(** [x in s] and [s.add(x)] hash [x] first. *)
Definition set_contains {S} (x : pyval) (s : pyset) : M S bool :=
  if hashable x then ret (set_mem x s) else raise TypeError.

Definition set_insert {S} (x : pyval) (s : pyset) : M S pyset :=
  if hashable x then ret (set_add x s) else raise TypeError.

(** [set(items)] *)
Fixpoint set_of_list {S} (items : list pyval) (acc : pyset) : M S pyset :=
  match items with
  | [] => ret acc
  | x :: rest => acc' <- set_insert x acc ;; set_of_list rest acc'
  end.

(** Iterating a value: a list yields its items, a string its characters, a
    dict its keys; other values are not iterable. *)
Definition iterate {S} (v : pyval) : M S (list pyval) :=
  match v with
  | VList l => ret l
  | VStr s => ret (map (fun c => VStr [c]) s)
  | VDict d => ret (map (fun kv => VStr kv.1) (map_to_list d))
  | _ => raise TypeError
  end.

(** The order in which [list(s)] enumerates a set is not specified by
    Python; it is some rearrangement of the members. *)
Class SetOrder := {
  set_order : pyset -> list pyval;
  set_order_perm : forall s, set_order s ≡ₚ s
}.

Definition urls_key : pystr := u "urls".

(** [except (json.JSONDecodeError, OSError)] *)
Definition decode_or_os_error (e : exn) : bool :=
  match e with
  | JSONDecodeError | OSError => true
  | _ => false
  end.

(** [except OSError] *)
Definition os_error (e : exn) : bool :=
  match e with
  | OSError => true
  | _ => false
  end.

Definition load_published_records : M file pyset :=
  f <- get ;;
  if negb (path_exists f) then ret []
  else
    try_except
      (data <- json_load ;;
       match data with
       | VList l => set_of_list l []
       | VDict d =>
           match d !! urls_key with
           | Some urls => items <- iterate urls ;; set_of_list items []
           | None => log WARNING RecordsBadFormat ;; ret []
           end
       | _ => log WARNING RecordsBadFormat ;; ret []
       end)
      decode_or_os_error
      (fun _ => log WARNING RecordsReadFailed ;; ret []).

Definition save_published_record `{SetOrder} (url : pystr) : M file unit :=
  published <- load_published_records ;;
  published <- set_insert (VStr url) published ;;
  try_except
    (json_dump (VList (set_order published)) ;;
     emit (WriteRecords url true) ;;
     log DEBUG (RecordSaved url))
    os_error
    (fun _ => emit (WriteRecords url false) ;; log WARNING RecordSaveFailed).

End Records.
Export Records.

(* ===================================================================== *)
(** ** publisher.py: the selector cache and element lookup                  *)
(* ===================================================================== *)

Module Selectors.

(** The Selenium driver.  Each call returns its result, or fails (the
    Python call raises), and leaves the browser in a new state.
    [wait_until b timeout clickable how locator] is
    [WebDriverWait(driver, timeout).until(EC.element_to_be_clickable((how,
    locator)))] when [clickable], and [EC.presence_of_element_located]
    otherwise.  [abspath] is [os.path.abspath]. *)
Class Browser (B : Type) := {
  navigate : B -> pystr -> bool * B;
  wait_until : B -> Z -> bool -> By -> pystr -> option element * B;
  find_element : B -> By -> pystr -> option element * B;
  execute_script : B -> script -> element -> option pystr -> bool * B;
  clear_element : B -> element -> bool * B;
  send_keys : B -> element -> pystr -> bool * B;
  abspath : pystr -> pystr;
  (** The driver rejects an empty locator as an invalid selector: the wait
      raises at once, whatever the page holds. *)
  empty_locator_invalid :
    forall b timeout clickable how, (wait_until b timeout clickable how []).1 = None
}.

(** What the publishing code works on: the driver, the in-memory selector
    cache ([self.selector_cache], whatever [load_selector_cache] returned)
    and the file [selector_cache.json]. *)
Record session (B : Type) := {
  s_driver : B;
  s_cache : pyval;
  s_file : file
}.
Arguments s_driver {B} _.
Arguments s_cache {B} _.
Arguments s_file {B} _.

Section WithBrowser.
Context {B : Type} `{Browser B}.

Definition on_driver {A} (c : M B A) : M (session B) A :=
  zoom s_driver
       (fun b s => {| s_driver := b; s_cache := s_cache s; s_file := s_file s |}) c.

Definition on_file {A} (c : M file A) : M (session B) A :=
  zoom s_file
       (fun f s => {| s_driver := s_driver s; s_cache := s_cache s; s_file := f |}) c.

Definition set_cache (c : pyval) : M (session B) unit :=
  fun s => (Ret tt, {| s_driver := s_driver s; s_cache := c; s_file := s_file s |}, []).

(** A driver call that returns nothing. *)
Definition drive (op : B -> bool * B) (c : command) : M (session B) unit :=
  on_driver (fun b =>
    match op b with
    | (true, b') => (Ret tt, b', [Driver c true])
    | (false, b') => (Raise WebDriverException, b', [Driver c false])
    end).

(** A driver call that returns an element. *)
Definition locate (op : B -> option element * B) (c : command)
  : M (session B) element :=
  on_driver (fun b =>
    match op b with
    | (Some el, b') => (Ret el, b', [Driver c true])
    | (None, b') => (Raise WebDriverException, b', [Driver c false])
    end).

Definition wait_for (timeout : Z) (clickable : bool) (how : By) (locator : pystr)
  : M (session B) element :=
  locate (fun b => wait_until b timeout clickable how locator)
         (WaitUntil timeout clickable how locator).

Definition driver_find_element (how : By) (locator : pystr) : M (session B) element :=
  locate (fun b => find_element b how locator) (FindElement how locator).

Definition driver_execute_script (sc : script) (el : element) (arg : option pystr)
  : M (session B) unit :=
  drive (fun b => execute_script b sc el arg) (ExecuteScript sc el arg).

Definition driver_send_keys (el : element) (text : pystr) : M (session B) unit :=
  drive (fun b => send_keys b el text) (SendKeys el text).

Definition driver_clear (el : element) : M (session B) unit :=
  drive (fun b => clear_element b el) (ClearElement el).

Definition driver_get (url : pystr) : M (session B) unit :=
  drive (fun b => navigate b url) (Navigate url).

(** [len(v)] *)
Definition py_len {S} (v : pyval) : M S nat :=
  match v with
  | VStr s => ret (length s)
  | VList l => ret (length l)
  | VDict d => ret (size d)
  | _ => raise TypeError
  end.

Definition load_selector_cache : M file pyval :=
  f <- get ;;
  r <- (if path_exists f then
          try_except
            (cache <- json_load ;;
             n <- py_len cache ;;
             log INFO (CacheLoaded n) ;;
             ret (Some cache))
            any_exception
            (fun _ => log WARNING CacheLoadFailed ;; ret None)
        else ret None) ;;
  match r with
  | Some cache => ret cache
  | None => ret (VDict ∅)
  end.

Definition save_selector_cache (cache : gmap pystr pyval) : M file unit :=
  try_except
    (json_dump (VDict cache) ;;
     emit (WriteSelectorCache true) ;;
     log DEBUG (CacheSaved (size cache)))
    any_exception
    (fun _ => emit (WriteSelectorCache false) ;; log WARNING CacheSaveFailed).

(** [cache.get(cache_key)]: only a dict has [get]. *)
Definition cache_get (cache_key : pystr) : M (session B) pyval :=
  s <- get ;;
  match s_cache s with
  | VDict d => ret (default VNone (d !! cache_key))
  | _ => raise AttributeError
  end.

(** [cache[cache_key] = selector], for the dict that [cache_get] read. *)
Definition cache_set (cache_key selector : pystr) : M (session B) (gmap pystr pyval) :=
  s <- get ;;
  match s_cache s with
  | VDict d =>
      let d' := <[cache_key := VStr selector]> d in
      set_cache (VDict d') ;; ret d'
  | _ => raise TypeError
  end.

(** [cached_selector in selectors] *)
Definition in_selectors (cached_selector : pyval) (selectors : list pystr) : bool :=
  existsb (fun s => py_eqb cached_selector (VStr s)) selectors.

(** The text of a cached selector that passed the membership test. *)
Definition selector_text (cached_selector : pyval) : pystr :=
  match cached_selector with
  | VStr s => s
  | _ => []
  end.

(** The loop [for selector in selectors] of [find_element_with_cache]. *)
Fixpoint try_selectors (cache_key : pystr) (selectors : list pystr)
    (timeout : Z) (clickable : bool) : M (session B) (option (element * pystr)) :=
  match selectors with
  | [] => ret None
  | selector :: rest =>
      r <- try_except
             (el <- wait_for timeout clickable XPATH selector ;;
              cache <- cache_set cache_key selector ;;
              on_file (save_selector_cache cache) ;;
              log INFO (SelectorCached cache_key selector) ;;
              ret (Some (el, selector)))
             any_exception
             (fun _ => ret None) ;;
      match r with
      | Some found => ret (Some found)
      | None => try_selectors cache_key rest timeout clickable
      end
  end.

Definition find_element_with_cache (cache_key : pystr) (selectors : list pystr)
    (timeout : Z) (clickable : bool) : M (session B) (option (element * pystr)) :=
  cached_selector <- cache_get cache_key ;;
  r <- (if truthy cached_selector && in_selectors cached_selector selectors then
          try_except
            (el <- wait_for timeout clickable XPATH (selector_text cached_selector) ;;
             log DEBUG (CachedSelectorUsed cache_key) ;;
             ret (Some (el, selector_text cached_selector)))
            any_exception
            (fun _ => log DEBUG (CachedSelectorFailed cache_key) ;; ret None)
        else ret None) ;;
  match r with
  | Some found => ret (Some found)
  | None => try_selectors cache_key selectors timeout clickable
  end.

End WithBrowser.
End Selectors.
Export Selectors.

(* ===================================================================== *)
(** ** publisher.py: ToutiaoPublisher                                       *)
(* ===================================================================== *)

Module Toutiao.

Section WithBrowser.
Context {B : Type} `{Browser B}.

(** [TOUTIA_WEB_PUBLISH_URL] of config.py *)
Definition TOUTIA_WEB_PUBLISH_URL : pystr :=
  u "https://mp.toutiao.com/profile_v4/graphic/publish".

Definition title_locator : pystr := u "textarea[placeholder*='请输入文章标题']".
Definition editor_locator : pystr := u ".ProseMirror".

Definition single_cover_candidates : list pystr :=
  [ u "//label[@class='byte-radio']//input[@type='radio' and @value='2']/ancestor::label[1]";
    u "//span[contains(@class,'byte-radio-inner-text') and text()='单图']/ancestor::label[1]" ].

Definition no_cover_candidates : list pystr :=
  [ u "//label[@class='byte-radio']//input[@type='radio' and @value='1']/ancestor::label[1]";
    u "//span[contains(@class,'byte-radio-inner-text') and text()='无封面']/ancestor::label[1]";
    u "//label[contains(@class,'byte-radio')]//span[text()='无封面']/ancestor::label[1]" ].

Definition cover_input_selectors : list pystr :=
  [ u "//div[contains(@class,'article-cover-add')]//input[@type='file']";
    u "//div[contains(@class,'article-cover')]//input[@type='file']";
    u "//input[@type='file' and contains(@accept,'image')]" ].

Definition upload_area_locator : pystr := u "//div[contains(@class,'article-cover-add')]".
Definition file_input_locator : pystr := u "//input[@type='file']".

Definition confirm_selectors : list pystr :=
  [ u "//span[contains(text(),'确定')]/ancestor::button[1]";
    u "//button[contains(text(),'确定')]";
    u "//button[contains(@class,'primary')]" ].

Definition preview_publish_selectors : list pystr :=
  [ u "//span[contains(text(),'预览并发布')]/ancestor::button[1]";
    u "//button[contains(text(),'预览并发布')]";
    u "//button[contains(@class,'publish-btn')]" ].

Definition confirm_publish_selectors : list pystr :=
  [ u "//span[contains(text(),'确认发布')]/ancestor::button[1]";
    u "//button[contains(text(),'确认发布')]";
    u "//div[contains(@class,'modal')]//button[contains(@class,'primary')]" ].

Definition _fill_title (title : pystr) : M (session B) unit :=
  let safe_title := strip title in
  log INFO (TypeTitle safe_title) ;;
  title_area <- wait_for 20 false CSS_SELECTOR title_locator ;;
  driver_clear title_area ;;
  driver_send_keys title_area safe_title.

Definition _fill_content (content_html : pystr) : M (session B) unit :=
  log INFO WriteContent ;;
  editor <- wait_for 20 false CSS_SELECTOR editor_locator ;;
  driver_execute_script SetInnerHTML editor (Some content_html) ;;
  sleep 2.

Definition _ensure_single_cover_mode : M (session B) unit :=
  result <- find_element_with_cache (u "single_cover_mode")
              single_cover_candidates 5 false ;;
  match result with
  | Some (option, _) =>
      driver_execute_script ClickScript option None ;;
      sleep 1 ;;
      log INFO SingleCoverOn
  | None => log WARNING SingleCoverNotSwitched
  end.

Definition _ensure_no_cover_mode : M (session B) unit :=
  result <- find_element_with_cache (u "no_cover_mode")
              no_cover_candidates 5 false ;;
  match result with
  | Some (option, _) =>
      driver_execute_script ClickScript option None ;;
      sleep 1 ;;
      log INFO NoCoverOn
  | None => log WARNING NoCoverNotSwitched
  end.

Definition _confirm_cover_upload : M (session B) unit :=
  sleep 2 ;;
  result <- find_element_with_cache (u "cover_upload_confirm")
              confirm_selectors 3 true ;;
  match result with
  | Some (confirm_btn, _) =>
      driver_execute_script ClickScript confirm_btn None ;;
      sleep 1 ;;
      log INFO CoverConfirmClicked
  | None => log DEBUG CoverConfirmNotFound
  end.

(** [_upload_cover_image] returns from inside its [try] blocks; [true]
    stands for such a return, [false] for falling through to the next
    attempt. *)
Definition _upload_cover_image (image_path : pystr) : M (session B) unit :=
  let abs_path := abspath image_path in
  log INFO (UploadCover abs_path) ;;
  _ensure_single_cover_mode ;;
  sleep 1 ;;
  result <- find_element_with_cache (u "cover_upload_input")
              cover_input_selectors 5 false ;;
  returned <- match result with
              | Some (input_el, _) =>
                  try_except
                    (driver_execute_script RevealInput input_el None ;;
                     driver_send_keys input_el abs_path ;;
                     sleep 3 ;;
                     log INFO CoverUploaded ;;
                     _confirm_cover_upload ;;
                     ret true)
                    any_exception
                    (fun _ => log WARNING CachedUploadFailed ;; ret false)
              | None => ret false
              end ;;
  if returned : bool then ret tt
  else
    returned <- try_except
                  (upload_area <- driver_find_element XPATH upload_area_locator ;;
                   driver_execute_script ClickScript upload_area None ;;
                   sleep 1 ;;
                   file_input <- driver_find_element XPATH file_input_locator ;;
                   driver_send_keys file_input abs_path ;;
                   sleep 3 ;;
                   log INFO CoverUploadedByClick ;;
                   _confirm_cover_upload ;;
                   ret true)
                  any_exception
                  (fun _ => log WARNING ClickUploadFailed ;; ret false) ;;
    if returned : bool then ret tt
    else log WARNING CoverUploadSkipped.

Definition _submit : M (session B) unit :=
  log INFO SubmitStart ;;
  log INFO SubmitStepOne ;;
  result <- find_element_with_cache (u "preview_publish_btn")
              preview_publish_selectors 20 true ;;
  match result with
  | Some (preview_btn, _) =>
      driver_execute_script ClickScript preview_btn None ;;
      log INFO PreviewClicked
  | None => raise RuntimeError
  end ;;
  sleep 3 ;;
  log INFO SubmitStepTwo ;;
  result <- find_element_with_cache (u "confirm_publish_btn")
              confirm_publish_selectors 10 true ;;
  match result with
  | Some (confirm_btn, _) =>
      driver_execute_script ClickScript confirm_btn None ;;
      log INFO ConfirmClicked
  | None => log WARNING ConfirmNotFound
  end ;;
  sleep 3 ;;
  log INFO SubmitDone.

(** The body of [publish] once [self.driver] is known to be set: first
    everything up to the cover, then [_submit]. *)
Definition fill_page (title content_html : pystr) (cover_path : option pystr)
    (use_cover : bool) : M (session B) unit :=
  log INFO EnterPublishPage ;;
  driver_get TOUTIA_WEB_PUBLISH_URL ;;
  sleep 4 ;;
  _fill_title title ;;
  _fill_content content_html ;;
  match cover_path with
  | Some p =>
      if nonempty p && use_cover then _upload_cover_image p
      else if negb use_cover then _ensure_no_cover_mode
      else ret tt
  | None => if negb use_cover then _ensure_no_cover_mode else ret tt
  end.

Definition publish_steps (title content_html : pystr) (cover_path : option pystr)
    (use_cover : bool) : M (session B) unit :=
  fill_page title content_html cover_path use_cover ;;
  _submit.

(** The fields of a [ToutiaoPublisher] that [publish] reads: [self.driver]
    is [None] until the browser is started. *)
Record ToutiaoPublisher := {
  driver : option B;
  selector_cache : pyval;
  selector_cache_file : file
}.

Definition publish (title content_html : pystr) (cover_path : option pystr)
    (use_cover : bool) : M ToutiaoPublisher unit :=
  fun self =>
    match driver self with
    | None => (Raise RuntimeError, self, [])
    | Some b =>
        match publish_steps title content_html cover_path use_cover
                {| s_driver := b; s_cache := selector_cache self;
                   s_file := selector_cache_file self |} with
        | (r, s, tr) =>
            (r, {| driver := Some (s_driver s); selector_cache := s_cache s;
                   selector_cache_file := s_file s |}, tr)
        end
    end.

End WithBrowser.
Arguments ToutiaoPublisher B : clear implicits.

End Toutiao.
Export Toutiao.

(* ===================================================================== *)
(** ** The two work loops: process_hot_searches and publish_directory       *)
(* ===================================================================== *)

Module Pipeline.

(** The services behind [call_deepseek_api] and [generate_cover_image], and
    the helpers whose results are only passed on.  [call_deepseek_api]
    returns the generated text, or the empty string when the request fails
    ([except requests.exceptions.RequestException]); a reply of another
    shape than the one it reads makes [result["choices"][0]["message"]
    ["content"].strip()] raise [KeyError], [TypeError] or [AttributeError],
    which nothing in the function catches.  [generate_cover_image] returns
    the path of the image file it wrote, or raises ([None]).
    [save_article_to_file] writes an article file ([false]: it raises).
    [extract_article] returns [None] for a file it cannot open or that is
    empty, and raises [UnicodeDecodeError] for one that is not UTF-8: its
    [try] catches [OSError] only. *)
Class Services (E : Type) := {
  call_deepseek_api : E -> pystr -> option pystr -> outcome pystr * E;
  generate_cover_image : E -> pystr -> pystr -> option pystr * E;
  save_article_to_file : E -> pystr -> pystr -> pystr -> bool * E;
  extract_article : E -> pystr -> outcome (option (pystr * pystr * pystr)) * E;
  markdown_to_html : pystr -> pystr
}.

(** The object passed as [publisher]: anything with a [publish] method.
    [false] stands for a raised exception. *)
Class Publisher (P : Type) := {
  publisher_publish : P -> pystr -> pystr -> option pystr -> bool -> bool * P
}.

(** A hot-search entry, as far as the loop reads it: [item.get("title")]
    and [item.get("url")], [None] when the key is missing. *)
Record work_item := {
  item_title : option pystr;
  item_url : option pystr
}.

(** [publish_config], with the defaults of its [get] calls filled in. *)
Record publish_config := {
  cover_mode : pystr;
  publish_delay : Q
}.

Record world (E P : Type) := {
  services : E;
  publisher : P;
  records_file : file;            (* published_articles.json *)
  files : gset pystr;             (* the image files that exist *)
  undeletable : gset pystr        (* paths on which [os.remove] raises *)
}.
Arguments services {E P} _.
Arguments publisher {E P} _.
Arguments records_file {E P} _.
Arguments files {E P} _.
Arguments undeletable {E P} _.

Section WithCollaborators.
Context {E P : Type} `{Services E} `{Publisher P} `{SetOrder}.

Definition on_records {A} (c : M file A) : M (world E P) A :=
  zoom records_file
       (fun f w => {| services := services w; publisher := publisher w;
                      records_file := f; files := files w;
                      undeletable := undeletable w |}) c.

(** A call to one of the services. *)
Definition call_service {A} (op : E -> A * E) : M (world E P) A :=
  fun w =>
    match op (services w) with
    | (a, e) => (Ret a, {| services := e; publisher := publisher w;
                           records_file := records_file w; files := files w;
                           undeletable := undeletable w |}, [])
    end.

(** A call to a service that may raise. *)
Definition call_raising {A} (op : E -> outcome A * E) : M (world E P) A :=
  fun w =>
    match op (services w) with
    | (r, e) => (r, {| services := e; publisher := publisher w;
                       records_file := records_file w; files := files w;
                       undeletable := undeletable w |}, [])
    end.

Definition set_files (fs : gset pystr) : M (world E P) unit :=
  fun w => (Ret tt, {| services := services w; publisher := publisher w;
                       records_file := records_file w; files := fs;
                       undeletable := undeletable w |}, []).

(** [generate_article_draft]: the prompt is built from the topic and, when
    [source_url] is not empty, the link.  The event records the request,
    whatever comes back; an exception of [call_deepseek_api] is passed
    on. *)
Definition generate_article_draft (topic url : pystr)
  : M (world E P) (option pystr * pystr) :=
  let source_url := if nonempty url then Some url else None in
  emit (GenerateText topic url) ;;
  full_article <- call_raising (fun e => call_deepseek_api e topic source_url) ;;
  ret (Shaping.extract_title_and_content full_article).

(** [generate_cover_image(title, article_text, ...)]: on success the image
    file exists at the returned path. *)
Definition cover_image (title article_text : pystr) : M (world E P) pystr :=
  r <- call_service (fun e => generate_cover_image e title article_text) ;;
  match r with
  | Some cover_path =>
      emit (GenerateCover title true) ;;
      w <- get ;;
      set_files ({[cover_path]} ∪ files w) ;;
      ret cover_path
  | None => emit (GenerateCover title false) ;; raise ServiceError
  end.

(** [publisher.publish(title, content_html, cover_path=..., use_cover=...)] *)
Definition do_publish (title content_html : pystr) (cover_path : option pystr)
    (use_cover : bool) : M (world E P) unit :=
  fun w =>
    match publisher_publish (publisher w) title content_html cover_path use_cover with
    | (ok, p) =>
        (if ok then Ret tt else Raise ServiceError,
         {| services := services w; publisher := p;
            records_file := records_file w; files := files w;
            undeletable := undeletable w |},
         [Publish title cover_path use_cover ok])
    end.

(** [os.path.exists(path)] and [os.remove(path)] *)
Definition os_path_exists (path : pystr) : M (world E P) bool :=
  w <- get ;; ret (bool_decide (path ∈ files w)).

Definition os_remove (path : pystr) : M (world E P) unit :=
  w <- get ;;
  if bool_decide (path ∈ files w) && negb (bool_decide (path ∈ undeletable w)) then
    set_files (files w ∖ {[path]}) ;; emit (Remove path true)
  else emit (Remove path false) ;; raise OSError.

(** The cover loop, [for attempt in range(1, max_retries + 1)], written the
    same way in both work loops.  It yields [cover_path] and
    [cover_generated]. *)
Fixpoint cover_attempts (attempts : list nat) (max_retries : nat)
    (title article_text : pystr) : M (world E P) (option pystr * bool) :=
  match attempts with
  | [] => ret (None, false)
  | attempt :: rest =>
      r <- try_except
             (log INFO (CoverTry attempt max_retries) ;;
              cover_path <- cover_image title article_text ;;
              log INFO (CoverGenerated cover_path) ;;
              ret (Some cover_path))
             any_exception
             (fun _ =>
                log WARNING (CoverAttemptFailed attempt) ;;
                (if (attempt <? max_retries)%nat then sleep 2
                 else log ERROR (CoverGaveUp max_retries title)) ;;
                ret None) ;;
      match r with
      | Some cover_path => ret (Some cover_path, true)
      | None => cover_attempts rest max_retries title article_text
      end
  end.

Definition max_retries : nat := 3.

Definition generate_cover (title article_text : pystr)
  : M (world E P) (option pystr * bool) :=
  cover_attempts (seq 1 max_retries) max_retries title (take 100 article_text).

(** [if cover_path and os.path.exists(cover_path): try: os.remove ...] with
    the handler [on_failure] of the surrounding [except]. *)
Definition remove_cover (cover_path : option pystr) (on_failure : M (world E P) unit)
  : M (world E P) unit :=
  match cover_path with
  | Some p =>
      there <- os_path_exists p ;;
      if nonempty p && there then
        try_except (os_remove p ;; log INFO (CoverRemoved p))
                   any_exception (fun _ => on_failure)
      else ret tt
  | None => ret tt
  end.

Definition literal_generate : pystr := u "generate".

(** ai_analyzer.py, from [publisher.publish] to the final [time.sleep]. *)
Definition publish_and_record (cfg : publish_config) (title content_html : pystr)
    (cover_path : option pystr) (url : pystr) : M (world E P) unit :=
  do_publish title content_html cover_path true ;;
  log INFO (Published title) ;;
  on_records (save_published_record url) ;;
  remove_cover cover_path (log WARNING CoverRemoveFailed) ;;
  log INFO (WaitingNext title) ;;
  sleep (publish_delay cfg).

(** The cover step of both loops, [if cover_mode == "generate": ...]: it
    yields [cover_path], or [None] where the loop body says [continue]. *)
Definition cover_step (mode title article_text : pystr)
  : M (world E P) (option (option pystr)) :=
  if bool_decide (mode = literal_generate) then
    generated <- generate_cover title article_text ;;
    let '(cover_path, cover_generated) := generated in
    if cover_generated : bool then ret (Some cover_path)
    else log WARNING (SkippedNoCover title) ;; ret None
  else ret (Some None).

(** The [try] block of the loop body of [process_hot_searches]. *)
Definition publish_article (cfg : publish_config) (title article_content url : pystr)
  : M (world E P) unit :=
  try_except
    (let content_html := markdown_to_html article_content in
     cover <- cover_step (cover_mode cfg) title article_content ;;
     match cover with
     | Some cover_path => publish_and_record cfg title content_html cover_path url
     | None => ret tt
     end)
    any_exception
    (fun _ => log ERROR PublishFailed).

(** The truth value of [item.get(...)]. *)
Definition field (v : option pystr) : pystr := default [] v.

(** One pass of the loop body of [process_hot_searches]. *)
Definition process_item (cfg : publish_config) (with_publisher : bool)
    (delay_seconds : Q) (n idx : nat) (item : work_item) : M (world E P) unit :=
  let topic := field (item_title item) in
  let url := field (item_url item) in
  if negb (nonempty topic) || negb (nonempty url) then
    log WARNING (ItemIncomplete idx)
  else
    log INFO (GeneratingArticle idx n topic) ;;
    result <- generate_article_draft topic url ;;
    let '(title, article_content) := result in
    if negb (nonempty article_content) then log WARNING (GenerationFailed topic)
    else
      let title := if Shaping.not_title title then topic else field title in
      log INFO (TitleGenerated title) ;;
      if with_publisher then publish_article cfg title article_content url
      else
        ok <- call_service (fun e => save_article_to_file e topic article_content title) ;;
        emit (SaveArticle topic title ok) ;;
        (if ok : bool then ret tt else raise OSError) ;;
        sleep delay_seconds.

(** [for idx, item in enumerate(items, start=idx)] *)
Fixpoint for_each {St A} (body : nat -> A -> M St unit) (idx : nat) (items : list A)
  : M St unit :=
  match items with
  | [] => ret tt
  | item :: rest => body idx item ;; for_each body (S idx) rest
  end.

(** [item.get("url")] as a Python value. *)
Definition url_value (item : work_item) : pyval :=
  match item_url item with
  | Some url => VStr url
  | None => VNone
  end.

(** [[item for item in hot_searches if item.get("url") not in published_urls]] *)
Fixpoint unpublished (published_urls : pyset) (hot_searches : list work_item)
  : list work_item :=
  match hot_searches with
  | [] => []
  | item :: rest =>
      if negb (set_mem (url_value item) published_urls)
      then item :: unpublished published_urls rest
      else unpublished published_urls rest
  end.

(** [items[:n]] for an integer [n]: a negative [n] counts from the end. *)
Definition slice_to {A} (n : Z) (items : list A) : list A :=
  if (0 <=? n)%Z then take (Z.to_nat n) items
  else take (length items - Z.to_nat (- n)) items.

(** [if limit: hot_searches = hot_searches[:limit]]: [None] and [0] are
    false. *)
Definition apply_limit {A} (limit : option Z) (items : list A) : list A :=
  match limit with
  | Some n => if (n =? 0)%Z then items else slice_to n items
  | None => items
  end.

(** The part of [process_hot_searches] that decides which entries the loop
    visits: load the records when [skip_published], filter, then cut to
    [limit]. *)
Definition work_queue (hot_searches : list work_item) (limit : option Z)
    (skip_published : bool) : M (world E P) (list work_item) :=
  published_urls <- (if skip_published then
                       published_urls <- on_records load_published_records ;;
                       log INFO (RecordsLoaded (length published_urls)) ;;
                       ret published_urls
                     else ret []) ;;
  hot_searches <- (if skip_published && negb (bool_decide (published_urls = [])) then
                     let original_count := length hot_searches in
                     let hot_searches := unpublished published_urls hot_searches in
                     let skipped_count := (original_count - length hot_searches)%nat in
                     (if (0 <? skipped_count)%nat
                      then log INFO (SkippedPublished skipped_count (length hot_searches))
                      else ret tt) ;;
                     ret hot_searches
                   else ret hot_searches) ;;
  ret (apply_limit limit hot_searches).

(** The rest of [process_hot_searches]: the loop over the entries that
    are left. *)
Definition process_queue (cfg : publish_config) (with_publisher : bool)
    (delay_seconds : Q) (hot_searches : list work_item) : M (world E P) unit :=
  match hot_searches with
  | [] => log INFO NothingToDo
  | _ =>
      log INFO (StartProcessing (length hot_searches)) ;;
      for_each (process_item cfg with_publisher delay_seconds (length hot_searches))
               1 hot_searches ;;
      log INFO AllDone
  end.

(** [process_hot_searches], from the list that [load_hot_searches]
    returned.  [with_publisher] tells whether a publisher was passed. *)
Definition process_hot_searches (hot_searches : list work_item) (limit : option Z)
    (delay_seconds : Q) (with_publisher : bool) (cfg : publish_config)
    (skip_published : bool) : M (world E P) unit :=
  match hot_searches with
  | [] => log ERROR NoHotSearches
  | _ =>
      hot_searches <- work_queue hot_searches limit skip_published ;;
      process_queue cfg with_publisher delay_seconds hot_searches
  end.

(** One pass of the loop body of [publish_directory]. *)
Definition publish_file (mode : pystr) (delay_seconds : Q) (n idx : nat)
    (file_path : pystr) : M (world E P) unit :=
  log INFO (Processing idx n) ;;
  article <- call_raising (fun e => extract_article e file_path) ;;
  match article with
  | None => ret tt
  | Some (title, content_html, raw_text) =>
      cover <- cover_step mode title raw_text ;;
      match cover with
      | None => ret tt
      | Some cover_path =>
          try_except
            (do_publish title content_html cover_path true ;;
             log INFO (Published title) ;;
             remove_cover cover_path (log WARNING CoverRemoveFailed))
            any_exception
            (fun _ =>
               log ERROR PublishFileFailed ;;
               remove_cover cover_path (ret tt)) ;;
          sleep delay_seconds
      end
  end.

(** [publish_directory], from the sorted list of article files, with the
    browser started and logged in. *)
Definition publish_directory (article_files : list pystr) (limit : option Z)
    (delay_seconds : Q) (mode : pystr) : M (world E P) unit :=
  let article_files := apply_limit limit article_files in
  match article_files with
  | [] => log WARNING NoArticles
  | _ => for_each (publish_file mode delay_seconds (length article_files))
                  1 article_files
  end.

End WithCollaborators.
End Pipeline.
Export Pipeline.

(* ===================================================================== *)
(** * The readings the code is checked against                              *)
(* ===================================================================== *)

(** ** Title and body                                                       *)

Module ShapingSpec.
Import Shaping.

(** The reading of the text that the extraction is checked against. *)

Definition is_marker (m : pystr) : Prop :=
  m = marker_fullwidth \/ m = marker_ascii.

(** A line that, once stripped, starts with neither marker. *)
Definition unmarked (line : pystr) : Prop :=
  startswith marker_fullwidth (strip line) = false /\
  startswith marker_ascii (strip line) = false.

Definition blank (line : pystr) : Prop := strip line = [].

(** [body] is the text from line [idx] on, leading blank lines dropped. *)
Definition body_from (idx : nat) (lines : list pystr) (body : pystr) : Prop :=
  exists blanks rest,
    drop idx lines = blanks ++ rest /\
    Forall blank blanks /\
    match rest with
    | [] => True
    | l :: _ => ~ blank l
    end /\
    body = strip (join_nl rest).

(** No marker gives a title: no line starts with one, or the first line
    that does has nothing but blanks after the marker. *)
Definition no_marked_title (lines : list pystr) : Prop :=
  Forall unmarked lines \/
  exists before l after m rest,
    lines = before ++ l :: after /\ Forall unmarked before /\
    is_marker m /\ strip l = m ++ rest /\ blank rest.

Inductive title_body (text : pystr) : option pystr * pystr -> Prop :=
| by_marker before l after m rest body :
    split_nl (strip text) = before ++ l :: after ->
    Forall unmarked before ->
    is_marker m ->
    strip l = m ++ rest ->
    occurs m rest = false ->
    ~ blank rest ->
    body_from (S (length before)) (split_nl (strip text)) body ->
    title_body text (Some (strip rest), body)
| by_first_line first others body :
    split_nl (strip text) = first :: others ->
    no_marked_title (first :: others) ->
    5 < length (strip first) < 50 ->
    body_from 1 (first :: others) body ->
    title_body text (Some (strip first), body)
| by_truncation first others body :
    split_nl (strip text) = first :: others ->
    no_marked_title (first :: others) ->
    ~ 5 < length (strip first) < 50 ->
    body_from 0 (first :: others) body ->
    title_body text (Some (take 30 (strip first)), body).

End ShapingSpec.

(** ** Sets of records                                                      *)

Module RecordSpec.

(** The representative of a hashable value among the values equal to it. *)
Definition key (v : pyval) : pyval :=
  match v with
  | VBool b => VInt (if b then 1 else 0)
  | _ => v
  end.

(** A well-formed set: hashable members, no two of them equal. *)
Definition pyset_ok (s : pyset) : Prop :=
  Forall (fun v => hashable v = true) s /\ NoDup (key <$> s).

(** How many members of [l] are equal to [x]. *)
Definition occurrences (x : pyval) (l : list pyval) : nat :=
  length (List.filter (py_eqb x) l).

End RecordSpec.

(** ** Element lookup through the selector cache                            *)

Module SelectorSpec.

Section WithBrowser.
Context {B : Type} `{Browser B}.
Variables (timeout : Z) (clickable : bool).

(** Trying the candidates in list order from browser state [b]: the
    candidates in [failed] did not resolve, and either the next one did
    ([Some]) or the list ran out ([None]). *)
Inductive scan : B -> list pystr -> list pystr -> option (element * pystr) -> B -> Prop :=
| scan_out b :
    scan b [] [] None b
| scan_hit b selector rest el b' :
    wait_until b timeout clickable XPATH selector = (Some el, b') ->
    scan b (selector :: rest) [] (Some (el, selector)) b'
| scan_miss b selector rest b1 failed r b' :
    wait_until b timeout clickable XPATH selector = (None, b1) ->
    scan b1 rest failed r b' ->
    scan b (selector :: rest) (selector :: failed) r b'.

(** One attempt to resolve [selector]. *)
Definition probe (selector : pystr) (ok : bool) : event :=
  Driver (WaitUntil timeout clickable XPATH selector) ok.

(** What [save_selector_cache d] leaves on disk and in the trace. *)
Definition saved_file (d : gmap pystr pyval) (f : file) : file :=
  if f_writable f then {| f_state := Json (VDict d); f_writable := true |} else f.

Definition save_events (d : gmap pystr pyval) (f : file) : list event :=
  if f_writable f then [WriteSelectorCache true; Log DEBUG (CacheSaved (size d))]
  else [WriteSelectorCache false; Log WARNING CacheSaveFailed].

(** The session and the events after a scan that ended with [r]. *)
Definition after_scan (cache_key : pystr) (d : gmap pystr pyval) (f : file)
    (r : option (element * pystr)) (b' : B) : session B :=
  match r with
  | Some (_, selector) =>
      {| s_driver := b';
         s_cache := VDict (<[cache_key := VStr selector]> d);
         s_file := saved_file (<[cache_key := VStr selector]> d) f |}
  | None => {| s_driver := b'; s_cache := VDict d; s_file := f |}
  end.

Definition scan_events (cache_key : pystr) (d : gmap pystr pyval) (f : file)
    (failed : list pystr) (r : option (element * pystr)) : list event :=
  map (fun selector => probe selector false) failed ++
  match r with
  | Some (_, selector) =>
      probe selector true ::
      save_events (<[cache_key := VStr selector]> d) f ++
      [Log INFO (SelectorCached cache_key selector)]
  | None => []
  end.

(** The session with the driver in state [b]. *)
Definition with_driver (s : session B) (b : B) : session B :=
  {| s_driver := b; s_cache := s_cache s; s_file := s_file s |}.

End WithBrowser.

(** The cached locator that [find_element_with_cache] tries first. *)
Definition cached_candidate (d : gmap pystr pyval) (cache_key : pystr)
    (selectors : list pystr) : option pystr :=
  match d !! cache_key with
  | Some (VStr selector) =>
      if nonempty selector && bool_decide (selector ∈ selectors) then Some selector
      else None
  | _ => None
  end.

End SelectorSpec.

(** ** The work loops                                                       *)

Module PipelineSpec.

Section WithCollaborators.
Context {E P : Type}.

(** The world after a service call, and after a cover image was written. *)
Definition with_services (w : world E P) (e : E) : world E P :=
  {| services := e; publisher := publisher w; records_file := records_file w;
     files := files w; undeletable := undeletable w |}.

Definition with_cover (w : world E P) (e : E) (cover_path : pystr) : world E P :=
  {| services := e; publisher := publisher w; records_file := records_file w;
     files := {[cover_path]} ∪ files w; undeletable := undeletable w |}.

(** The events of one attempt to generate the cover. *)
Definition attempt_ok (attempt : nat) (title cover_path : pystr) : list event :=
  [Log INFO (CoverTry attempt max_retries); GenerateCover title true;
   Log INFO (CoverGenerated cover_path)].

Definition attempt_failed (attempt : nat) (title : pystr) : list event :=
  [Log INFO (CoverTry attempt max_retries); GenerateCover title false;
   Log WARNING (CoverAttemptFailed attempt)].

End WithCollaborators.

(** The queue is the input with the published entries taken out, in the
    order of the input. *)
Inductive minus_published (published : pyset) : list work_item -> list work_item -> Prop :=
| minus_nil :
    minus_published published [] []
| minus_drop item rest queue :
    set_mem (url_value item) published = true ->
    minus_published published rest queue ->
    minus_published published (item :: rest) queue
| minus_keep item rest queue :
    set_mem (url_value item) published = false ->
    minus_published published rest queue ->
    minus_published published (item :: rest) (item :: queue).

(** What [work_queue] logs after loading the records. *)
Definition queue_log (published : pyset) (hot_searches : list work_item) : list event :=
  Log INFO (RecordsLoaded (length published)) ::
  if bool_decide (published = []) then []
  else
    let skipped := length hot_searches - length (unpublished published hot_searches) in
    if (0 <? skipped)%nat
    then [Log INFO (SkippedPublished skipped (length (unpublished published hot_searches)))]
    else [].

(** ** The publish step of a work item *)

Section Worlds.
Context {E P : Type}.

Definition with_publisher (w : world E P) (p : P) : world E P :=
  {| services := services w; publisher := p; records_file := records_file w;
     files := files w; undeletable := undeletable w |}.

Definition with_records (w : world E P) (f : file) : world E P :=
  {| services := services w; publisher := publisher w; records_file := f;
     files := files w; undeletable := undeletable w |}.

(** The cover file that the loop body goes on to delete, if any. *)
Definition removable (w : world E P) (cover_path : option pystr) : option pystr :=
  match cover_path with
  | Some p => if nonempty p && bool_decide (p ∈ files w) then Some p else None
  | None => None
  end.

Definition after_remove (w : world E P) (cover_path : option pystr) : world E P :=
  match removable w cover_path with
  | Some p =>
      if bool_decide (p ∈ undeletable w) then w
      else {| services := services w; publisher := publisher w;
              records_file := records_file w; files := files w ∖ {[p]};
              undeletable := undeletable w |}
  | None => w
  end.

Definition removal_events (w : world E P) (cover_path : option pystr)
    (on_failure : list event) : list event :=
  match removable w cover_path with
  | Some p =>
      if bool_decide (p ∈ undeletable w) then Remove p false :: on_failure
      else [Remove p true; Log INFO (CoverRemoved p)]
  | None => []
  end.

End Worlds.

(** What [save_published_record url] leaves in the file and in the trace,
    once the set [s] has been read. *)
Definition record_written `{SetOrder} (url : pystr) (s : pyset) (f : file) : file :=
  if f_writable f
  then {| f_state := Json (VList (set_order (set_add (VStr url) s))); f_writable := true |}
  else f.

Definition record_events (url : pystr) (f : file) : list event :=
  if f_writable f then [WriteRecords url true; Log DEBUG (RecordSaved url)]
  else [WriteRecords url false; Log WARNING RecordSaveFailed].

(** The events of [time.sleep(seconds)] at the end of a [try] block whose
    handler emits [on_error]. *)
Definition pause_events (seconds : Q) (on_error : list event) : list event :=
  if Qle_bool 0 seconds then [Sleep seconds] else on_error.


Definition is_remove (e : event) : bool :=
  match e with
  | Remove _ _ => true
  | _ => false
  end.

(** Events other than a [publish] call and a write of the record file. *)
Definition quiet (e : event) : bool :=
  match e with
  | Publish _ _ _ _ | WriteRecords _ _ => false
  | _ => true
  end.


(** ** The entries a run visits *)

(** What the loop body of [process_hot_searches] leaves in the trace when
    it starts on an entry: the warning for an entry without title or url,
    and otherwise the record that names its position and title, followed
    by the request to the text service for its title and url. *)
Definition visit (n idx : nat) (item : work_item) : list event :=
  let topic := field (item_title item) in
  let url := field (item_url item) in
  if negb (nonempty topic) || negb (nonempty url)
  then [Log WARNING (ItemIncomplete idx)]
  else [Log INFO (GeneratingArticle idx n topic); GenerateText topic url].

(** The visits of a loop over [items], counted from [idx]. *)
Fixpoint visits (n idx : nat) (items : list work_item) : list event :=
  match items with
  | [] => []
  | item :: rest => visit n idx item ++ visits n (S idx) rest
  end.

Definition is_visit (e : event) : bool :=
  match e with
  | Log _ (ItemIncomplete _) | Log _ (GeneratingArticle _ _ _) | GenerateText _ _ => true
  | _ => false
  end.

(** The entries a run visited, read off its trace. *)
Definition visited (tr : list event) : list event := List.filter is_visit tr.

End PipelineSpec.

(** ** Sample pages, files and texts                                        *)

Module Examples.
Import Shaping.

(** A page described by the locators that resolve on it; every other driver
    call succeeds. *)
#[export] Instance page : Browser (list pystr) := {|
  navigate b _ := (true, b);
  wait_until b _ _ _ locator :=
    (if nonempty locator && bool_decide (locator ∈ b) then Some 1 else None, b);
  find_element b _ locator :=
    (if bool_decide (locator ∈ b) then Some 2 else None, b);
  execute_script b _ _ _ := (true, b);
  clear_element b _ := (true, b);
  send_keys b _ _ := (true, b);
  abspath p := p;
  empty_locator_invalid b _ _ _ := eq_refl
|}.

Definition fresh_cache_file : file := {| f_state := Absent; f_writable := true |}.

(** The publish page with its title box, editor, cover controls and both
    publish buttons, but no button to confirm the uploaded cover. *)
Definition page_without_cover_confirm : list pystr :=
  [ title_locator; editor_locator;
    u "//span[contains(@class,'byte-radio-inner-text') and text()='单图']/ancestor::label[1]";
    u "//div[contains(@class,'article-cover-add')]//input[@type='file']";
    u "//span[contains(text(),'预览并发布')]/ancestor::button[1]";
    u "//span[contains(text(),'确认发布')]/ancestor::button[1]" ].

Definition publisher_without_cover_confirm : ToutiaoPublisher (list pystr) :=
  {| driver := Some page_without_cover_confirm;
     selector_cache := VDict ∅;
     selector_cache_file := fresh_cache_file |}.

(** The same page without its "preview and publish" button. *)
Definition page_without_preview : list pystr := [ title_locator; editor_locator ].

Definition session_without_preview : session (list pystr) :=
  {| s_driver := page_without_preview; s_cache := VDict ∅;
     s_file := fresh_cache_file |}.

(** A page on which only the locator ["b"] resolves, and a cache that
    already maps the role key ["k"] to it. *)
Definition session_with_cached_b : session (list pystr) :=
  {| s_driver := [u "b"]; s_cache := VDict {[ u "k" := VStr (u "b") ]};
     s_file := fresh_cache_file |}.

(** The same page with an empty cache and a cache file that cannot be
    written. *)
Definition readonly_cache_file : file := {| f_state := Absent; f_writable := false |}.

Definition session_with_readonly_cache : session (list pystr) :=
  {| s_driver := [u "b"]; s_cache := VDict ∅; s_file := readonly_cache_file |}.

(** The example of the specification: ["标题：Foo\n\nBar\nBaz"]. *)
Definition sample_text : pystr :=
  marker_fullwidth ++ u "Foo" ++ [newline; newline] ++ u "Bar" ++ newline :: u "Baz".

(** A line holding the marker and nothing else. *)
Definition marker_only_text : pystr := marker_fullwidth ++ newline :: u "abc".

(** The enumeration order used in the examples: insertion order. *)
#[export] Instance insertion_order : SetOrder :=
  {| set_order s := s; set_order_perm s := reflexivity s |}.

(** A record file that holds ["a"], to which ["b"] is added twice. *)
Definition records_a : file :=
  {| f_state := Json (VList [VStr (u "a")]); f_writable := true |}.

(** The same file, read-only. *)
Definition records_a_readonly : file :=
  {| f_state := Json (VList [VStr (u "a")]); f_writable := false |}.

(** Services that follow a script: the text service always returns
    [sample_text]; the image service answers from a list of outcomes and
    fails once the list is used up; article files always hold the same
    article. *)
#[export] Instance scripted_services : Services (list (option pystr)) := {|
  call_deepseek_api e _ _ := (Ret sample_text, e);
  generate_cover_image e _ _ :=
    match e with
    | [] => (None, [])
    | outcome :: rest => (outcome, rest)
    end;
  save_article_to_file e _ _ _ := (true, e);
  extract_article e _ := (Ret (Some (u "Foo", u "<p>Bar</p>", u "Bar")), e);
  markdown_to_html text := text
|}.

(** A publisher whose calls succeed or raise as a list says. *)
#[export] Instance scripted_publisher : Publisher (list bool) := {|
  publisher_publish p _ _ _ _ :=
    match p with
    | [] => (false, [])
    | ok :: rest => (ok, rest)
    end
|}.

Definition entry (url : pystr) : work_item :=
  {| item_title := Some (u "topic"); item_url := Some url |}.

Definition sample_config : publish_config :=
  {| cover_mode := literal_generate; publish_delay := 900 |}.

Definition cover_png : pystr := u "covers/cover.png".

(** The cover is generated at the first attempt and [publish] raises. *)
Definition world_failing_publish : world (list (option pystr)) (list bool) :=
  {| services := [Some cover_png]; publisher := [false];
     records_file := {| f_state := Absent; f_writable := true |};
     files := ∅; undeletable := ∅ |}.


(** The image service fails at every attempt. *)
Definition world_without_cover : world (list (option pystr)) (list bool) :=
  {| services := []; publisher := [true];
     records_file := {| f_state := Absent; f_writable := true |};
     files := ∅; undeletable := ∅ |}.


(** The record file lists the entry ["b"]. *)
Definition world_with_b_published : world (list (option pystr)) (list bool) :=
  {| services := []; publisher := [];
     records_file := {| f_state := Json (VList [VStr (u "b")]); f_writable := true |};
     files := ∅; undeletable := ∅ |}.

End Examples.

(** ** The attempts of a lookup                                             *)

Module LookupSpec.

(** The locator an event waits for, when the event is a wait of the
    driver. *)
Definition probed (e : event) : option pystr :=
  match e with
  | Driver (WaitUntil _ _ _ locator) _ => Some locator
  | _ => None
  end.

Definition is_probe (e : event) : bool :=
  match probed e with
  | Some _ => true
  | None => false
  end.

(** A page on which only the locator ["b"] resolves, once the lookup of
    ["k"] among ["a"; "b"], started with an empty cache and no cache file,
    has stored ["b"]. *)
Definition session_on_b_learnt : session (list pystr) :=
  {| s_driver := [u "b"];
     s_cache := VDict (<[ u "k" := VStr (u "b") ]> ∅);
     s_file := {| f_state := Json (VDict (<[ u "k" := VStr (u "b") ]> ∅));
                  f_writable := true |} |}.

End LookupSpec.

(** ** Counting what a run does                                             *)

Module RunSpec.

(** A call of [publisher.publish]; one that returned. *)
Definition is_publish (e : event) : bool :=
  match e with
  | Publish _ _ _ _ => true
  | _ => false
  end.

Definition is_published (e : event) : bool :=
  match e with
  | Publish _ _ _ ok => ok
  | _ => false
  end.

(** A write, tried or done, of the record file. *)
Definition is_record_write (e : event) : bool :=
  match e with
  | WriteRecords _ _ => true
  | _ => false
  end.

(** The events of a run that only generates articles: log records,
    sleeps, calls of the text service and saved article files. *)
Definition offline (e : event) : bool :=
  match e with
  | Log _ _ | Sleep _ | GenerateText _ _ | SaveArticle _ _ _ => true
  | _ => false
  end.

(** A record file that can be read and written, and the set it holds. *)
Definition holds (f : file) (s : pyset) : Prop :=
  f_writable f = true /\ exists t, load_published_records f = (Ret s, f, t).

(** Services whose requests all fail: the text service returns the empty
    string and no cover is generated. *)
#[export] Instance failing_services : Services unit := {|
  call_deepseek_api e _ _ := (Ret [], e);
  generate_cover_image e _ _ := (None, e);
  save_article_to_file e _ _ _ := (false, e);
  extract_article e _ := (Ret None, e);
  markdown_to_html text := text
|}.

(** A text service whose good replies run out: it returns [sample_text] as
    many times as its state says; after that its reply has no
    ["content"], and [call_deepseek_api] raises [KeyError].  Every cover is
    generated, at the same path; article files are not UTF-8. *)
#[export] Instance replies_left : Services nat := {|
  call_deepseek_api e _ _ :=
    match e with
    | O => (Raise KeyError, O)
    | S k => (Ret Examples.sample_text, k)
    end;
  generate_cover_image e _ _ := (Some Examples.cover_png, e);
  save_article_to_file e _ _ _ := (true, e);
  extract_article e _ := (Raise UnicodeDecodeError, e);
  markdown_to_html text := text
|}.

(** One good reply is left, and [publish] returns. *)
Definition world_one_reply : world nat (list bool) :=
  {| services := 1; publisher := [true; true];
     records_file := {| f_state := Absent; f_writable := true |};
     files := ∅; undeletable := ∅ |}.

Definition world_offline : world unit (list bool) :=
  {| services := tt; publisher := [true];
     records_file := {| f_state := Absent; f_writable := true |};
     files := ∅; undeletable := ∅ |}.

End RunSpec.

(* ===================================================================== *)
(** ** More Python string methods                                           *)
(* ===================================================================== *)

Module PyText.

(** [s.endswith(p)] *)
Definition endswith (p s : pystr) : bool := startswith (rev p) (rev s).

(** [c in chars] *)
Definition among (chars : pystr) (c : N) : bool := existsb (N.eqb c) chars.

(** [s.lstrip(chars)], [s.rstrip(chars)] and [s.strip(chars)]: the code
    points of [chars] are dropped from the ends. *)
Fixpoint lstrip_chars (chars s : pystr) : pystr :=
  match s with
  | [] => []
  | c :: r => if among chars c then lstrip_chars chars r else s
  end.

Definition rstrip_chars (chars s : pystr) : pystr := rev (lstrip_chars chars (rev s)).

Definition strip_chars (chars s : pystr) : pystr :=
  rstrip_chars chars (lstrip_chars chars s).

(** [s.replace(old, new)] for a non-empty [old]: the occurrences of [old]
    are found from left to right, without overlap.  [skip] counts the code
    points of a match that are still to be passed over. *)
Fixpoint replace_from (old new : pystr) (skip : nat) (s : pystr) : pystr :=
  match s with
  | [] => []
  | c :: r =>
      match skip with
      | S k => replace_from old new k r
      | O => if startswith old s then new ++ replace_from old new (length old - 1) r
             else c :: replace_from old new 0 r
      end
  end.

Definition replace (old new s : pystr) : pystr := replace_from old new 0 s.

(** [s.split(sep)] for a non-empty [sep]: never empty; the separators are
    found from left to right, without overlap. *)
Fixpoint split_from (sep : pystr) (skip : nat) (s : pystr) : list pystr :=
  match s with
  | [] => [[]]
  | c :: r =>
      match skip with
      | S k => split_from sep k r
      | O => if startswith sep s then [] :: split_from sep (length sep - 1) r
             else match split_from sep 0 r with
                  | [] => [[c]]
                  | piece :: pieces => (c :: piece) :: pieces
                  end
      end
  end.

Definition split (sep s : pystr) : list pystr := split_from sep 0 s.

(** The line boundaries of [str.splitlines]: LF, CR, VT, FF, FS, GS, RS,
    NEL, LS and PS. *)
Definition is_linebreak (c : N) : bool :=
  ((c =? 10) || (c =? 13) || (c =? 11) || (c =? 12) || (c =? 28) || (c =? 29)
   || (c =? 30) || (c =? 133) || (c =? 8232) || (c =? 8233))%N.

(** [s.splitlines()]: CR LF counts as one boundary, and a boundary at the
    end opens no further line.  [after_cr] tells that the code point before
    was a CR. *)
Fixpoint splitlines_from (after_cr : bool) (s : pystr) : list pystr :=
  match s with
  | [] => []
  | c :: r =>
      if after_cr && (c =? 10)%N then splitlines_from false r
      else if is_linebreak c then [] :: splitlines_from (c =? 13)%N r
      else match splitlines_from false r with
           | [] => [[c]]
           | line :: lines => (c :: line) :: lines
           end
  end.

Definition splitlines (s : pystr) : list pystr := splitlines_from false s.

(** The part of [s] before the first [c], and whether [c] occurs. *)
Fixpoint before (c : N) (s : pystr) : pystr :=
  match s with
  | [] => []
  | x :: r => if (x =? c)%N then [] else x :: before c r
  end.

(** The part of [s] after the first [c], when [c] occurs. *)
Fixpoint after (c : N) (s : pystr) : option pystr :=
  match s with
  | [] => None
  | x :: r => if (x =? c)%N then Some r else after c r
  end.

Definition slash : N := 47.
Definition dot : N := 46.

(** [os.path.basename(p)] of posixpath: what follows the last slash. *)
Definition basename (p : pystr) : pystr := rev (before slash (rev p)).

(** [os.path.splitext(name)[0]] for a [name] without slash: the name up to
    its last dot, unless nothing but dots comes before that dot. *)
Definition splitext_root (name : pystr) : pystr :=
  match after dot (rev name) with
  | Some root_rev =>
      if forallb (N.eqb dot) root_rev then name else rev root_rev
  | None => name
  end.

End PyText.
Export PyText.

(* ===================================================================== *)
(** ** publisher.py: from Markdown files to articles                        *)
(* ===================================================================== *)

Module Markdown.

Definition blank_line : pystr := [newline; newline].

(** One block of [markdown_to_html], stripped and not empty. *)
Definition render_block (stripped : pystr) : pystr :=
  if startswith (u "### ") stripped then
    u "<h3>" ++ strip (drop 4 stripped) ++ u "</h3>"
  else if startswith (u "## ") stripped then
    u "<h2>" ++ strip (drop 3 stripped) ++ u "</h2>"
  else if startswith (u "# ") stripped then
    u "<h1>" ++ strip (drop 2 stripped) ++ u "</h1>"
  else if startswith (u ">") stripped then
    u "<blockquote>" ++ strip (lstrip_chars (u "> ") stripped) ++ u "</blockquote>"
  else if startswith (u "**") stripped && endswith (u "**") stripped then
    u "<strong>" ++ strip_chars (u "*") stripped ++ u "</strong>"
  else
    let safe_block := replace [newline] (u "<br>") stripped in
    u "<p>" ++ safe_block ++ u "</p>".

(** The loop [for block in markdown_text.split("\n\n")]. *)
Fixpoint html_parts (blocks : list pystr) : list pystr :=
  match blocks with
  | [] => []
  | block :: rest =>
      let stripped := strip block in
      if negb (nonempty stripped) then html_parts rest
      else render_block stripped :: html_parts rest
  end.

Definition markdown_to_html (markdown_text : pystr) : pystr :=
  join_nl (html_parts (split blank_line markdown_text)).

End Markdown.

Module Articles.

(** The records that the functions below log or print. *)
Inductive notice :=
| ArticleReadFailed (file_path : pystr)
| ArticleEmpty (file_path : pystr)
| HotSearchesMissing
| HotSearchesBadFormat
| HotSearchesReadFailed.

Inductive report :=
| Logged (lvl : level) (m : notice).

(** What [open(path, "r", encoding="utf-8")] and [read()] give: [open]
    raises [OSError], the bytes are not UTF-8, or [read()] returns the text
    [content] (the text of the file, its line ends translated to line
    feeds). *)
Inductive text_file :=
| Unopenable
| Garbled
| Text (content : pystr).

Definition hash : N := 35.

(** The loop [for line in lines] of [extract_article]: the first line that,
    once stripped, starts with ["#"] gives the title; the other lines are
    the body. *)
Fixpoint heading_scan (title : option pystr) (lines : list pystr)
  : option pystr * list pystr :=
  match lines with
  | [] => (title, [])
  | line :: rest =>
      let stripped := strip line in
      if match title with None => true | Some _ => false end
         && startswith [hash] stripped
      then heading_scan (Some (strip (lstrip_chars [hash] stripped))) rest
      else
        let '(title, body_lines) := heading_scan title rest in
        (title, line :: body_lines)
  end.

Definition extract_article (file : text_file) (file_path : pystr)
  : outcome (option (pystr * pystr * pystr)) * list report :=
  match file with
  | Unopenable => (Ret None, [Logged ERROR (ArticleReadFailed file_path)])
  | Garbled => (Raise UnicodeDecodeError, [])
  | Text content =>
      let raw := strip content in
      if negb (nonempty raw) then (Ret None, [Logged WARNING (ArticleEmpty file_path)])
      else
        let '(title, body_lines) := heading_scan None (splitlines raw) in
        let title :=
          if Shaping.not_title title then splitext_root (basename file_path)
          else default [] title in
        let body := strip (join_nl body_lines) in
        let body := if nonempty body then body else raw in
        (Ret (Some (title, Markdown.markdown_to_html body, raw)), [])
  end.

(** utils.py, [save_article_to_file]: the text it writes to the file, the
    heading line first when [title] is given and not empty. *)
Definition article_text (title : option pystr) (article_content : pystr) : pystr :=
  (if Shaping.not_title title then []
   else u "# " ++ default [] title ++ [newline; newline]) ++ article_content.

(** The file-name part that [save_article_to_file] and
    [generate_cover_image] make of a topic or title.  [isalnum] is
    [str.isalnum] on one code point. *)
Definition safe_name (isalnum : N -> bool) (topic : pystr) : pystr :=
  replace (u " ") (u "_")
    (strip (List.filter (fun c => isalnum c || among (u " -_") c) topic)).

(** ai_analyzer.py, [load_hot_searches]. *)
Definition load_hot_searches (f : file) : outcome (list pyval) * list report :=
  if negb (path_exists f) then (Ret [], [Logged ERROR HotSearchesMissing])
  else
    match json_load f with
    | (Ret (VList data), _, _) => (Ret data, [])
    | (Ret _, _, _) => (Ret [], [Logged ERROR HotSearchesBadFormat])
    | (Raise e, _, _) =>
        if decode_or_os_error e then (Ret [], [Logged ERROR HotSearchesReadFailed])
        else (Raise e, [])
    end.

End Articles.

(* ===================================================================== *)
(** ** hot_topic_finder.py: filtering and saving the topics                 *)
(* ===================================================================== *)

Module Crawler.

(** A topic as [fetch_hot_searches] builds it: four strings. *)
Record hot_item := {
  h_title : pystr;
  h_url : pystr;
  h_heat : pystr;
  h_rank : pystr
}.

(** The dict of a topic, as [json.dump] writes it. *)
Definition to_json (item : hot_item) : pyval :=
  VDict (<[u "title" := VStr (h_title item)]>
         (<[u "url" := VStr (h_url item)]>
          (<[u "heat" := VStr (h_heat item)]>
           (<[u "rank" := VStr (h_rank item)]> ∅)))).

(** What the crawler prints. *)
Inductive printed :=
| FilterStart
| Handling (i n : nat) (title : pystr)
| Judged (title answer : pystr)
| ApiStatus (status_code : Z)
| ApiError
| Kept (title : pystr)
| Dropped (title : pystr)
| Remaining (n : nat)
| TruncatedTo (max_count : Z)
| SavedTopics (n : nat)
| SaveFailed.

(** The answer to the request of [deepseek_political_filter]:
    [requests.post] raised, or it returned a response with a status code
    and, when the body is JSON with a string at
    [["choices"][0]["message"]["content"]], that string. *)
Inductive reply :=
| NoReply
| Reply (status_code : Z) (content : option pystr).

Class Judge (J : Type) := {
  post : J -> pystr -> reply * J
}.

(** The answer that marks a topic as political: ["是"]. *)
Definition yes : pystr := [26159]%N.

Section WithJudge.
Context {J : Type} `{Judge J}.
(** [str.lower] *)
Variable lower : pystr -> pystr.

(** [True] keeps the topic. *)
Definition deepseek_political_filter (title : pystr) (j : J)
  : bool * J * list printed :=
  match post j title with
  | (NoReply, j') => (true, j', [ApiError])
  | (Reply status_code content, j') =>
      if (status_code =? 200)%Z then
        match content with
        | Some text =>
            let answer := strip text in
            (negb (bool_decide (lower answer = yes)), j', [Judged title answer])
        | None => (true, j', [ApiError])
        end
      else (true, j', [ApiStatus status_code])
  end.

(** The loop [for i, item in enumerate(hot_searches)] of
    [filter_with_deepseek]; [n] is [len(hot_searches)]. *)
Fixpoint filter_loop (n i : nat) (hot_searches : list hot_item) (j : J)
  : list hot_item * J * list printed :=
  match hot_searches with
  | [] => ([], j, [])
  | item :: rest =>
      let title := h_title item in
      match deepseek_political_filter title j with
      | (keep, j1, t1) =>
          match filter_loop n (S i) rest j1 with
          | (filtered, j2, t2) =>
              (if keep then item :: filtered else filtered, j2,
               Handling (S i) n title :: t1 ++
               (if keep then Kept title else Dropped title) :: t2)
          end
      end
  end.

Definition filter_with_deepseek (hot_searches : list hot_item) (j : J)
  : list hot_item * J * list printed :=
  match filter_loop (length hot_searches) 0 hot_searches j with
  | (filtered_searches, j', tr) =>
      (filtered_searches, j',
       FilterStart :: tr ++ [Remaining (length filtered_searches)])
  end.

End WithJudge.

(** [save_results]: the file afterwards and what was printed; the function
    returns [json_filename] in every case. *)
Definition save_results (hot_searches : list hot_item) (max_count : Z) (f : file)
  : file * list printed :=
  let '(hot_searches, t1) :=
    if (max_count <? Z.of_nat (length hot_searches))%Z
    then (slice_to max_count hot_searches, [TruncatedTo max_count])
    else (hot_searches, []) in
  match json_dump (VList (to_json <$> hot_searches)) f with
  | (Ret _, f', _) => (f', t1 ++ [SavedTopics (length hot_searches)])
  | (Raise _, f', _) => (f', t1 ++ [SaveFailed])
  end.

End Crawler.

(* ===================================================================== *)
(** * Properties                                                            *)
(* ===================================================================== *)

(** ** Running computations                                                 *)

Module EffFacts.

Section Laws.
Context {St A : Type}.

Lemma bind_unfold {C} (c : M St A) (k : A -> M St C) s :
  bind c k s
  = match c s with
    | (Ret a, s1, t1) => match k a s1 with (r, s2, t2) => (r, s2, t1 ++ t2) end
    | (Raise e, s1, t1) => (Raise e, s1, t1)
    end.
Proof. reflexivity. Qed.

Lemma try_except_unfold (c : M St A) catches handler s :
  try_except c catches handler s
  = match c s with
    | (Ret a, s1, t1) => (Ret a, s1, t1)
    | (Raise e, s1, t1) =>
        if catches e
        then match handler e s1 with (r, s2, t2) => (r, s2, t1 ++ t2) end
        else (Raise e, s1, t1)
    end.
Proof. reflexivity. Qed.

Lemma ret_run (a : A) (s : St) : ret a s = (Ret a, s, []).
Proof. reflexivity. Qed.

Lemma raise_run e (s : St) : raise (A := A) e s = (Raise e, s, []).
Proof. reflexivity. Qed.

Lemma zoom_unfold {T} (proj : St -> T) upd (c : M T A) s :
  zoom proj upd c s = match c (proj s) with (r, t, tr) => (r, upd t s, tr) end.
Proof. reflexivity. Qed.

End Laws.

Lemma emit_run {St} e (s : St) : emit e s = (Ret tt, s, [e]).
Proof. reflexivity. Qed.

Lemma log_run {St} lvl m (s : St) : log lvl m s = (Ret tt, s, [Log lvl m]).
Proof. reflexivity. Qed.

Lemma sleep_unfold {St} q (s : St) :
  sleep q s
  = if Qle_bool 0 q then (Ret tt, s, [Sleep q]) else (Raise ValueError, s, []).
Proof. unfold sleep. by destruct (Qle_bool 0 q). Qed.

Lemma sleep_run {St} q (s : St) :
  Qle_bool 0 q = true -> sleep q s = (Ret tt, s, [Sleep q]).
Proof. intros Hq. by rewrite sleep_unfold, Hq. Qed.

Lemma get_run {St} (s : St) : get s = (Ret s, s, []).
Proof. reflexivity. Qed.

Create Rewrite HintDb run.
#[export] Hint Rewrite @bind_unfold @try_except_unfold @ret_run @raise_run
  @emit_run @log_run @get_run : run.
#[export] Hint Rewrite @sleep_run using (first [reflexivity | assumption]) : run.

(** Rewrites the running program one step at a time and reduces the
    matches that the rewriting exposed. *)
Ltac run := repeat (progress (autorewrite with run; cbv beta iota)).

(** Brings a trace to the form [e1 :: e2 :: ... ++ rest]. *)
Ltac tidy := cbn [app map]; rewrite ?app_nil_r, <- ?app_assoc; cbn [app map].

End EffFacts.
Export EffFacts.

(** ** Title and body                                                       *)

Module ShapingFacts.
Import Shaping ShapingSpec.

Lemma lstrip_nil_iff s : lstrip s = [] <-> Forall (fun c => isspace c = true) s.
Proof.
  induction s as [|c r IH]; simpl.
  - split; auto.
  - destruct (isspace c) eqn:Hc.
    + rewrite IH. split; [intros Hr; constructor; auto | intros Hs; inversion Hs; auto].
    + split; [discriminate | intros Hs; inversion Hs; congruence].
Qed.

Lemma strip_nil_iff s : strip s = [] <-> Forall (fun c => isspace c = true) s.
Proof.
  unfold strip, rstrip. split.
  - intros Hs.
    assert (Hr : lstrip (rev (lstrip s)) = []).
    { destruct (lstrip (rev (lstrip s))) as [|x xs]; [done|].
      simpl in Hs. destruct (rev xs); discriminate. }
    apply lstrip_nil_iff in Hr.
    assert (Hl : lstrip s = []).
    { destruct (lstrip s) as [|c r] eqn:Hls; [done|].
      assert (Hc : isspace c = false).
      { clear -Hls. induction s as [|d t IH]; simpl in Hls; [discriminate|].
        destruct (isspace d) eqn:Hd; [auto | congruence]. }
      apply Forall_rev in Hr. rewrite rev_involutive in Hr.
      inversion Hr; congruence. }
    by apply lstrip_nil_iff.
  - intros Hs. apply lstrip_nil_iff in Hs. by rewrite Hs.
Qed.

Lemma nonempty_false s : nonempty s = false <-> s = [].
Proof. destruct s; simpl; split; congruence. Qed.

Lemma nonempty_true s : nonempty s = true <-> s <> [].
Proof. destruct s; simpl; split; congruence. Qed.

(** Dropping a marker that occurs nowhere changes nothing. *)
Lemma remove_absent m s : occurs m s = false -> remove_all m s = s.
Proof.
  unfold remove_all. induction s as [|c r IH]; simpl; [done|].
  intros Ho. apply orb_false_iff in Ho as [Hs Hr].
  change (match m with [] => true | a :: p' => (a =? c)%N && startswith p' r end)
    with (startswith m (c :: r)).
  rewrite Hs, IH; auto.
Qed.

Lemma is_marker_not_space m c rest :
  is_marker m -> startswith m (c :: rest) = true -> isspace c = false.
Proof.
  intros [-> | ->]; unfold marker_fullwidth, marker_ascii; cbn [startswith];
    intros Hs; apply andb_true_iff in Hs as [Hc _];
    apply N.eqb_eq in Hc; subst c; reflexivity.
Qed.

Lemma is_marker_nonempty m : is_marker m -> startswith m [] = false.
Proof. by intros [-> | ->]. Qed.

Lemma blank_no_marker m rest : is_marker m -> blank rest -> occurs m rest = false.
Proof.
  intros Hm Hb. apply strip_nil_iff in Hb.
  induction Hb as [|c r Hc _ IH]; simpl.
  - by apply is_marker_nonempty.
  - rewrite IH, orb_false_r.
    destruct (startswith m (c :: r)) eqn:Hs; [|done].
    apply (is_marker_not_space m c r Hm) in Hs. congruence.
Qed.

(** The marker at the start of a line is dropped first. *)
Lemma remove_leading m rest :
  is_marker m -> remove_all m (m ++ rest) = remove_all m rest.
Proof.
  intros [-> | ->]; unfold remove_all; reflexivity.
Qed.

Lemma marker_prefix m rest :
  is_marker m ->
  (startswith marker_fullwidth (m ++ rest) = true /\ m = marker_fullwidth) \/
  (startswith marker_fullwidth (m ++ rest) = false /\
   startswith marker_ascii (m ++ rest) = true /\ m = marker_ascii).
Proof. intros [-> | ->]; [left | right]; done. Qed.

Lemma find_title_line_unmarked i lines :
  Forall unmarked lines -> find_title_line i lines = None.
Proof.
  intros Hl. revert i.
  induction Hl as [|l ls [H1 H2] _ IH]; intros i; cbn [find_title_line]; [done|].
  cbv zeta. by rewrite H1, H2.
Qed.

Lemma find_title_line_marked i before l after m rest :
  Forall unmarked before -> is_marker m -> strip l = m ++ rest ->
  find_title_line i (before ++ l :: after)
  = Some (strip (remove_all m rest), S (i + length before)).
Proof.
  intros Hb Hm Hl. revert i.
  induction Hb as [|b bs [H1 H2] _ IH]; intros i;
    cbn [find_title_line app length]; cbv zeta.
  - rewrite Hl.
    destruct (marker_prefix m rest Hm) as [[-> ->] | (-> & -> & ->)];
      rewrite remove_leading by (unfold is_marker; auto);
      by rewrite Nat.add_0_r.
  - rewrite H1, H2, IH. do 3 f_equal. lia.
Qed.

Lemma skip_blank_spec blanks rest :
  Forall blank blanks ->
  match rest with [] => True | l :: _ => ~ blank l end ->
  skip_blank (blanks ++ rest) = rest.
Proof.
  intros Hb Hr. induction Hb as [|b bs Hbl _ IH]; simpl.
  - destruct rest as [|l ls]; simpl; [done|].
    destruct (nonempty (strip l)) eqn:Hn; [done|].
    apply nonempty_false in Hn. contradiction.
  - unfold blank in Hbl. by rewrite Hbl.
Qed.

Lemma content_from_spec idx lines body :
  body_from idx lines body -> content_from idx lines = body.
Proof.
  intros (blanks & rest & Hd & Hb & Hr & ->).
  unfold content_from. by rewrite Hd, skip_blank_spec.
Qed.

(** Without a usable marker the loop leaves a title that counts as
    missing. *)
Lemma no_marked_title_find lines :
  no_marked_title lines ->
  not_title (match find_title_line 0 lines with
             | Some (t, _) => Some t
             | None => None
             end) = true.
Proof.
  intros [Hu | (before & l & after & m & rest & -> & Hb & Hm & Hl & Hr)].
  - by rewrite find_title_line_unmarked.
  - rewrite (find_title_line_marked 0 before l after m rest) by done.
    rewrite (remove_absent m rest) by by apply blank_no_marker.
    unfold blank in Hr. by rewrite Hr.
Qed.

End ShapingFacts.

Module ShapingProofs.
Import Shaping ShapingSpec ShapingFacts Examples.

Lemma not_title_some t : t <> [] -> not_title (Some t) = false.
Proof. destruct t; simpl; congruence. Qed.

(** C3 (as amended).  Whenever the reading [title_body] assigns a title and
    a body to a text, [extract_title_and_content] returns exactly them: a
    marker line gives the title when text other than blanks follows the
    marker (and the marker occurs once on the line), with the body starting
    after it; otherwise a first line of more than 5 and fewer than 50 code
    points is the title and the body starts at the second line; otherwise
    the title is the first 30 code points of the first line and the body
    starts at the first line.  Leading blank lines of the body are dropped
    in every case. *)
Theorem C3_extract_follows_reading text r :
  title_body text r -> extract_title_and_content text = r.
Proof.
  intros Hr. unfold extract_title_and_content.
  destruct Hr as [before l after m rest body Hs Hb Hm Hl Ho Hn Hbody
                 | first others body Hs Hno Hlen Hbody
                 | first others body Hs Hno Hlen Hbody].
  - rewrite Hs in *.
    rewrite (find_title_line_marked 0 before l after m rest) by done.
    rewrite (remove_absent m rest) by done.
    assert (Ht : not_title (Some (strip rest)) = false) by by apply not_title_some.
    destruct (before ++ l :: after) as [|first others] eqn:Hlines.
    { destruct before; discriminate. }
    cbv beta iota zeta. rewrite Ht. cbv beta iota zeta. rewrite Ht.
    change (0 + length before) with (length before).
    by rewrite (content_from_spec _ _ _ Hbody).
  - rewrite Hs.
    pose proof (no_marked_title_find _ Hno) as Hnt.
    destruct (find_title_line 0 (first :: others)) as [[t i]|].
    + cbv beta iota zeta. rewrite Hnt.
      assert (Hc : (5 <? length (strip first)) && (length (strip first) <? 50) = true).
      { apply andb_true_iff. split; apply Nat.ltb_lt; lia. }
      rewrite Hc.
      assert (Ht : not_title (Some (strip first)) = false).
      { apply not_title_some. intros He. rewrite He in Hlen. simpl in Hlen. lia. }
      cbv beta iota zeta. rewrite Ht. by rewrite (content_from_spec _ _ _ Hbody).
    + cbv beta iota zeta. rewrite Hnt.
      assert (Hc : (5 <? length (strip first)) && (length (strip first) <? 50) = true).
      { apply andb_true_iff. split; apply Nat.ltb_lt; lia. }
      rewrite Hc.
      assert (Ht : not_title (Some (strip first)) = false).
      { apply not_title_some. intros He. rewrite He in Hlen. simpl in Hlen. lia. }
      cbv beta iota zeta. rewrite Ht. by rewrite (content_from_spec _ _ _ Hbody).
  - rewrite Hs.
    pose proof (no_marked_title_find _ Hno) as Hnt.
    assert (Hc : (5 <? length (strip first)) && (length (strip first) <? 50) = false).
    { apply andb_false_iff.
      destruct (Nat.ltb_spec 5 (length (strip first))); [|by left].
      destruct (Nat.ltb_spec (length (strip first)) 50); [|by right]. lia. }
    destruct (find_title_line 0 (first :: others)) as [[t i]|];
      cbv beta iota zeta; rewrite Hnt, Hc, Hnt;
      by rewrite (content_from_spec _ _ _ Hbody).
Qed.

Lemma C3_extract_follows_reading_witness :
  extract_title_and_content sample_text = (Some (u "Foo"), u "Bar" ++ newline :: u "Baz").
Proof.
  apply C3_extract_follows_reading.
  apply (by_marker sample_text [] (marker_fullwidth ++ u "Foo")
           [[]; u "Bar"; u "Baz"] marker_fullwidth (u "Foo")
           (u "Bar" ++ newline :: u "Baz")).
  - reflexivity.
  - constructor.
  - left; reflexivity.
  - reflexivity.
  - reflexivity.
  - unfold blank; vm_compute; discriminate.
  - exists [[]], [u "Bar"; u "Baz"]. split; [reflexivity|]. split.
    + constructor; [reflexivity | constructor].
    + split; [unfold blank; vm_compute; discriminate | reflexivity].
Defined.

(** A line holding the marker and nothing else: the claim as stated would
    give the empty title and the body ["abc"].  The code treats the empty
    title as missing, keeps the marker line as the title (it is shorter
    than 6 code points, so the truncation branch applies) and starts the
    body at that line. *)
Lemma C3_marker_only_line_is_not_a_title :
  split_nl (strip marker_only_text) = [marker_fullwidth; u "abc"] /\
  extract_title_and_content marker_only_text = (Some marker_fullwidth, marker_only_text).
Proof. split; reflexivity. Qed.

End ShapingProofs.

(** ** The published-record file and the selector-cache file               *)

Module RecordFacts.
Import RecordSpec.

Lemma py_eqb_key x y :
  hashable x = true -> hashable y = true ->
  py_eqb x y = true <-> key x = key y.
Proof.
  destruct x as [|[]|n|s| |], y as [|[]|m|t| |]; intros Hx Hy;
    try discriminate Hx; try discriminate Hy; cbn -[Z.eqb];
    rewrite ?Z.eqb_eq, ?bool_decide_eq_true; split; congruence.
Qed.

Lemma set_mem_key x s :
  hashable x = true -> Forall (fun v => hashable v = true) s ->
  set_mem x s = true <-> key x ∈ key <$> s.
Proof.
  intros Hx Hs. unfold set_mem. rewrite existsb_exists, list_elem_of_fmap.
  split.
  - intros (y & Hy & He). exists y. split; [|by apply list_elem_of_In].
    apply py_eqb_key; auto. rewrite Forall_forall in Hs.
    by apply Hs, list_elem_of_In.
  - intros (y & He & Hy). exists y. split; [by apply list_elem_of_In|].
    apply py_eqb_key; auto. rewrite Forall_forall in Hs. by apply Hs.
Qed.

Lemma set_add_ok x s :
  hashable x = true -> pyset_ok s -> pyset_ok (set_add x s).
Proof.
  intros Hx [Hh Hn]. unfold set_add.
  destruct (set_mem x s) eqn:Hm; [done|].
  split.
  - apply Forall_app. split; [done | by constructor].
  - rewrite fmap_app. apply NoDup_app. split; [done|]. split.
    + intros k Hk Hk'. simpl in Hk'. apply list_elem_of_singleton in Hk'. subst k.
      apply set_mem_key in Hk; auto. congruence.
    + simpl. apply NoDup_singleton.
Qed.

Lemma pyset_ok_perm s l : l ≡ₚ s -> pyset_ok s -> pyset_ok l.
Proof.
  intros Hp [Hh Hn]. split.
  - by rewrite Hp.
  - by rewrite Hp.
Qed.

Section Runs.
Context {St : Type}.

(** [set(items)] reads no state and logs nothing; it keeps a well-formed
    accumulator well-formed. *)
Lemma set_of_list_run items : forall acc (s0 : St),
  (exists s, set_of_list items acc s0 = (Ret s, s0, []) /\
             (pyset_ok acc -> pyset_ok s)) \/
  set_of_list items acc s0 = (Raise TypeError, s0, []).
Proof.
  induction items as [|x rest IH]; intros acc s0; simpl.
  - left. eexists. split; [reflexivity | done].
  - unfold bind, set_insert. destruct (hashable x) eqn:Hx.
    + unfold ret at 1. simpl.
      destruct (IH (set_add x acc) s0) as [(s & Hs & Hok) | Hr].
      * left. exists s. rewrite Hs. split; [done|].
        intros Ha. by apply Hok, set_add_ok.
      * right. by rewrite Hr.
    + simpl. by right.
Qed.

(** On a well-formed set written out as a list, [set(...)] gives the
    members back in the same order. *)
Lemma set_of_list_id items : forall acc (s0 : St),
  pyset_ok (acc ++ items) ->
  set_of_list items acc s0 = (Ret (acc ++ items), s0, []).
Proof.
  induction items as [|x rest IH]; intros acc s0 Hok; simpl.
  - by rewrite app_nil_r.
  - destruct Hok as [Hh Hn].
    assert (Hx : hashable x = true).
    { apply Forall_app in Hh as [_ Hh]. by inversion Hh. }
    unfold bind, set_insert. rewrite Hx. unfold ret at 1.
    assert (Hm : set_mem x acc = false).
    { destruct (set_mem x acc) eqn:Hm; [|done].
      apply set_mem_key in Hm; [|done|by apply Forall_app in Hh as [? _]].
      rewrite fmap_app in Hn. apply NoDup_app in Hn as (_ & Hd & _).
      exfalso. apply (Hd _ Hm). simpl. left. }
    unfold set_add. rewrite Hm.
    rewrite (IH (acc ++ [x]) s0).
    + by rewrite <- app_assoc.
    + rewrite <- app_assoc. by split.
Qed.

End Runs.

(** Reading never changes the file; what it returns is a well-formed set,
    and all it logs is warnings. *)
Lemma json_load_run f :
  json_load f
  = match f_state f with
    | Absent | Unreadable => (Raise OSError, f, [])
    | Undecodable => (Raise UnicodeDecodeError, f, [])
    | NotJson => (Raise JSONDecodeError, f, [])
    | Json v => (Ret v, f, [])
    end.
Proof. reflexivity. Qed.

Lemma load_published_records_run f :
  exists r t, load_published_records f = (r, f, t) /\
              (forall s, r = Ret s -> pyset_ok s) /\
              Forall (fun e => is_log WARNING e = true) t.
Proof.
  assert (Hnil : pyset_ok []) by (split; constructor).
  assert (Hset : forall l (s0 : file),
            exists r, set_of_list l [] s0 = (r, s0, []) /\
                      forall s, r = Ret s -> pyset_ok s).
  { intros l s0. destruct (set_of_list_run l [] s0) as [(s & Hs & Hok) | Hr].
    - exists (Ret s). split; [done|]. intros s' [= <-]. auto.
    - exists (Raise TypeError). split; [done | discriminate]. }
  unfold load_published_records.
  destruct f as [st wr].
  destruct st as [| | | |v];
    repeat (run; rewrite ?json_load_run;
            cbn [f_state path_exists negb decode_or_os_error]);
    try (do 2 eexists; split; [reflexivity|];
         split; [first [discriminate | by intros s [= <-]] | (cbn [app]; repeat constructor)]).
  destruct v as [|b|n|s|l|d]; run;
    try (do 2 eexists; split; [reflexivity|];
         split; [first [discriminate | by intros s' [= <-]] | (cbn [app]; repeat constructor)]).
  - destruct (Hset l {| f_state := Json (VList l); f_writable := wr |})
      as (r & -> & Hok).
    destruct r as [s|e]; [|destruct e]; cbn [decode_or_os_error];
      do 2 eexists; (split; [reflexivity|]); (split; [first [by intros ? [= <-] | apply Hok | done] | (cbn [app]; repeat constructor)]).
  - destruct (d !! urls_key) as [urls|]; run;
      [|do 2 eexists; split; [reflexivity|];
        split; [by intros s' [= <-] | (cbn [app]; repeat constructor)]].
    unfold iterate.
    destruct urls as [|b|n|s|l|d']; run; cbn [decode_or_os_error];
      try (do 2 eexists; split; [reflexivity|];
           split; [discriminate | (cbn [app]; repeat constructor)]);
      match goal with
      | |- context [set_of_list ?l [] ?s0] =>
          destruct (Hset l s0) as (r & -> & Hok)
      end;
      (destruct r as [s'|e]; [|destruct e]); cbn [decode_or_os_error];
      do 2 eexists; (split; [reflexivity|]); (split; [first [by intros ? [= <-] | apply Hok | done] | (cbn [app]; repeat constructor)]).
Qed.

(** Reading back an array that holds a well-formed set. *)
Lemma load_written l wr :
  pyset_ok l ->
  load_published_records {| f_state := Json (VList l); f_writable := wr |}
  = (Ret l, {| f_state := Json (VList l); f_writable := wr |}, []).
Proof.
  intros Hok. unfold load_published_records, bind, get, try_except, json_load.
  simpl. by rewrite (set_of_list_id l []).
Qed.

Lemma occurrences_member x l :
  hashable x = true -> Forall (fun v => hashable v = true) l ->
  NoDup (key <$> l) -> x ∈ l -> occurrences x l = 1.
Proof.
  intros Hx Hh Hn Hin. unfold occurrences.
  induction l as [|y r IH]; [by apply elem_of_nil in Hin|].
  inversion Hh as [|? ? Hy Hr]; subst.
  simpl in Hn. apply NoDup_cons in Hn as [Hny Hnr].
  simpl. destruct (py_eqb x y) eqn:He.
  - simpl. f_equal. apply py_eqb_key in He; auto.
    assert (Hnone : forall z, z ∈ r -> py_eqb x z = false).
    { intros z Hz. destruct (py_eqb x z) eqn:Hxz; [|done].
      apply py_eqb_key in Hxz; auto.
      - exfalso. apply Hny. rewrite <- He, Hxz. by apply list_elem_of_fmap_2.
      - rewrite Forall_forall in Hr. by apply Hr. }
    clear -Hnone. induction r as [|z r IH]; [done|].
    simpl. rewrite Hnone by left. apply IH. intros w Hw. apply Hnone. by right.
  - apply IH; auto. apply elem_of_cons in Hin as [-> | Hin]; [|done].
    assert (py_eqb y y = true) by (apply py_eqb_key; auto). congruence.
Qed.

Lemma set_add_member x s : hashable x = true -> pyset_ok s ->
  exists y, y ∈ set_add x s /\ key y = key x.
Proof.
  intros Hx [Hh _]. unfold set_add. destruct (set_mem x s) eqn:Hm.
  - apply set_mem_key in Hm; auto. apply list_elem_of_fmap in Hm as (y & He & Hy).
    by exists y.
  - exists x. split; [|done]. apply elem_of_app. right. left.
Qed.

End RecordFacts.

Module RecordProofs.
Import RecordSpec RecordFacts Examples.

Lemma key_str_inv y url : key y = VStr url -> y = VStr url.
Proof. destruct y as [|[]| | | |]; simpl; congruence. Qed.

(** C8 (as amended).  Take any identifier and any state of the record file
    that [load_published_records] reads as a set [s].  If the file can be
    opened for writing, [save_published_record] writes back a JSON array
    holding exactly the members of [s] and the identifier, and a second
    call with the same identifier rewrites the same members: the identifier
    occurs exactly once.  If the file cannot be opened for writing, the
    call logs a warning and leaves the file as it was. *)
Theorem C8_save_is_read_merge_write `{SetOrder} (url : pystr) (f f0 : file)
    (s : pyset) (t0 : list event) :
  load_published_records f = (Ret s, f0, t0) ->
  (f_writable f = true ->
   exists l1 l2,
     save_published_record url f
     = (Ret tt, {| f_state := Json (VList l1); f_writable := true |},
        t0 ++ [WriteRecords url true; Log DEBUG (RecordSaved url)]) /\
     l1 ≡ₚ set_add (VStr url) s /\
     save_published_record url {| f_state := Json (VList l1); f_writable := true |}
     = (Ret tt, {| f_state := Json (VList l2); f_writable := true |},
        [WriteRecords url true; Log DEBUG (RecordSaved url)]) /\
     l2 ≡ₚ l1 /\
     occurrences (VStr url) l2 = 1) /\
  (f_writable f = false ->
   save_published_record url f
   = (Ret tt, f, t0 ++ [WriteRecords url false; Log WARNING RecordSaveFailed])).
Proof.
  intros Hload.
  destruct (load_published_records_run f) as (r & t & Hrun & Hok & _).
  rewrite Hrun in Hload. injection Hload as -> <- ->.
  specialize (Hok s eq_refl).
  assert (Hadd : pyset_ok (set_add (VStr url) s)) by by apply set_add_ok.
  assert (Hsave : forall g sg tg,
            load_published_records g = (Ret sg, g, tg) ->
            save_published_record url g
            = if f_writable g
              then (Ret tt, {| f_state := Json (VList (set_order (set_add (VStr url) sg)));
                               f_writable := true |},
                    tg ++ [WriteRecords url true; Log DEBUG (RecordSaved url)])
              else (Ret tt, g, tg ++ [WriteRecords url false; Log WARNING RecordSaveFailed])).
  { intros g sg tg Hg. unfold save_published_record, bind at 1. rewrite Hg.
    unfold set_insert, bind, try_except, json_dump, ret, emit, log. simpl.
    by destruct (f_writable g). }
  split.
  - intros Hw.
    set (l1 := set_order (set_add (VStr url) s)).
    assert (Hp1 : l1 ≡ₚ set_add (VStr url) s) by apply set_order_perm.
    assert (Hok1 : pyset_ok l1) by by apply (pyset_ok_perm _ _ Hp1).
    assert (Hin : VStr url ∈ l1).
    { rewrite Hp1. destruct (set_add_member (VStr url) s eq_refl Hok) as (y & Hy & Hk).
      apply key_str_inv in Hk. by subst y. }
    assert (Hmem : set_mem (VStr url) l1 = true).
    { apply set_mem_key; [done | apply Hok1 |]. by apply (list_elem_of_fmap_2 key) in Hin. }
    exists l1, (set_order l1). split; [|split; [done|split; [|split]]].
    + rewrite (Hsave f s t0) by done. by rewrite Hw.
    + rewrite (Hsave _ l1 []) by by apply load_written.
      simpl. unfold set_add. by rewrite Hmem.
    + apply set_order_perm.
    + destruct Hok1 as [Hh Hn].
      apply occurrences_member; [done | | |].
      * by rewrite (set_order_perm l1).
      * by rewrite (set_order_perm l1).
      * by rewrite (set_order_perm l1).
  - intros Hw. rewrite (Hsave f s t0) by done. by rewrite Hw.
Qed.

Lemma C8_save_is_read_merge_write_witness :
  exists l1 l2,
    save_published_record (u "b") records_a
    = (Ret tt, {| f_state := Json (VList l1); f_writable := true |},
       [] ++ [WriteRecords (u "b") true; Log DEBUG (RecordSaved (u "b"))]) /\
    l1 ≡ₚ set_add (VStr (u "b")) [VStr (u "a")] /\
    save_published_record (u "b") {| f_state := Json (VList l1); f_writable := true |}
    = (Ret tt, {| f_state := Json (VList l2); f_writable := true |},
       [WriteRecords (u "b") true; Log DEBUG (RecordSaved (u "b"))]) /\
    l2 ≡ₚ l1 /\
    occurrences (VStr (u "b")) l2 = 1.
Proof.
  exact (proj1 (C8_save_is_read_merge_write (u "b") records_a records_a
                  [VStr (u "a")] [] eq_refl) eq_refl).
Defined.

(** The same file, read-only: after two calls the persisted set is still
    [{"a"}], with no occurrence of ["b"], and each call logged a warning. *)
Lemma C8_readonly_file_keeps_no_record :
  (save_published_record (u "b") ;; save_published_record (u "b")) records_a_readonly
  = (Ret tt, records_a_readonly,
     [WriteRecords (u "b") false; Log WARNING RecordSaveFailed;
      WriteRecords (u "b") false; Log WARNING RecordSaveFailed]) /\
  load_published_records records_a_readonly
  = (Ret [VStr (u "a")], records_a_readonly, []) /\
  occurrences (VStr (u "b")) [VStr (u "a")] = 0.
Proof. repeat split; reflexivity. Qed.

(** C9 (as amended).  A missing file gives the empty set and the empty
    mapping with no log record at all.  A file that cannot be opened or is
    not JSON gives them after one WARNING; so does, for the selector cache,
    a file that is not UTF-8 or holds [null], a boolean or a number, and,
    for the records, JSON that is neither an array nor an object with a
    [urls] member.  Neither function raises in any of these cases. *)
Theorem C9_loads_degrade_to_empty (f : file) :
  match f_state f with
  | Absent =>
      load_published_records f = (Ret [], f, []) /\
      load_selector_cache f = (Ret (VDict ∅), f, [])
  | Unreadable | NotJson =>
      load_published_records f = (Ret [], f, [Log WARNING RecordsReadFailed]) /\
      load_selector_cache f = (Ret (VDict ∅), f, [Log WARNING CacheLoadFailed])
  | Undecodable =>
      load_selector_cache f = (Ret (VDict ∅), f, [Log WARNING CacheLoadFailed])
  | Json (VNone | VBool _ | VInt _) =>
      load_published_records f = (Ret [], f, [Log WARNING RecordsBadFormat]) /\
      load_selector_cache f = (Ret (VDict ∅), f, [Log WARNING CacheLoadFailed])
  | Json (VStr _) =>
      load_published_records f = (Ret [], f, [Log WARNING RecordsBadFormat])
  | Json (VDict d) =>
      match d !! urls_key with
      | None => load_published_records f = (Ret [], f, [Log WARNING RecordsBadFormat])
      | Some _ => True
      end
  | Json (VList _) => True
  end.
Proof.
  destruct f as [st wr]. destruct st as [| | | |v]; simpl; try (split; reflexivity);
    try reflexivity.
  destruct v as [|b|n|s|l|d]; try (split; reflexivity); try reflexivity; try exact I.
  unfold load_published_records, bind, get, try_except, json_load. simpl.
  by destruct (d !! urls_key).
Qed.

(** On a missing file both loaders return the empty value without logging
    anything: the trace is empty, so no warning precedes the result. *)
Lemma C9_missing_file_logs_nothing :
  load_published_records {| f_state := Absent; f_writable := true |}
  = (Ret [], {| f_state := Absent; f_writable := true |}, []) /\
  load_selector_cache {| f_state := Absent; f_writable := true |}
  = (Ret (VDict ∅), {| f_state := Absent; f_writable := true |}, []).
Proof. split; reflexivity. Qed.

End RecordProofs.

(** ** Element lookup through the selector cache                            *)

Module SelectorFacts.
Import SelectorSpec.

Section WithBrowser.
Context {B : Type} `{Browser B}.

Lemma wait_for_run timeout clickable how locator (s : session B) :
  wait_for timeout clickable how locator s
  = match wait_until (s_driver s) timeout clickable how locator with
    | (Some el, b') =>
        (Ret el, {| s_driver := b'; s_cache := s_cache s; s_file := s_file s |},
         [Driver (WaitUntil timeout clickable how locator) true])
    | (None, b') =>
        (Raise WebDriverException,
         {| s_driver := b'; s_cache := s_cache s; s_file := s_file s |},
         [Driver (WaitUntil timeout clickable how locator) false])
    end.
Proof.
  unfold wait_for, locate, on_driver, zoom.
  by destruct (wait_until (s_driver s) timeout clickable how locator) as [[el|] b'].
Qed.

Lemma save_selector_cache_run d f :
  save_selector_cache d f = (Ret tt, saved_file d f, save_events d f).
Proof.
  unfold save_selector_cache, saved_file, save_events, try_except, bind, json_dump,
    emit, log. simpl. by destruct (f_writable f).
Qed.

Lemma on_file_save_run d (s : session B) :
  on_file (save_selector_cache d) s
  = (Ret tt, {| s_driver := s_driver s; s_cache := s_cache s;
                s_file := saved_file d (s_file s) |}, save_events d (s_file s)).
Proof. unfold on_file. by rewrite zoom_unfold, save_selector_cache_run. Qed.

Lemma cache_get_run cache_key b d f :
  cache_get cache_key ({| s_driver := b; s_cache := VDict d; s_file := f |} : session B)
  = (Ret (default VNone (d !! cache_key)),
     {| s_driver := b; s_cache := VDict d; s_file := f |}, []).
Proof. reflexivity. Qed.

Lemma cache_set_run cache_key selector b d f :
  cache_set cache_key selector
    ({| s_driver := b; s_cache := VDict d; s_file := f |} : session B)
  = (Ret (<[cache_key := VStr selector]> d),
     {| s_driver := b; s_cache := VDict (<[cache_key := VStr selector]> d);
        s_file := f |}, []).
Proof. reflexivity. Qed.

#[local] Hint Rewrite wait_for_run on_file_save_run cache_get_run cache_set_run : run.

(** The loop over the candidates follows [scan]. *)
Lemma try_selectors_scan cache_key timeout clickable d f selectors : forall b,
  exists failed r b',
    scan timeout clickable b selectors failed r b' /\
    try_selectors cache_key selectors timeout clickable
      {| s_driver := b; s_cache := VDict d; s_file := f |}
    = (Ret r, after_scan cache_key d f r b',
       scan_events timeout clickable cache_key d f failed r).
Proof.
  induction selectors as [|selector rest IH]; intros b.
  - exists [], None, b. split; [constructor | reflexivity].
  - cbn [try_selectors]. run. cbn [s_driver s_cache s_file].
    destruct (wait_until b timeout clickable XPATH selector) as [[el|] b1] eqn:Hw.
    + exists [], (Some (el, selector)), b1. split; [by constructor|].
      run. cbn [s_driver s_cache s_file].
      unfold scan_events, after_scan, probe. by tidy.
    + destruct (IH b1) as (failed & r & b' & Hscan & Hrun).
      exists (selector :: failed), r, b'. split; [by econstructor|].
      run. cbn [any_exception]. run. rewrite Hrun.
      unfold scan_events. by tidy.
Qed.

Lemma in_selectors_str selector selectors :
  in_selectors (VStr selector) selectors = true <-> selector ∈ selectors.
Proof.
  unfold in_selectors. rewrite existsb_exists. split.
  - intros (x & Hx & He). simpl in He. apply bool_decide_eq_true in He.
    subst. by apply list_elem_of_In.
  - intros Hin. exists selector. split; [by apply list_elem_of_In|].
    simpl. by apply bool_decide_eq_true.
Qed.

Lemma in_selectors_other v selectors :
  (forall selector, v <> VStr selector) -> in_selectors v selectors = false.
Proof.
  intros Hv. unfold in_selectors.
  induction selectors as [|x rest IH]; [done|].
  simpl. rewrite IH, orb_false_r.
  destruct v as [|[]| | | |]; try done. by destruct (Hv s).
Qed.

Lemma scan_order timeout clickable b selectors failed r b' :
  scan timeout clickable b selectors failed r b' ->
  match r with
  | Some (_, selector) => exists rest, selectors = failed ++ selector :: rest
  | None => failed = selectors
  end.
Proof.
  induction 1 as [b | b selector rest el b' Hw
                 | b selector rest b1 failed r b' Hw Hscan IH].
  - done.
  - by exists rest.
  - destruct r as [[el selector']|].
    + destruct IH as [rest' ->]. by exists rest'.
    + by rewrite IH.
Qed.

Lemma cached_candidate_test d cache_key selectors :
  let v := default VNone (d !! cache_key) in
  truthy v && in_selectors v selectors
  = match cached_candidate d cache_key selectors with
    | Some _ => true
    | None => false
    end.
Proof.
  unfold cached_candidate. destruct (d !! cache_key) as [v|]; simpl; [|done].
  destruct v as [|[]|n|s|l|m]; simpl;
    rewrite ?in_selectors_other by congruence; rewrite ?andb_false_r; try done.
  destruct (nonempty s); simpl; [|done].
  destruct (in_selectors (VStr s) selectors) eqn:Hin.
  - apply in_selectors_str in Hin. by rewrite bool_decide_eq_true_2.
  - rewrite bool_decide_eq_false_2; [done|]. intros Hin'.
    apply in_selectors_str in Hin'. congruence.
Qed.

Lemma cached_candidate_text d cache_key selectors selector :
  cached_candidate d cache_key selectors = Some selector ->
  d !! cache_key = Some (VStr selector) /\ selector ∈ selectors /\
  selector_text (default VNone (d !! cache_key)) = selector.
Proof.
  unfold cached_candidate. destruct (d !! cache_key) as [[|[]|n|s|l|m]|]; try done.
  destruct (nonempty s); simpl; [|done].
  case_bool_decide; [|done]. by intros [= ->].
Qed.

Lemma find_element_with_cache_run cache_key selectors timeout clickable (b : B) d f :
  find_element_with_cache cache_key selectors timeout clickable
    {| s_driver := b; s_cache := VDict d; s_file := f |}
  = match cached_candidate d cache_key selectors with
    | Some selector =>
        match wait_until b timeout clickable XPATH selector with
        | (Some el, b') =>
            (Ret (Some (el, selector)),
             {| s_driver := b'; s_cache := VDict d; s_file := f |},
             [probe timeout clickable selector true;
              Log DEBUG (CachedSelectorUsed cache_key)])
        | (None, b1) =>
            match try_selectors cache_key selectors timeout clickable
                    {| s_driver := b1; s_cache := VDict d; s_file := f |} with
            | (r, s', tr) =>
                (r, s', probe timeout clickable selector false
                        :: Log DEBUG (CachedSelectorFailed cache_key) :: tr)
            end
        end
    | None =>
        try_selectors cache_key selectors timeout clickable
          {| s_driver := b; s_cache := VDict d; s_file := f |}
    end.
Proof.
  unfold find_element_with_cache. run.
  rewrite cached_candidate_test.
  destruct (cached_candidate d cache_key selectors) as [selector|] eqn:Hc.
  - apply cached_candidate_text in Hc as (_ & _ & ->).
    run. cbn [s_driver s_cache s_file].
    destruct (wait_until b timeout clickable XPATH selector) as [[el|] b1]; run.
    + by tidy.
    + cbn [any_exception]. run.
      destruct (try_selectors cache_key selectors timeout clickable _) as [[r s'] tr].
      by tidy.
  - run.
    destruct (try_selectors cache_key selectors timeout clickable _) as [[r s'] tr].
    by tidy.
Qed.

End WithBrowser.
End SelectorFacts.

Module SelectorProofs.
Import SelectorSpec SelectorFacts Examples.

Section WithBrowser.
Context {B : Type} `{Browser B}.

(** C1 (as amended).  With a dict as cache: if the cache maps the role key
    to a locator that is among the candidates and resolves,
    [find_element_with_cache] returns that element and locator after this
    single attempt, and leaves the cache and the cache file as they were.
    Otherwise, after at most one failed attempt on the cached locator, the
    candidates are tried in list order ([scan]).  The first that resolves
    is stored in the cache under the role key, replacing any earlier entry,
    and [save_selector_cache] runs on the updated cache before the result
    is returned: a cache file that can be written then holds the updated
    cache; one that cannot is left as it was, a warning is logged, and the
    element and locator are returned all the same.  When no candidate
    resolves the result is [None], and the cache and the file are as they
    were. *)
Theorem C1_cache_first_then_candidates (cache_key : pystr) (selectors : list pystr)
    (timeout : Z) (clickable : bool) (b : B) (d : gmap pystr pyval) (f : file) :
  (forall selector el b',
     d !! cache_key = Some (VStr selector) -> selector ∈ selectors ->
     wait_until b timeout clickable XPATH selector = (Some el, b') ->
     find_element_with_cache cache_key selectors timeout clickable
       {| s_driver := b; s_cache := VDict d; s_file := f |}
     = (Ret (Some (el, selector)),
        {| s_driver := b'; s_cache := VDict d; s_file := f |},
        [probe timeout clickable selector true;
         Log DEBUG (CachedSelectorUsed cache_key)])) /\
  ((forall selector el b',
      d !! cache_key = Some (VStr selector) -> selector ∈ selectors ->
      wait_until b timeout clickable XPATH selector <> (Some el, b')) ->
   exists before b1 failed r b2,
     ((before = [] /\ b1 = b) \/
      (exists selector,
          d !! cache_key = Some (VStr selector) /\ selector ∈ selectors /\
          wait_until b timeout clickable XPATH selector = (None, b1) /\
          before = [probe timeout clickable selector false;
                    Log DEBUG (CachedSelectorFailed cache_key)])) /\
     scan timeout clickable b1 selectors failed r b2 /\
     match r with
     | Some (_, selector) => exists rest, selectors = failed ++ selector :: rest
     | None => failed = selectors
     end /\
     let attempts := before ++ map (fun selector => probe timeout clickable selector false)
                                   failed in
     find_element_with_cache cache_key selectors timeout clickable
       {| s_driver := b; s_cache := VDict d; s_file := f |}
     = match r with
       | None =>
           (Ret None, {| s_driver := b2; s_cache := VDict d; s_file := f |}, attempts)
       | Some (el, selector) =>
           let d' := <[cache_key := VStr selector]> d in
           if f_writable f then
             (Ret (Some (el, selector)),
              {| s_driver := b2; s_cache := VDict d';
                 s_file := {| f_state := Json (VDict d'); f_writable := true |} |},
              attempts ++
              [probe timeout clickable selector true;
               WriteSelectorCache true; Log DEBUG (CacheSaved (size d'));
               Log INFO (SelectorCached cache_key selector)])
           else
             (Ret (Some (el, selector)),
              {| s_driver := b2; s_cache := VDict d'; s_file := f |},
              attempts ++
              [probe timeout clickable selector true;
               WriteSelectorCache false; Log WARNING CacheSaveFailed;
               Log INFO (SelectorCached cache_key selector)])
       end).
Proof.
  assert (Hshape : forall before failed r (b2 : B),
            (Ret r, after_scan cache_key d f r b2,
             before ++ scan_events timeout clickable cache_key d f failed r)
            = match r with
              | None =>
                  (Ret None, {| s_driver := b2; s_cache := VDict d; s_file := f |},
                   before ++ map (fun selector => probe timeout clickable selector false)
                                 failed)
              | Some (el, selector) =>
                  let d' := <[cache_key := VStr selector]> d in
                  if f_writable f then
                    (Ret (Some (el, selector)),
                     {| s_driver := b2; s_cache := VDict d';
                        s_file := {| f_state := Json (VDict d'); f_writable := true |} |},
                     (before ++ map (fun selector => probe timeout clickable selector false)
                                    failed) ++
                     [probe timeout clickable selector true;
                      WriteSelectorCache true; Log DEBUG (CacheSaved (size d'));
                      Log INFO (SelectorCached cache_key selector)])
                  else
                    (Ret (Some (el, selector)),
                     {| s_driver := b2; s_cache := VDict d'; s_file := f |},
                     (before ++ map (fun selector => probe timeout clickable selector false)
                                    failed) ++
                     [probe timeout clickable selector true;
                      WriteSelectorCache false; Log WARNING CacheSaveFailed;
                      Log INFO (SelectorCached cache_key selector)])
              end).
  { intros before failed [[el selector]|] b2;
      unfold after_scan, scan_events, saved_file, save_events;
      [|by rewrite app_nil_r].
    cbv zeta. destruct (f_writable f); by rewrite <- app_assoc. }
  rewrite find_element_with_cache_run. split.
  - intros selector el b' Hd Hin Hw.
    assert (Hne : nonempty selector = true).
    { destruct selector; [|done].
      pose proof (empty_locator_invalid b timeout clickable XPATH) as He.
      rewrite Hw in He. discriminate. }
    unfold cached_candidate. rewrite Hd, Hne, bool_decide_eq_true_2 by done.
    simpl. by rewrite Hw.
  - intros Hmiss.
    destruct (cached_candidate d cache_key selectors) as [selector|] eqn:Hc.
    + apply cached_candidate_text in Hc as (Hd & Hin & _).
      destruct (wait_until b timeout clickable XPATH selector) as [[el|] b1] eqn:Hw.
      { by destruct (Hmiss selector el b1 Hd Hin). }
      destruct (try_selectors_scan cache_key timeout clickable d f selectors b1)
        as (failed & r & b2 & Hscan & ->).
      exists [probe timeout clickable selector false;
              Log DEBUG (CachedSelectorFailed cache_key)], b1, failed, r, b2.
      split; [right; by exists selector|].
      split; [done|]. split; [by eapply scan_order|].
      exact (Hshape [probe timeout clickable selector false;
                     Log DEBUG (CachedSelectorFailed cache_key)] failed r b2).
    + destruct (try_selectors_scan cache_key timeout clickable d f selectors b)
        as (failed & r & b2 & Hscan & ->).
      exists [], b, failed, r, b2.
      split; [by left|]. split; [done|]. split; [by eapply scan_order|].
      exact (Hshape [] failed r b2).
Qed.

End WithBrowser.

Lemma C1_cache_first_then_candidates_witness :
  find_element_with_cache (u "k") [u "a"; u "b"] 5 false
    session_with_cached_b
  = (Ret (Some (1, u "b")), session_with_cached_b,
     [probe 5 false (u "b") true; Log DEBUG (CachedSelectorUsed (u "k"))]).
Proof.
  apply (proj1 (C1_cache_first_then_candidates (u "k") [u "a"; u "b"] 5 false
                  [u "b"] {[ u "k" := VStr (u "b") ]} fresh_cache_file)).
  - reflexivity.
  - right. left.
  - reflexivity.
Defined.

(** An empty cache whose file cannot be written: the second candidate
    resolves and is returned with its element, and the cache in memory
    holds it, but the file is as it was.  The locator was returned without
    being persisted; all that tells is a warning in the log. *)
Lemma C1_locator_returned_without_being_persisted :
  find_element_with_cache (u "k") [u "a"; u "b"] 5 false session_with_readonly_cache
  = (Ret (Some (1, u "b")),
     {| s_driver := [u "b"]; s_cache := VDict (<[ u "k" := VStr (u "b") ]> ∅);
        s_file := readonly_cache_file |},
     [probe 5 false (u "a") false; probe 5 false (u "b") true;
      WriteSelectorCache false; Log WARNING CacheSaveFailed;
      Log INFO (SelectorCached (u "k") (u "b"))]) /\
  f_state readonly_cache_file = Absent.
Proof. split; reflexivity. Qed.

End SelectorProofs.

(** ** The publish protocol                                                 *)

Module ToutiaoFacts.
Import SelectorSpec.

Section WithBrowser.
Context {B : Type} `{Browser B}.

Lemma driver_execute_script_run sc el arg (s : session B) :
  driver_execute_script sc el arg s
  = match execute_script (s_driver s) sc el arg with
    | (true, b') => (Ret tt, with_driver s b', [Driver (ExecuteScript sc el arg) true])
    | (false, b') =>
        (Raise WebDriverException, with_driver s b',
         [Driver (ExecuteScript sc el arg) false])
    end.
Proof.
  unfold driver_execute_script, drive, on_driver. rewrite zoom_unfold.
  by destruct (execute_script (s_driver s) sc el arg) as [[] b'].
Qed.

End WithBrowser.
End ToutiaoFacts.

Module ToutiaoProofs.
Import SelectorSpec ToutiaoFacts Examples.

Section WithBrowser.
Context {B : Type} `{Browser B}.

#[local] Hint Rewrite (@driver_execute_script_run B _) : run.

(** C5 (as amended).  When the "preview and publish" button is not found,
    [_submit] raises, and so does [publish_steps] once the page is filled.
    When the "confirm publish" button or the single-cover switch is not
    found, one WARNING is logged and the step returns normally, so the flow
    goes on.  When the button confirming the uploaded cover is not found,
    the step returns normally too, but the record it logs is at DEBUG
    level, not a warning. *)
Theorem C5_mandatory_and_optional_controls (s : session B) :
  (forall s1 t1,
     find_element_with_cache (u "preview_publish_btn") preview_publish_selectors 20 true s
     = (Ret None, s1, t1) ->
     _submit s
     = (Raise RuntimeError, s1, Log INFO SubmitStart :: Log INFO SubmitStepOne :: t1) /\
     forall title content_html cover_path use_cover s0 t0,
       fill_page title content_html cover_path use_cover s0 = (Ret tt, s, t0) ->
       publish_steps title content_html cover_path use_cover s0
       = (Raise RuntimeError, s1,
          t0 ++ Log INFO SubmitStart :: Log INFO SubmitStepOne :: t1)) /\
  (forall preview_btn selector s1 t1 b2 s3 t3,
     find_element_with_cache (u "preview_publish_btn") preview_publish_selectors 20 true s
     = (Ret (Some (preview_btn, selector)), s1, t1) ->
     execute_script (s_driver s1) ClickScript preview_btn None = (true, b2) ->
     find_element_with_cache (u "confirm_publish_btn") confirm_publish_selectors 10 true
       (with_driver s1 b2)
     = (Ret None, s3, t3) ->
     _submit s
     = (Ret tt, s3,
        Log INFO SubmitStart :: Log INFO SubmitStepOne :: t1 ++
        Driver (ExecuteScript ClickScript preview_btn None) true ::
        Log INFO PreviewClicked :: Sleep 3 :: Log INFO SubmitStepTwo :: t3 ++
        [Log WARNING ConfirmNotFound; Sleep 3; Log INFO SubmitDone])) /\
  (forall s1 t1,
     find_element_with_cache (u "single_cover_mode") single_cover_candidates 5 false s
     = (Ret None, s1, t1) ->
     _ensure_single_cover_mode s
     = (Ret tt, s1, t1 ++ [Log WARNING SingleCoverNotSwitched])) /\
  (forall s1 t1,
     find_element_with_cache (u "cover_upload_confirm") confirm_selectors 3 true s
     = (Ret None, s1, t1) ->
     _confirm_cover_upload s
     = (Ret tt, s1, Sleep 2 :: t1 ++ [Log DEBUG CoverConfirmNotFound])).
Proof.
  split; [|split; [|split]].
  - intros s1 t1 Hfind. split.
    + unfold _submit. run. rewrite Hfind. run. by tidy.
    + intros title content_html cover_path use_cover s0 t0 Hfill.
      unfold publish_steps. run. rewrite Hfill. run.
      unfold _submit. run. rewrite Hfind. run. by tidy.
  - intros preview_btn selector s1 t1 b2 s3 t3 Hfind Hclick Hconfirm.
    unfold _submit. run. rewrite Hfind. run. rewrite Hclick. run.
    rewrite Hconfirm. run. by tidy.
  - intros s1 t1 Hfind. unfold _ensure_single_cover_mode. run. rewrite Hfind. run.
    by tidy.
  - intros s1 t1 Hfind. unfold _confirm_cover_upload. run. rewrite Hfind. run.
    by tidy.
Qed.

End WithBrowser.

Lemma C5_mandatory_and_optional_controls_witness :
  exists s1 t1,
    _submit session_without_preview
    = (Raise RuntimeError, s1, Log INFO SubmitStart :: Log INFO SubmitStepOne :: t1).
Proof.
  do 2 eexists.
  refine (proj1 (proj1 (C5_mandatory_and_optional_controls session_without_preview) _ _ _)).
  lazy. reflexivity.
Defined.

(** On a page that lacks only the button confirming the uploaded cover,
    [publish] completes and logs no WARNING at all: the missing button is
    reported at DEBUG level. *)
Lemma C5_missing_cover_confirm_is_not_a_warning :
  match publish (u "T") (u "<p>x</p>") (Some (u "cover.png")) true
          publisher_without_cover_confirm with
  | (r, _, tr) =>
      r = Ret tt /\
      List.filter (is_log WARNING) tr = [] /\
      List.filter (is_log DEBUG) tr
      = [Log DEBUG (CacheSaved 1); Log DEBUG (CacheSaved 2);
         Log DEBUG CoverConfirmNotFound;
         Log DEBUG (CacheSaved 3); Log DEBUG (CacheSaved 4)]
  end.
Proof. vm_compute. repeat split. Qed.

End ToutiaoProofs.

(** ** The work loops                                                       *)

Module PipelineFacts.
Import PipelineSpec.

Section WithCollaborators.
Context {E P : Type} `{Services E} `{Publisher P} `{SetOrder}.

Lemma call_service_run {A} (op : E -> A * E) (w : world E P) :
  call_service op w = (Ret (op (services w)).1, with_services w (op (services w)).2, []).
Proof. unfold call_service. by destruct (op (services w)). Qed.

Lemma call_raising_run {A} (op : E -> outcome A * E) (w : world E P) :
  call_raising op w = ((op (services w)).1, with_services w (op (services w)).2, []).
Proof. unfold call_raising. by destruct (op (services w)). Qed.

Lemma cover_image_run title article_text (w : world E P) :
  cover_image title article_text w
  = match generate_cover_image (services w) title article_text with
    | (Some cover_path, e) =>
        (Ret cover_path, with_cover w e cover_path, [GenerateCover title true])
    | (None, e) => (Raise ServiceError, with_services w e, [GenerateCover title false])
    end.
Proof.
  unfold cover_image. run. rewrite call_service_run.
  destruct (generate_cover_image (services w) title article_text) as [[p|] e]; by run.
Qed.

End WithCollaborators.
End PipelineFacts.

Module RetryProofs.
Import PipelineSpec PipelineFacts.

Section WithCollaborators.
Context {E P : Type} `{Services E} `{Publisher P} `{SetOrder}.

#[local] Hint Rewrite (@cover_image_run E P _) : run.

(** C4.  [generate_cover] calls the image generator at most three times.
    The first attempt that succeeds ends the loop with its path and no
    further call; after a failed first or second attempt the loop sleeps 2
    seconds, and after the third failure it sleeps no more and reports that
    no cover was generated.  In that case the loop body of
    [process_hot_searches] ([publish_article]) and of [publish_directory]
    ([publish_file]) only logs the skip: nothing is published, the record
    file is untouched, and the body returns normally, so the loop goes on
    with the next entry. *)
Theorem C4_cover_generation_is_retried_three_times
    (title article_text : pystr) (w : world E P) :
  let gen e := generate_cover_image e title (take 100 article_text) in
  match gen (services w) with
  | (Some p1, e1) =>
      generate_cover title article_text w
      = (Ret (Some p1, true), with_cover w e1 p1, attempt_ok 1 title p1)
  | (None, e1) =>
      match gen e1 with
      | (Some p2, e2) =>
          generate_cover title article_text w
          = (Ret (Some p2, true), with_cover w e2 p2,
             attempt_failed 1 title ++ Sleep 2 :: attempt_ok 2 title p2)
      | (None, e2) =>
          match gen e2 with
          | (Some p3, e3) =>
              generate_cover title article_text w
              = (Ret (Some p3, true), with_cover w e3 p3,
                 attempt_failed 1 title ++ Sleep 2 ::
                 attempt_failed 2 title ++ Sleep 2 :: attempt_ok 3 title p3)
          | (None, e3) =>
              let failures :=
                attempt_failed 1 title ++ Sleep 2 ::
                attempt_failed 2 title ++ Sleep 2 ::
                attempt_failed 3 title ++ [Log ERROR (CoverGaveUp 3 title)] in
              generate_cover title article_text w
              = (Ret (None, false), with_services w e3, failures) /\
              (forall cfg url,
                 cover_mode cfg = literal_generate ->
                 publish_article cfg title article_text url w
                 = (Ret tt, with_services w e3,
                    failures ++ [Log WARNING (SkippedNoCover title)])) /\
              (forall delay_seconds n idx file_path content_html w0,
                 extract_article (services w0) file_path
                 = (Ret (Some (title, content_html, article_text)), services w) ->
                 w = with_services w0 (services w) ->
                 publish_file literal_generate delay_seconds n idx file_path w0
                 = (Ret tt, with_services w e3,
                    Log INFO (Processing idx n) ::
                    failures ++ [Log WARNING (SkippedNoCover title)]))
          end
      end
  end.
Proof.
  cbv beta zeta.
  assert (Hgen : generate_cover title article_text w
                 = cover_attempts [1; 2; 3] 3 title (take 100 article_text) w)
    by reflexivity.
  destruct (generate_cover_image (services w) title (take 100 article_text))
    as [[p1|] e1] eqn:Hg1.
  { rewrite Hgen. cbn [cover_attempts]. run. rewrite Hg1. run. by tidy. }
  destruct (generate_cover_image e1 title (take 100 article_text))
    as [[p2|] e2] eqn:Hg2.
  { rewrite Hgen. cbn [cover_attempts]. run. rewrite Hg1. run.
    cbn [any_exception Nat.ltb Nat.leb]. run.
    cbn [services with_services]. rewrite Hg2. run. by tidy. }
  destruct (generate_cover_image e2 title (take 100 article_text))
    as [[p3|] e3] eqn:Hg3.
  { rewrite Hgen. cbn [cover_attempts]. run. rewrite Hg1. run.
    cbn [any_exception Nat.ltb Nat.leb]. run.
    cbn [services with_services]. rewrite Hg2. run.
    cbn [any_exception Nat.ltb Nat.leb]. run.
    cbn [services with_services]. rewrite Hg3. run. by tidy. }
  assert (Hfail : generate_cover title article_text w
                  = (Ret (None, false), with_services w e3,
                     attempt_failed 1 title ++ Sleep 2 ::
                     attempt_failed 2 title ++ Sleep 2 ::
                     attempt_failed 3 title ++ [Log ERROR (CoverGaveUp 3 title)])).
  { rewrite Hgen. cbn [cover_attempts]. run. rewrite Hg1. run.
    cbn [any_exception Nat.ltb Nat.leb]. run.
    cbn [services with_services]. rewrite Hg2. run.
    cbn [any_exception Nat.ltb Nat.leb]. run.
    cbn [services with_services]. rewrite Hg3. run.
    cbn [any_exception Nat.ltb Nat.leb]. run. by tidy. }
  split; [done|]. split.
  - intros cfg url Hmode. unfold publish_article, cover_step.
    rewrite Hmode, bool_decide_eq_true_2 by done.
    run. rewrite Hfail. run. by tidy.
  - intros delay_seconds n idx file_path content_html w0 Hx Hw.
    unfold publish_file, cover_step. rewrite bool_decide_eq_true_2 by done.
    run. rewrite call_raising_run, Hx. cbn [fst snd]. rewrite <- Hw.
    run. rewrite Hfail. run. by tidy.
Qed.

End WithCollaborators.
End RetryProofs.

Module QueueProofs.
Import PipelineSpec PipelineFacts.

Lemma unpublished_minus published hot_searches :
  minus_published published hot_searches (unpublished published hot_searches).
Proof.
  induction hot_searches as [|item rest IH]; simpl; [constructor|].
  destruct (set_mem (url_value item) published) eqn:Hm; simpl; by constructor.
Qed.

Lemma minus_unpublished published hot_searches queue :
  minus_published published hot_searches queue ->
  queue = unpublished published hot_searches.
Proof.
  induction 1 as [|item rest queue Hm _ IH|item rest queue Hm _ IH]; simpl;
    [done | |]; rewrite Hm; simpl; by rewrite IH.
Qed.

Lemma unpublished_nil hot_searches : unpublished [] hot_searches = hot_searches.
Proof. induction hot_searches as [|item rest IH]; simpl; [done | by rewrite IH]. Qed.


Section WithCollaborators.
Context {E P : Type} `{Services E} `{Publisher P} `{SetOrder}.

Lemma work_queue_run hot_searches limit published (w w1 : world E P) tl :
  on_records load_published_records w = (Ret published, w1, tl) ->
  work_queue hot_searches limit true w
  = (Ret (apply_limit limit (unpublished published hot_searches)), w1,
     tl ++ queue_log published hot_searches).
Proof.
  intros Hload. unfold work_queue, queue_log. run. rewrite Hload. run.
  cbn [andb]. case_bool_decide as Hp.
  - subst published. rewrite unpublished_nil. cbn [negb]. run. by tidy.
  - cbn [negb]. run.
    destruct (0 <? length hot_searches - length (unpublished published hot_searches))%nat;
      run; by tidy.
Qed.


End WithCollaborators.
End QueueProofs.

Module PublishFacts.
Import RecordSpec RecordFacts PipelineSpec PipelineFacts.

Lemma json_dump_run v f :
  json_dump v f
  = if f_writable f
    then (Ret tt, {| f_state := Json v; f_writable := true |}, [])
    else (Raise OSError, f, []).
Proof. reflexivity. Qed.

(** [save_published_record] after its read of the file. *)
Lemma save_published_record_run `{SetOrder} url f :
  match load_published_records f with
  | (Ret s, _, tl) =>
      save_published_record url f
      = (Ret tt, record_written url s f, tl ++ record_events url f)
  | (Raise e, _, tl) => save_published_record url f = (Raise e, f, tl)
  end.
Proof.
  destruct (load_published_records_run f) as (r & t & Hrun & _ & _).
  rewrite Hrun. unfold save_published_record, set_insert, record_written, record_events.
  destruct r as [s|e]; run; rewrite Hrun; run; [|done].
  cbn [hashable]. run. rewrite json_dump_run.
  destruct (f_writable f); run; cbn [os_error]; run; by tidy.
Qed.




Section WithCollaborators.
Context {E P : Type} `{Services E} `{Publisher P} `{SetOrder}.

Lemma do_publish_run title content_html cover_path use_cover (w : world E P) :
  do_publish title content_html cover_path use_cover w
  = match publisher_publish (publisher w) title content_html cover_path use_cover with
    | (true, p) =>
        (Ret tt, with_publisher w p, [Publish title cover_path use_cover true])
    | (false, p) =>
        (Raise ServiceError, with_publisher w p,
         [Publish title cover_path use_cover false])
    end.
Proof.
  unfold do_publish.
  by destruct (publisher_publish (publisher w) title content_html cover_path use_cover)
    as [[] p].
Qed.

Lemma on_records_run {A} (c : M file A) (w : world E P) :
  on_records c w
  = match c (records_file w) with
    | (r, f, tr) => (r, with_records w f, tr)
    end.
Proof. reflexivity. Qed.

Lemma os_path_exists_run path (w : world E P) :
  os_path_exists path w = (Ret (bool_decide (path ∈ files w)), w, []).
Proof. reflexivity. Qed.

Lemma os_remove_run path (w : world E P) :
  os_remove path w
  = if bool_decide (path ∈ files w) && negb (bool_decide (path ∈ undeletable w))
    then (Ret tt,
          {| services := services w; publisher := publisher w;
             records_file := records_file w; files := files w ∖ {[path]};
             undeletable := undeletable w |},
          [Remove path true])
    else (Raise OSError, w, [Remove path false]).
Proof.
  unfold os_remove. run.
  by destruct (bool_decide (path ∈ files w) && negb (bool_decide (path ∈ undeletable w))).
Qed.

(** Removing the cover never raises: a failed [os.remove] runs the
    handler. *)
Lemma remove_cover_run cover_path (on_failure : M (world E P) unit) evs (w : world E P) :
  (forall w', on_failure w' = (Ret tt, w', evs)) ->
  remove_cover cover_path on_failure w
  = (Ret tt, after_remove w cover_path, removal_events w cover_path evs).
Proof.
  intros Hh. unfold remove_cover, after_remove, removal_events, removable.
  destruct cover_path as [p|]; [|done].
  run. rewrite os_path_exists_run. run.
  destruct (nonempty p); cbn [andb]; [|done].
  destruct (bool_decide (p ∈ files w)) eqn:Hin; [|done].
  run. rewrite os_remove_run, Hin. cbn [andb].
  destruct (bool_decide (p ∈ undeletable w)); cbn [negb]; run.
  - cbn [any_exception]. rewrite Hh. by tidy.
  - by tidy.
Qed.

(** The cover loop emits neither a [publish] call nor a write of the
    record file, leaves the record file alone and never raises. *)
Lemma cover_attempts_quiet attempts n title text : forall w : world E P,
  exists r w1 tc,
    cover_attempts attempts n title text w = (Ret r, w1, tc) /\
    forallb quiet tc = true /\ records_file w1 = records_file w /\
    publisher w1 = publisher w.
Proof.
  induction attempts as [|attempt rest IH]; intros w.
  - by exists (None, false), w, [].
  - cbn [cover_attempts]. run. rewrite cover_image_run.
    destruct (generate_cover_image (services w) title text) as [[p|] e]; run.
    + do 3 eexists. split; [reflexivity|]. by tidy.
    + cbn [any_exception]. run.
      destruct (IH (with_services w e)) as (r & w1 & tc & Hrun & Hq & Hf & Hp).
      destruct (attempt <? n)%nat; run; rewrite Hrun;
        do 3 eexists; (split; [reflexivity|]);
        (split; [tidy; cbn [forallb quiet andb]; by rewrite Hq | by rewrite Hf, Hp]).
Qed.

Lemma cover_step_quiet mode title text (w : world E P) :
  exists r w1 tc,
    cover_step mode title text w = (Ret r, w1, tc) /\
    forallb quiet tc = true /\ records_file w1 = records_file w /\
    publisher w1 = publisher w.
Proof.
  unfold cover_step, generate_cover. case_bool_decide.
  - destruct (cover_attempts_quiet (seq 1 max_retries) max_retries title
                (take 100 text) w) as ([cp ok] & w1 & tc & Hrun & Hq & Hf & Hp).
    run. rewrite Hrun. run. destruct ok; run.
    + do 3 eexists. split; [reflexivity|]. rewrite ?app_nil_r. by rewrite Hq.
    + do 3 eexists. split; [reflexivity|].
      rewrite ?app_nil_r, forallb_app, Hq. by tidy.
  - by exists (Some None), w, [].
Qed.

End WithCollaborators.
End PublishFacts.

Module PublishProofs.
Import RecordSpec RecordFacts PipelineSpec PipelineFacts PublishFacts.

Section WithCollaborators.
Context {E P : Type} `{Services E} `{Publisher P} `{SetOrder}.

(** The run of the [try] block once the cover step has yielded
    [cover_path]. *)
Lemma publish_article_run cfg title article_content url cover_path
    (w w1 : world E P) tc :
  cover_step (cover_mode cfg) title article_content w = (Ret (Some cover_path), w1, tc) ->
  publish_article cfg title article_content url w
  = match publisher_publish (publisher w1) title (markdown_to_html article_content)
            cover_path true with
    | (false, p) =>
        (Ret tt, with_publisher w1 p,
         tc ++ [Publish title cover_path true false; Log ERROR PublishFailed])
    | (true, p) =>
        match load_published_records (records_file w1) with
        | (Ret s, _, tl) =>
            let w3 := with_records (with_publisher w1 p)
                        (record_written url s (records_file w1)) in
            (Ret tt, after_remove w3 cover_path,
             tc ++ Publish title cover_path true true :: Log INFO (Published title) ::
             tl ++ record_events url (records_file w1) ++
             removal_events w3 cover_path [Log WARNING CoverRemoveFailed] ++
             Log INFO (WaitingNext title) ::
             pause_events (publish_delay cfg) [Log ERROR PublishFailed])
        | (Raise e, _, tl) =>
            (Ret tt, with_publisher w1 p,
             tc ++ Publish title cover_path true true :: Log INFO (Published title) ::
             tl ++ [Log ERROR PublishFailed])
        end
    end.
Proof.
  intros Hcover. unfold publish_article, publish_and_record. run. rewrite Hcover. run.
  rewrite do_publish_run.
  destruct (publisher_publish (publisher w1) title (markdown_to_html article_content)
              cover_path true) as [[] p]; run; cbn [any_exception]; run; [|by tidy].
  rewrite on_records_run. cbn [records_file with_publisher].
  pose proof (save_published_record_run url (records_file w1)) as Hsave.
  destruct (load_published_records (records_file w1)) as [[[s|e] f'] tl];
    rewrite Hsave; run; cbn [any_exception]; run.
  - rewrite (remove_cover_run _ _ [Log WARNING CoverRemoveFailed]) by done.
    run. rewrite sleep_unfold. unfold pause_events.
    destruct (Qle_bool 0 (publish_delay cfg)); run; cbn [any_exception]; run;
      tidy; by rewrite <- ?app_assoc.
  - by tidy.
Qed.

Lemma publish_article_skipped cfg title article_content url (w w1 : world E P) tc :
  cover_step (cover_mode cfg) title article_content w = (Ret None, w1, tc) ->
  publish_article cfg title article_content url w = (Ret tt, w1, tc).
Proof.
  intros Hcover. unfold publish_article. run. rewrite Hcover. run. by tidy.
Qed.





Lemma generate_article_draft_run topic url (w : world E P) :
  generate_article_draft topic url w
  = match call_deepseek_api (services w) topic
            (if nonempty url then Some url else None) with
    | (Ret full_article, e) =>
        (Ret (Shaping.extract_title_and_content full_article), with_services w e,
         [GenerateText topic url])
    | (Raise x, e) => (Raise x, with_services w e, [GenerateText topic url])
    end.
Proof.
  unfold generate_article_draft. run. rewrite call_raising_run.
  destruct (call_deepseek_api (services w) topic _) as [[full_article|x] e]; by run.
Qed.

(** The loop body up to its last step: the [try] block with a publisher,
    the saved file and the pause without one. *)
Lemma process_item_run cfg with_publisher delay_seconds n idx item (w : world E P) :
  let topic := field (item_title item) in
  let url := field (item_url item) in
  process_item cfg with_publisher delay_seconds n idx item w
  = if negb (nonempty topic) || negb (nonempty url)
    then (Ret tt, w, [Log WARNING (ItemIncomplete idx)])
    else
      match call_deepseek_api (services w) topic (Some url) with
      | (Raise x, e) =>
          (Raise x, with_services w e,
           [Log INFO (GeneratingArticle idx n topic); GenerateText topic url])
      | (Ret full_article, e) =>
          let '(title, article_content) :=
            Shaping.extract_title_and_content full_article in
          if negb (nonempty article_content)
          then (Ret tt, with_services w e,
                [Log INFO (GeneratingArticle idx n topic); GenerateText topic url;
                 Log WARNING (GenerationFailed topic)])
          else
            let title := if Shaping.not_title title then topic else field title in
            match (if with_publisher
                   then publish_article cfg title article_content url
                   else
                     ok <- call_service
                             (fun e => save_article_to_file e topic article_content title) ;;
                     emit (SaveArticle topic title ok) ;;
                     (if ok : bool then ret tt else raise OSError) ;;
                     sleep delay_seconds) (with_services w e) with
            | (r, w', tr) =>
                (r, w',
                 Log INFO (GeneratingArticle idx n topic) :: GenerateText topic url ::
                 Log INFO (TitleGenerated title) :: tr)
            end
      end.
Proof.
  cbv zeta. unfold process_item.
  destruct (nonempty (field (item_title item))) eqn:Ht; [|done].
  destruct (nonempty (field (item_url item))) eqn:Hu; [|done].
  cbn [negb orb]. run. rewrite generate_article_draft_run, Hu.
  destruct (call_deepseek_api (services w) (field (item_title item)) _)
    as [[full_article|x] e]; [|by run].
  destruct (Shaping.extract_title_and_content full_article) as [title article_content].
  run. destruct (negb (nonempty article_content)); run; [done|].
  match goal with
  | |- context [(if with_publisher then ?a else ?b) ?w0] =>
      destruct ((if with_publisher then a else b) w0) as [[r w'] tr]
  end.
  by tidy.
Qed.


End WithCollaborators.
End PublishProofs.

(** ** The entries the loop visits                                          *)

Module VisitProofs.
Import RecordSpec RecordFacts PipelineSpec PipelineFacts PublishFacts QueueProofs.

Lemma visited_app t1 t2 : visited (t1 ++ t2) = visited t1 ++ visited t2.
Proof. apply List.filter_app. Qed.

(** All that reading the record file logs is one of its two warnings. *)
Lemma load_published_records_logs f :
  exists r t, load_published_records f = (r, f, t) /\
              (t = [] \/ t = [Log WARNING RecordsBadFormat] \/
               t = [Log WARNING RecordsReadFailed]).
Proof.
  assert (Hset : forall l (s0 : file), exists r, set_of_list l [] s0 = (r, s0, [])).
  { intros l s0. destruct (set_of_list_run l [] s0) as [(s & Hs & _) | Hr]; eauto. }
  unfold load_published_records.
  destruct f as [st wr].
  destruct st as [| | | |v];
    repeat (run; rewrite ?json_load_run;
            cbn [f_state path_exists negb decode_or_os_error]);
    try (do 2 eexists; split; [reflexivity|]; cbn [app]; by auto).
  destruct v as [|b|n|s|l|d]; run;
    try (do 2 eexists; split; [reflexivity|]; cbn [app]; by auto).
  - destruct (Hset l {| f_state := Json (VList l); f_writable := wr |}) as (r & ->).
    destruct r as [s|e]; [|destruct e]; cbn [decode_or_os_error];
      do 2 eexists; (split; [reflexivity|]); cbn [app]; by auto.
  - destruct (d !! urls_key) as [urls|]; run;
      [|do 2 eexists; split; [reflexivity|]; cbn [app]; by auto].
    unfold iterate.
    destruct urls as [|b|n|s|l|d']; run; cbn [decode_or_os_error];
      try (do 2 eexists; split; [reflexivity|]; cbn [app]; by auto);
      match goal with
      | |- context [set_of_list ?l [] ?s0] => destruct (Hset l s0) as (r & ->)
      end;
      (destruct r as [s'|e]; [|destruct e]); cbn [decode_or_os_error];
      do 2 eexists; (split; [reflexivity|]); cbn [app]; by auto.
Qed.

Lemma load_unvisited f r f' t :
  load_published_records f = (r, f', t) -> visited t = [].
Proof.
  destruct (load_published_records_logs f) as (r0 & t0 & -> & Ht).
  intros [= _ _ <-]. by destruct Ht as [-> | [-> | ->]].
Qed.

Lemma record_events_unvisited url f : visited (record_events url f) = [].
Proof. unfold record_events. by destruct (f_writable f). Qed.

Lemma pause_events_unvisited seconds :
  visited (pause_events seconds [Log ERROR PublishFailed]) = [].
Proof. unfold pause_events. by destruct (Qle_bool 0 seconds). Qed.

Lemma removal_events_unvisited {E P} (w : world E P) cover_path :
  visited (removal_events w cover_path [Log WARNING CoverRemoveFailed]) = [].
Proof.
  unfold removal_events. destruct (removable w cover_path) as [p|]; [|done].
  by destruct (bool_decide (p ∈ undeletable w)).
Qed.

Lemma queue_log_unvisited published hot_searches :
  visited (queue_log published hot_searches) = [].
Proof.
  unfold queue_log. case_bool_decide; [done|].
  by destruct (0 <? _)%nat.
Qed.

Section WithCollaborators.
Context {E P : Type} `{Services E} `{Publisher P} `{SetOrder}.

Lemma cover_attempts_unvisited attempts n title text : forall w : world E P,
  visited (cover_attempts attempts n title text w).2 = [].
Proof.
  induction attempts as [|attempt rest IH]; intros w; [done|].
  cbn [cover_attempts]. run. rewrite cover_image_run.
  destruct (generate_cover_image (services w) title text) as [[p|] e]; run; [done|].
  cbn [any_exception]. run. specialize (IH (with_services w e)).
  destruct (attempt <? n)%nat; run;
    destruct (cover_attempts rest n title text (with_services w e)) as [[r w1] tc];
    tidy; cbn [snd] in *; unfold visited in *; cbn [List.filter is_visit]; exact IH.
Qed.

Lemma cover_step_unvisited mode title text (w : world E P) :
  visited (cover_step mode title text w).2 = [].
Proof.
  unfold cover_step, generate_cover. case_bool_decide; [|done].
  pose proof (cover_attempts_unvisited (seq 1 max_retries) max_retries title
                (take 100 text) w) as Hc.
  run. destruct (cover_attempts _ _ _ _ w) as [[[[cp ok]|e] w1] tc]; run; [|done].
  cbn [snd] in Hc. destruct ok; run; cbn [snd]; by rewrite ?visited_app, Hc.
Qed.

(** The [try] block of the loop body leaves no visit in the trace. *)
Lemma publish_article_unvisited cfg title article_content url (w : world E P) :
  visited (publish_article cfg title article_content url w).2 = [].
Proof.
  pose proof (cover_step_unvisited (cover_mode cfg) title article_content w) as Hc.
  destruct (cover_step_quiet (cover_mode cfg) title article_content w)
    as ([cover_path|] & w1 & tc & Hcover & _).
  - rewrite (PublishProofs.publish_article_run _ _ _ _ _ _ _ _ Hcover).
    rewrite Hcover in Hc. cbn [snd] in Hc.
    destruct (publisher_publish (publisher w1) title (markdown_to_html article_content)
                cover_path true) as [[] p].
    + destruct (load_published_records (records_file w1)) as [[r f'] tl] eqn:Hload.
      apply load_unvisited in Hload.
      destruct r as [s|e]; cbn [snd];
        repeat (rewrite ?visited_app, ?Hc, ?Hload, ?record_events_unvisited,
                  ?removal_events_unvisited, ?pause_events_unvisited;
                cbn [visited List.filter is_visit app]);
        done.
    + cbn [snd]. by rewrite visited_app, Hc.
  - rewrite (PublishProofs.publish_article_skipped _ _ _ _ _ _ _ Hcover).
    by rewrite Hcover in Hc.
Qed.

(** One pass of the loop body leaves the visit of its entry, whatever its
    outcome. *)
Lemma process_item_visited cfg with_publisher delay_seconds n idx item (w : world E P) :
  visited (process_item cfg with_publisher delay_seconds n idx item w).2
  = visit n idx item.
Proof.
  rewrite PublishProofs.process_item_run. cbv zeta. unfold visit.
  destruct (negb (nonempty (field (item_title item))) ||
            negb (nonempty (field (item_url item)))); [done|].
  destruct (call_deepseek_api (services w) (field (item_title item)) _)
    as [[full_article|x] e]; [|done].
  destruct (Shaping.extract_title_and_content full_article) as [title article_content].
  destruct (negb (nonempty article_content)); [done|].
  destruct with_publisher.
  - match goal with
    | |- context [publish_article cfg ?t ?a ?u ?w0] =>
        pose proof (publish_article_unvisited cfg t a u w0) as Hp;
        destruct (publish_article cfg t a u w0) as [[r w'] tr]
    end.
    cbn [snd] in *. cbn [visited List.filter is_visit]. fold (visited tr). by rewrite Hp.
  - run. rewrite call_service_run. cbn [fst snd services with_services].
    destruct (save_article_to_file e _ _ _) as [[] e2]; cbn [fst snd]; run; [|done].
    rewrite sleep_unfold. by destruct (Qle_bool 0 delay_seconds).
Qed.

(** The loop leaves the visits of its entries in list order: all of them
    when it returns, and those up to the entry at which an exception ended
    it otherwise. *)
Lemma for_each_visited cfg with_publisher delay_seconds n items :
  forall idx (w : world E P),
    match for_each (process_item cfg with_publisher delay_seconds n) idx items w with
    | (r, _, tr) =>
        visited tr `prefix_of` visits n idx items /\
        (r = Ret tt -> visited tr = visits n idx items)
    end.
Proof.
  induction items as [|item rest IH]; intros idx w; [done|].
  cbn [for_each visits]. run.
  pose proof (process_item_visited cfg with_publisher delay_seconds n idx item w) as Hv.
  destruct (process_item cfg with_publisher delay_seconds n idx item w)
    as [[[[]|x] w1] t1]; cbn [snd] in Hv.
  - specialize (IH (S idx) w1).
    destruct (for_each _ (S idx) rest w1) as [[r w2] t2].
    destruct IH as [Hpre Hall]. rewrite visited_app, Hv. split.
    + by apply prefix_app.
    + intros Hr. by rewrite Hall.
  - rewrite Hv. split; [by apply prefix_app_r | done].
Qed.

(** C7 (as amended).  With [skip_published] set and a non-empty record
    set, the entries that [process_hot_searches] goes through are the input
    entries whose [url] is not in the record set, in their input order,
    cut by [limit]: all of them without a limit or with the limit 0, the
    first [n] of them with a positive limit [n].  The loop body starts on
    each of these entries once, in this order, and on no other entry: the
    visits in the trace of a run that returns are exactly those of this
    list, and those of a run that an exception ends are the first of
    them. *)
Theorem C7_resume_filter_keeps_the_unpublished (hot_searches : list work_item)
    (published : pyset) (limit : option Z) (w w1 : world E P) (tl : list event) :
  on_records load_published_records w = (Ret published, w1, tl) ->
  published <> [] ->
  exists filtered,
    minus_published published hot_searches filtered /\
    (forall queue', minus_published published hot_searches queue' -> queue' = filtered) /\
    (exists tq,
       work_queue hot_searches limit true w
       = (Ret (apply_limit limit filtered), w1, tq)) /\
    (limit = None \/ limit = Some 0%Z -> apply_limit limit filtered = filtered) /\
    (forall n, limit = Some n -> (0 < n)%Z ->
               apply_limit limit filtered = take (Z.to_nat n) filtered) /\
    forall cfg with_publisher delay_seconds,
      let queue := apply_limit limit filtered in
      match process_hot_searches hot_searches limit delay_seconds with_publisher cfg
              true w with
      | (r, _, tr) =>
          visited tr `prefix_of` visits (length queue) 1 queue /\
          (r = Ret tt -> visited tr = visits (length queue) 1 queue)
      end.
Proof.
  intros Hload _. exists (unpublished published hot_searches).
  pose proof (work_queue_run hot_searches limit published w w1 tl Hload) as Hq.
  split; [apply unpublished_minus|]. split; [apply minus_unpublished|].
  split; [by eexists|]. split; [by intros [-> | ->]|]. split.
  { intros n -> Hn. unfold apply_limit, slice_to.
    destruct (Z.eqb_spec n 0); [lia|]. destruct (Z.leb_spec 0 n); [done | lia]. }
  intros cfg with_publisher delay_seconds queue.
  unfold process_hot_searches. destruct hot_searches as [|item rest].
  { assert (Hnone : queue = []).
    { subst queue. destruct limit as [n|]; [|done]. unfold apply_limit, slice_to.
      cbn [unpublished length]. destruct (n =? 0)%Z, (0 <=? n)%Z; by rewrite ?take_nil. }
    rewrite Hnone. by split. }
  run. rewrite Hq. fold queue.
  assert (Htl : visited tl = []).
  { rewrite PublishFacts.on_records_run in Hload.
    destruct (load_published_records (records_file w)) as [[r f'] t] eqn:Hl.
    injection Hload as _ _ <-. by apply load_unvisited in Hl. }
  unfold process_queue. destruct queue as [|first others] eqn:Hqueue.
  { run. rewrite !visited_app, Htl, queue_log_unvisited. by split. }
  run.
  pose proof (for_each_visited cfg with_publisher delay_seconds
                (length (first :: others)) (first :: others) 1 w1) as Hloop.
  destruct (for_each _ 1 (first :: others) w1) as [[[[]|x] w2] t2]; run;
    destruct Hloop as [Hpre Hall];
    repeat (rewrite ?visited_app, ?Htl, ?queue_log_unvisited;
            cbn [visited List.filter is_visit app]);
    fold (visited t2); rewrite ?app_nil_r; split; auto; done.
Qed.

End WithCollaborators.
End VisitProofs.

Module PipelineExamples.
Import RecordSpec PipelineSpec Examples.




Lemma C4_cover_generation_is_retried_three_times_witness :
  publish_article sample_config (u "Foo") (u "Bar") (u "https://example.org/a")
    world_without_cover
  = (Ret tt, world_without_cover,
     attempt_failed 1 (u "Foo") ++ Sleep 2 ::
     attempt_failed 2 (u "Foo") ++ Sleep 2 ::
     attempt_failed 3 (u "Foo") ++
     [Log ERROR (CoverGaveUp 3 (u "Foo")); Log WARNING (SkippedNoCover (u "Foo"))]).
Proof.
  exact (proj1 (proj2 (RetryProofs.C4_cover_generation_is_retried_three_times
                         (u "Foo") (u "Bar") world_without_cover))
           sample_config (u "https://example.org/a") eq_refl).
Defined.

(** C6 at a failing input: one entry whose cover is generated at the first
    attempt and whose [publish] raises.  After [process_hot_searches] the
    cover file still exists and no removal was attempted; after
    [publish_directory], run from the same world, the file is gone. *)
Theorem C6_cover_outlives_a_failed_publish :
  match process_hot_searches [entry (u "https://example.org/a")] None 1.5 true
          sample_config false world_failing_publish with
  | (r, w', tr) =>
      r = Ret tt /\
      bool_decide (cover_png ∈ files w') = true /\
      List.filter is_remove tr = [] /\
      List.filter (is_log ERROR) tr = [Log ERROR PublishFailed]
  end /\
  match publish_directory [u "a.md"] None 8 literal_generate world_failing_publish with
  | (r, w', tr) =>
      r = Ret tt /\
      bool_decide (cover_png ∈ files w') = false /\
      List.filter is_remove tr = [Remove cover_png true]
  end.
Proof. vm_compute. repeat split. Qed.

Lemma C7_resume_filter_keeps_the_unpublished_witness :
  exists filtered,
    minus_published [VStr (u "b")] [entry (u "a"); entry (u "b"); entry (u "c")]
      filtered /\
    (forall queue',
       minus_published [VStr (u "b")] [entry (u "a"); entry (u "b"); entry (u "c")] queue' ->
       queue' = filtered) /\
    (exists tq,
       work_queue [entry (u "a"); entry (u "b"); entry (u "c")] None true
         world_with_b_published
       = (Ret (apply_limit None filtered), world_with_b_published, tq)) /\
    (@None Z = None \/ None = Some 0%Z -> apply_limit None filtered = filtered) /\
    (forall n, None = Some n -> (0 < n)%Z ->
               apply_limit None filtered = take (Z.to_nat n) filtered) /\
    forall cfg with_publisher delay_seconds,
      let queue := apply_limit None filtered in
      match process_hot_searches [entry (u "a"); entry (u "b"); entry (u "c")] None
              delay_seconds with_publisher cfg true world_with_b_published with
      | (r, _, tr) =>
          visited tr `prefix_of` visits (length queue) 1 queue /\
          (r = Ret tt -> visited tr = visits (length queue) 1 queue)
      end.
Proof.
  apply (VisitProofs.C7_resume_filter_keeps_the_unpublished
           [entry (u "a"); entry (u "b"); entry (u "c")] [VStr (u "b")] None
           world_with_b_published world_with_b_published []).
  - reflexivity.
  - discriminate.
Defined.

(** The record set holds ["b"] and the limit is 1: the input without the
    published entry is ["a"; "c"], and the run, which returns, visits
    ["a"] only.  The entries gone through are not all the unpublished
    ones. *)
Lemma C7_limit_leaves_unpublished_entries_out :
  unpublished [VStr (u "b")] [entry (u "a"); entry (u "b"); entry (u "c")]
  = [entry (u "a"); entry (u "c")] /\
  match process_hot_searches [entry (u "a"); entry (u "b"); entry (u "c")] (Some 1%Z)
          1.5 false sample_config true world_with_b_published with
  | (r, _, tr) =>
      r = Ret tt /\
      visited tr = visits 1 1 [entry (u "a")] /\
      visited tr <> visits 2 1 [entry (u "a"); entry (u "c")]
  end.
Proof. vm_compute. repeat split. discriminate. Qed.


End PipelineExamples.

(** ** More on element lookup                                               *)

Module LookupFacts.
Import SelectorSpec SelectorFacts LookupSpec.

Section WithBrowser.
Context {B : Type} `{Browser B}.

Lemma save_events_probes d f : List.filter is_probe (save_events d f) = [].
Proof. unfold save_events. by destruct (f_writable f). Qed.

Lemma scan_events_probes timeout clickable cache_key d f failed r :
  List.filter is_probe (scan_events timeout clickable cache_key d f failed r)
  = map (fun selector => probe timeout clickable selector false) failed ++
    match r with
    | Some (_, selector) => [probe timeout clickable selector true]
    | None => []
    end.
Proof.
  unfold scan_events. rewrite List.filter_app. f_equal.
  - induction failed as [|x failed IH]; [done|]. cbn. by rewrite IH.
  - destruct r as [[el selector]|]; [|done].
    cbn. by rewrite List.filter_app, save_events_probes.
Qed.

(** A locator that resolves is not empty. *)
Lemma resolved_nonempty (b : B) timeout clickable how selector el b' :
  wait_until b timeout clickable how selector = (Some el, b') ->
  nonempty selector = true.
Proof.
  intros Hw. destruct selector; [|done].
  pose proof (empty_locator_invalid b timeout clickable how) as He.
  rewrite Hw in He. discriminate.
Qed.

(** What a lookup leaves behind, whichever way it went. *)
Lemma find_element_with_cache_post cache_key selectors timeout clickable (b : B) d f :
  exists r b' f' tr,
    find_element_with_cache cache_key selectors timeout clickable
      {| s_driver := b; s_cache := VDict d; s_file := f |}
    = (Ret r,
       {| s_driver := b';
          s_cache := VDict match r with
                           | Some (_, selector) => <[cache_key := VStr selector]> d
                           | None => d
                           end;
          s_file := f' |}, tr) /\
    match r with
    | Some (_, selector) =>
        selector ∈ selectors /\
        ((d !! cache_key = Some (VStr selector) /\ f' = f) \/
         f' = saved_file (<[cache_key := VStr selector]> d) f)
    | None => f' = f
    end /\
    (exists cached failed,
       List.filter is_probe tr
       = map (fun selector => probe timeout clickable selector false) (cached ++ failed) ++
         match r with
         | Some (_, selector) => [probe timeout clickable selector true]
         | None => []
         end /\
       (cached = [] \/ exists selector, cached = [selector] /\ selector ∈ selectors /\
                                        d !! cache_key = Some (VStr selector)) /\
       match r with
       | Some (_, selector) =>
           cached <> [] \/ failed <> [] -> exists rest, selectors = failed ++ selector :: rest
       | None => failed = selectors
       end).
Proof.
  rewrite find_element_with_cache_run.
  destruct (cached_candidate d cache_key selectors) as [selector|] eqn:Hc.
  - apply cached_candidate_text in Hc as (Hd & Hin & _).
    destruct (wait_until b timeout clickable XPATH selector) as [[el|] b1] eqn:Hw.
    + exists (Some (el, selector)), b1, f. eexists. split.
      { by rewrite (insert_id d cache_key (VStr selector)). }
      split; [split; [done | by left]|]. exists [], []. cbn. split; [done|]. split; [by left|].
      intros [?|?]; done.
    + destruct (try_selectors_scan cache_key timeout clickable d f selectors b1)
        as (failed & r & b2 & Hscan & Hrun).
      rewrite Hrun. apply scan_order in Hscan.
      exists r, b2. destruct r as [[el selector']|].
      * destruct Hscan as [rest Hsel].
        eexists. eexists. split; [reflexivity|]. split.
        { split; [|by right]. rewrite Hsel. apply elem_of_app. right. left. }
        exists [selector], failed. cbn. rewrite scan_events_probes.
        split; [done|]. split; [right; by exists selector|]. intros _. by exists rest.
      * eexists. eexists. split; [reflexivity|]. split; [done|].
        exists [selector], failed. cbn. rewrite scan_events_probes.
        split; [done|]. split; [right; by exists selector | done].
  - destruct (try_selectors_scan cache_key timeout clickable d f selectors b)
      as (failed & r & b2 & Hscan & Hrun).
    rewrite Hrun. apply scan_order in Hscan.
    exists r, b2. destruct r as [[el selector']|].
    + destruct Hscan as [rest Hsel].
      eexists. eexists. split; [reflexivity|]. split.
      { split; [|by right]. rewrite Hsel. apply elem_of_app. right. left. }
      exists [], failed. cbn. rewrite scan_events_probes.
      split; [done|]. split; [by left|]. intros _. by exists rest.
    + eexists. eexists. split; [reflexivity|]. split; [done|].
      exists [], failed. cbn. rewrite scan_events_probes.
      split; [done|]. split; [by left | done].
Qed.

End WithBrowser.
End LookupFacts.

Module LookupProofs.
Import SelectorSpec SelectorFacts LookupSpec LookupFacts Examples.

Section WithBrowser.
Context {B : Type} `{Browser B}.

(** X1.  With a dict as cache, [find_element_with_cache] never raises and
    the cache stays a dict.  After a lookup that found an element, the
    returned locator is one of the candidates and the cache maps the role
    key to it; after a lookup that found nothing, the cache and the cache
    file are unchanged, so a stale entry stays in place.  The entries of
    the other role keys are never touched. *)
Theorem X1_lookup_keeps_cache_consistent (cache_key : pystr) (selectors : list pystr)
    (timeout : Z) (clickable : bool) (b : B) (d : gmap pystr pyval) (f : file) :
  exists r s' tr d',
    find_element_with_cache cache_key selectors timeout clickable
      {| s_driver := b; s_cache := VDict d; s_file := f |} = (Ret r, s', tr) /\
    s_cache s' = VDict d' /\
    (forall k, k <> cache_key -> d' !! k = d !! k) /\
    match r with
    | Some (_, selector) =>
        selector ∈ selectors /\ d' !! cache_key = Some (VStr selector)
    | None => d' = d /\ s_file s' = f
    end.
Proof.
  destruct (find_element_with_cache_post cache_key selectors timeout clickable b d f)
    as (r & b' & f' & tr & Hrun & Hpost & _).
  rewrite Hrun. do 4 eexists. split; [reflexivity|]. split; [reflexivity|].
  destruct r as [[el selector]|].
  - split; [intros k Hk; by rewrite lookup_insert_ne|].
    split; [apply Hpost | by rewrite lookup_insert_eq].
  - by split.
Qed.

(** X2.  A lookup waits on at most one locator more than there are
    candidates (the cached one, tried first), on no more than the
    candidates when the cache has no entry for the role key, and never on
    a locator outside the candidate list. *)
Theorem X2_lookup_probes_are_bounded (cache_key : pystr) (selectors : list pystr)
    (timeout : Z) (clickable : bool) (b : B) (d : gmap pystr pyval) (f : file) :
  match find_element_with_cache cache_key selectors timeout clickable
          {| s_driver := b; s_cache := VDict d; s_file := f |} with
  | (_, _, tr) =>
      length (List.filter is_probe tr) <= S (length selectors) /\
      (d !! cache_key = None -> length (List.filter is_probe tr) <= length selectors) /\
      forall e locator, e ∈ tr -> probed e = Some locator -> locator ∈ selectors
  end.
Proof.
  destruct (find_element_with_cache_post cache_key selectors timeout clickable b d f)
    as (r & b' & f' & tr & -> & Hpost & cached & failed & Hprobes & Hcached & Hscan).
  assert (Hlen : length cached <= 1).
  { destruct Hcached as [-> | (x & -> & _)]; simpl; lia. }
  assert (Hcount : length (List.filter is_probe tr)
                   = length cached + length failed +
                     match r with Some _ => 1 | None => 0 end).
  { rewrite Hprobes, !length_app, length_map, length_app.
    by destruct r as [[el selector]|]. }
  assert (Hin : forall x, x ∈ cached ++ failed -> x ∈ selectors).
  { intros x Hx. apply elem_of_app in Hx as [Hx | Hx].
    - destruct Hcached as [-> | (y & -> & Hy & _)]; [by apply elem_of_nil in Hx|].
      apply list_elem_of_singleton in Hx. by subst.
    - destruct r as [[el selector]|]; [|by subst].
      destruct failed as [|y failed]; [by apply elem_of_nil in Hx|].
      destruct Hscan as [rest ->]; [by right|]. apply elem_of_app. by left. }
  assert (Hbound : length failed + match r with Some _ => 1 | None => 0 end
                   <= length selectors).
  { destruct r as [[el selector]|]; [|subst failed; lia].
    destruct (decide (cached = [] /\ failed = [])) as [[_ ->] | Hne].
    - destruct Hpost as [Hsel _].
      destruct selectors; [by apply elem_of_nil in Hsel | simpl; lia].
    - destruct Hscan as [rest ->].
      { destruct cached, failed; auto. }
      rewrite length_app. simpl. lia. }
  split; [|split].
  - lia.
  - intros Hnone.
    assert (cached = []) as ->.
    { destruct Hcached as [-> | (x & _ & _ & Hx)]; [done | congruence]. }
    simpl in Hcount. lia.
  - intros e locator He Hp.
    assert (Hf : e ∈ List.filter is_probe tr).
    { apply list_elem_of_In, List.filter_In. split; [by apply list_elem_of_In|].
      unfold is_probe. by rewrite Hp. }
    rewrite Hprobes in Hf. apply elem_of_app in Hf as [Hf | Hf].
    + apply list_elem_of_fmap in Hf as (x & -> & Hx). simpl in Hp.
      injection Hp as <-. by apply Hin.
    + destruct r as [[el selector]|]; [|by apply elem_of_nil in Hf].
      apply list_elem_of_singleton in Hf. subst e. simpl in Hp. injection Hp as <-.
      apply Hpost.
Qed.

(** X3.  The cache heals itself: once a lookup has found an element, the
    next lookup of the same role key among the same candidates, on a page
    where the found locator still resolves, waits on that locator only and
    leaves the cache and the cache file as they are. *)
Theorem X3_next_lookup_probes_once (cache_key : pystr) (selectors : list pystr)
    (timeout : Z) (clickable : bool) (b : B) (d : gmap pystr pyval) (f : file)
    (el : element) (selector : pystr) (s1 : session B) (t1 : list event)
    (el2 : element) (b2 : B) :
  find_element_with_cache cache_key selectors timeout clickable
    {| s_driver := b; s_cache := VDict d; s_file := f |}
  = (Ret (Some (el, selector)), s1, t1) ->
  wait_until (s_driver s1) timeout clickable XPATH selector = (Some el2, b2) ->
  find_element_with_cache cache_key selectors timeout clickable s1
  = (Ret (Some (el2, selector)), with_driver s1 b2,
     [probe timeout clickable selector true; Log DEBUG (CachedSelectorUsed cache_key)]).
Proof.
  intros Hfirst Hw.
  destruct (find_element_with_cache_post cache_key selectors timeout clickable b d f)
    as (r & b' & f' & tr & Hrun & Hpost & _).
  rewrite Hrun in Hfirst. injection Hfirst as -> <- <-.
  destruct Hpost as [Hin _]. cbn [s_driver] in Hw.
  rewrite find_element_with_cache_run. unfold cached_candidate.
  rewrite lookup_insert_eq, (resolved_nonempty _ _ _ _ _ _ _ Hw),
    bool_decide_eq_true_2 by done.
  cbn [andb]. by rewrite Hw.
Qed.

(** X4.  A locator learnt in one session is there in the next one: when a
    lookup finds an element under a locator that the cache did not hold
    for the role key, and the cache file can be written, the file then
    holds the updated cache, and [load_selector_cache] reads exactly that
    cache back. *)
Theorem X4_learnt_locator_is_persisted (cache_key : pystr) (selectors : list pystr)
    (timeout : Z) (clickable : bool) (b : B) (d : gmap pystr pyval) (f : file)
    (el : element) (selector : pystr) (s1 : session B) (t1 : list event) :
  find_element_with_cache cache_key selectors timeout clickable
    {| s_driver := b; s_cache := VDict d; s_file := f |}
  = (Ret (Some (el, selector)), s1, t1) ->
  d !! cache_key <> Some (VStr selector) ->
  f_writable f = true ->
  s_cache s1 = VDict (<[cache_key := VStr selector]> d) /\
  load_selector_cache (s_file s1)
  = (Ret (s_cache s1), s_file s1,
     [Log INFO (CacheLoaded (size (<[cache_key := VStr selector]> d)))]).
Proof.
  intros Hfirst Hnew Hw.
  destruct (find_element_with_cache_post cache_key selectors timeout clickable b d f)
    as (r & b' & f' & tr & Hrun & Hpost & _).
  rewrite Hrun in Hfirst. injection Hfirst as -> <- <-.
  destruct Hpost as [_ [[Hold _] | ->]]; [done|].
  split; [done|]. cbn [s_file s_cache]. unfold saved_file. by rewrite Hw.
Qed.

(** X5.  A cache file that holds a JSON array or string is not rejected by
    [load_selector_cache]: it is returned as the cache.  With such a cache
    (with any cache that is not a dict) every lookup raises
    [AttributeError] before the driver is asked anything, and so does
    [_submit], after its first two log records. *)
Theorem X5_cache_that_is_no_dict_breaks_lookups (v : pyval) (b : B) (f : file) (wr : bool) :
  match v with
  | VList _ | VStr _ =>
      exists n,
        load_selector_cache {| f_state := Json v; f_writable := wr |}
        = (Ret v, {| f_state := Json v; f_writable := wr |}, [Log INFO (CacheLoaded n)])
  | _ => True
  end /\
  match v with
  | VDict _ => True
  | _ =>
      (forall cache_key selectors timeout clickable,
         find_element_with_cache cache_key selectors timeout clickable
           {| s_driver := b; s_cache := v; s_file := f |}
         = (Raise AttributeError, {| s_driver := b; s_cache := v; s_file := f |}, [])) /\
      _submit {| s_driver := b; s_cache := v; s_file := f |}
      = (Raise AttributeError, {| s_driver := b; s_cache := v; s_file := f |},
         [Log INFO SubmitStart; Log INFO SubmitStepOne])
  end.
Proof.
  split.
  - destruct v as [|x|n|s|l|d]; try exact I; eexists; reflexivity.
  - destruct v as [|x|n|s|l|d]; try exact I; split; reflexivity.
Qed.

End WithBrowser.

Lemma X3_next_lookup_probes_once_witness :
  find_element_with_cache (u "k") [u "a"; u "b"] 5 false session_on_b_learnt
  = (Ret (Some (1, u "b")), session_on_b_learnt,
     [probe 5 false (u "b") true; Log DEBUG (CachedSelectorUsed (u "k"))]).
Proof.
  exact (X3_next_lookup_probes_once (u "k") [u "a"; u "b"] 5 false
           [u "b"] ∅ fresh_cache_file 1 (u "b") session_on_b_learnt
           [probe 5 false (u "a") false; probe 5 false (u "b") true;
            WriteSelectorCache true; Log DEBUG (CacheSaved 1);
            Log INFO (SelectorCached (u "k") (u "b"))]
           1 [u "b"] eq_refl eq_refl).
Defined.

Lemma X4_learnt_locator_is_persisted_witness :
  s_cache session_on_b_learnt = VDict (<[ u "k" := VStr (u "b") ]> ∅) /\
  load_selector_cache (s_file session_on_b_learnt)
  = (Ret (s_cache session_on_b_learnt), s_file session_on_b_learnt,
     [Log INFO (CacheLoaded (size (<[ u "k" := VStr (u "b") ]> (∅ : gmap pystr pyval))))]).
Proof.
  apply (X4_learnt_locator_is_persisted (u "k") [u "a"; u "b"] 5 false
           [u "b"] ∅ fresh_cache_file 1 (u "b") session_on_b_learnt
           [probe 5 false (u "a") false; probe 5 false (u "b") true;
            WriteSelectorCache true; Log DEBUG (CacheSaved 1);
            Log INFO (SelectorCached (u "k") (u "b"))]).
  - reflexivity.
  - by rewrite lookup_empty.
  - reflexivity.
Defined.

End LookupProofs.

(** ** Uploading the cover                                                  *)

Module UploadFacts.
Import SelectorSpec SelectorFacts ToutiaoFacts LookupFacts.

(** Runs the binds, returns and log records at the head of a program and
    leaves its [try] blocks folded. *)
Ltac step :=
  repeat (progress (rewrite ?bind_unfold, ?ret_run, ?raise_run, ?log_run, ?emit_run;
                    rewrite ?sleep_run by reflexivity; cbv beta iota)).

(** A [try] block whose handler catches everything and returns, returns. *)
Lemma try_except_any_returns {St A} (c : M St A) (handler : exn -> M St A) (s : St) :
  (forall e s0, exists a s' t, handler e s0 = (Ret a, s', t)) ->
  exists a s' t, try_except c any_exception handler s = (Ret a, s', t).
Proof.
  intros Hh. rewrite try_except_unfold.
  destruct (c s) as [[[a|e] s1] t1]; [by eauto|].
  cbn [any_exception]. destruct (Hh e s1) as (a & s' & t & ->). by eauto.
Qed.

Section WithBrowser.
Context {B : Type} `{Browser B}.

#[local] Hint Rewrite (@driver_execute_script_run B _) : run.

(** Selecting the single-cover mode keeps the cache a dict; it raises only
    when the click on the option that was found raises. *)
Lemma _ensure_single_cover_mode_post (b : B) d f :
  exists r b' d' f' tr,
    _ensure_single_cover_mode {| s_driver := b; s_cache := VDict d; s_file := f |}
    = (r, {| s_driver := b'; s_cache := VDict d'; s_file := f' |}, tr) /\
    (r = Ret tt \/
     r = Raise WebDriverException /\
     exists el tr', tr = tr' ++ [Driver (ExecuteScript ClickScript el None) false]).
Proof.
  unfold _ensure_single_cover_mode. run.
  destruct (find_element_with_cache_post (u "single_cover_mode") single_cover_candidates
              5 false b d f) as (r & b' & f' & tr & -> & _).
  destruct r as [[el selector]|]; run.
  - cbn [s_driver]. destruct (execute_script b' ClickScript el None) as [[] b2]; run.
    + do 5 eexists. split; [reflexivity | by left].
    + do 5 eexists. split; [reflexivity|]. right. split; [done|]. by eauto.
  - do 5 eexists. split; [reflexivity | by left].
Qed.

End WithBrowser.
End UploadFacts.

Module UploadProofs.
Import SelectorSpec SelectorFacts ToutiaoFacts LookupFacts UploadFacts.

Section WithBrowser.
Context {B : Type} `{Browser B}.

(** X6.  Failing to upload the cover does not stop [publish].  With a dict
    as cache, [_upload_cover_image] raises only when the single-cover
    option was found and the click on it raised; in every other case, and
    whatever the page answers to the searches for the file input and for
    the upload area, to the key strokes and to the other clicks, it returns
    normally, so [publish] goes on to [_submit] with or without a cover. *)
Theorem X6_cover_upload_failure_is_not_fatal (image_path : pystr) (b : B)
    (d : gmap pystr pyval) (f : file) :
  match _ensure_single_cover_mode {| s_driver := b; s_cache := VDict d; s_file := f |} with
  | (Raise e, s1, t1) =>
      e = WebDriverException /\
      (exists el tr', t1 = tr' ++ [Driver (ExecuteScript ClickScript el None) false]) /\
      _upload_cover_image image_path {| s_driver := b; s_cache := VDict d; s_file := f |}
      = (Raise e, s1, Log INFO (UploadCover (abspath image_path)) :: t1)
  | (Ret _, _, _) =>
      exists s' tr,
        _upload_cover_image image_path {| s_driver := b; s_cache := VDict d; s_file := f |}
        = (Ret tt, s', tr)
  end.
Proof.
  unfold _upload_cover_image.
  destruct (_ensure_single_cover_mode_post b d f)
    as (r & b1 & d1 & f1 & t1 & Hmode & Hr).
  rewrite Hmode. destruct Hr as [-> | (-> & Hclick)].
  2:{ split; [done|]. split; [done|]. step. rewrite Hmode. by step. }
  step. rewrite Hmode. step.
  destruct (find_element_with_cache_post (u "cover_upload_input") cover_input_selectors
              5 false b1 d1 f1) as (r & b2 & f2 & t2 & -> & _).
  assert (Hsecond : forall (c : M (session B) bool) (s : session B), exists s' tr,
            (returned <- try_except c any_exception
                           (fun _ => log WARNING ClickUploadFailed ;; ret false) ;;
             if returned : bool then ret tt else log WARNING CoverUploadSkipped) s
            = (Ret tt, s', tr)).
  { intros c s. step.
    destruct (try_except_any_returns c
                (fun _ => log WARNING ClickUploadFailed ;; ret false) s)
      as (a & s' & t & ->).
    { intros e s0. step. by eauto. }
    destruct a; step; by eauto. }
  destruct r as [[input_el selector]|]; step.
  - match goal with
    | |- context [try_except ?c any_exception ?h ?s] =>
        destruct (try_except_any_returns c h s) as (a & s' & t & ->)
    end.
    { intros e s0. step. by eauto. }
    destruct a; step; [by eauto|].
    match goal with
    | |- context [try_except ?c any_exception _ ?s] =>
        destruct (Hsecond c s) as (s'' & tr & Hs)
    end.
    rewrite bind_unfold in Hs.
    match type of Hs with
    | match ?x with _ => _ end = _ => destruct x as [[[a|e] s3] t3]; [|done]
    end.
    revert Hs. destruct a; step; by eauto.
  - match goal with
    | |- context [try_except ?c any_exception _ ?s] =>
        destruct (Hsecond c s) as (s'' & tr & Hs)
    end.
    rewrite bind_unfold in Hs.
    match type of Hs with
    | match ?x with _ => _ end = _ => destruct x as [[[a|e] s3] t3]; [|done]
    end.
    revert Hs. destruct a; step; by eauto.
Qed.

End WithBrowser.
End UploadProofs.

(** ** More on the published-record file                                    *)

Module RecordRoundTrip.
Import RecordSpec RecordFacts PipelineSpec PipelineFacts PublishFacts QueueProofs.

Lemma py_eqb_refl x : hashable x = true -> py_eqb x x = true.
Proof. intros Hx. by apply py_eqb_key. Qed.

Lemma set_mem_add_old x y s : set_mem x s = true -> set_mem x (set_add y s) = true.
Proof.
  intros Hm. unfold set_add. destruct (set_mem y s); [done|].
  unfold set_mem in *. by rewrite existsb_app, Hm.
Qed.

Lemma set_mem_add_new y s : hashable y = true -> set_mem y (set_add y s) = true.
Proof.
  intros Hy. unfold set_add. destruct (set_mem y s) eqn:Hm; [done|].
  unfold set_mem. rewrite existsb_app. cbn. by rewrite py_eqb_refl, orb_true_r.
Qed.

Lemma set_add_elem x y s : x ∈ set_add y s -> x ∈ s \/ x = y.
Proof.
  unfold set_add. destruct (set_mem y s); [by left|].
  intros Hx. apply elem_of_app in Hx as [Hx | Hx]; [by left|].
  right. by apply list_elem_of_singleton in Hx.
Qed.

Lemma set_add_keeps x y s : x ∈ s -> x ∈ set_add y s.
Proof.
  intros Hx. unfold set_add. destruct (set_mem y s); [done|].
  apply elem_of_app. by left.
Qed.

Lemma set_add_str_member url s : pyset_ok s -> VStr url ∈ set_add (VStr url) s.
Proof.
  intros Hok. destruct (set_add_member (VStr url) s eq_refl Hok) as (y & Hy & Hk).
  destruct y as [|[]| | | |]; simpl in Hk; try discriminate. by injection Hk as ->.
Qed.

(** [set(items)] of hashable items returns: each item is in the set, and
    the set holds nothing else. *)
Lemma set_of_list_members {St} items : forall acc (s0 : St),
  Forall (fun v => hashable v = true) items ->
  exists s, set_of_list items acc s0 = (Ret s, s0, []) /\
            (forall x, x ∈ s -> x ∈ acc \/ x ∈ items) /\
            (forall x, set_mem x acc = true \/ x ∈ items -> set_mem x s = true).
Proof.
  induction items as [|y rest IH]; intros acc s0 Hh.
  - exists acc. split; [done|]. split; [by left|].
    intros x [Hx | Hx]; [done | by apply elem_of_nil in Hx].
  - inversion Hh as [|? ? Hy Hrest]; subst.
    destruct (IH (set_add y acc) s0 Hrest) as (s & Hrun & Hsub & Hmem).
    exists s. cbn [set_of_list]. unfold set_insert. rewrite Hy. run. rewrite Hrun.
    split; [done|]. split.
    + intros x Hx. destruct (Hsub x Hx) as [Ha | Hr]; [|right; by right].
      destruct (set_add_elem _ _ _ Ha) as [? | ->]; [by left | right; left].
    + intros x [Hx | Hx]; apply Hmem.
      * left. by apply set_mem_add_old.
      * apply elem_of_cons in Hx as [-> | Hx]; [|by right].
        left. by apply set_mem_add_new.
Qed.

Lemma apply_limit_prefix {A} (limit : option Z) (items : list A) :
  apply_limit limit items `prefix_of` items.
Proof.
  unfold apply_limit, slice_to. destruct limit as [n|]; [|done].
  destruct (n =? 0)%Z; [done|]. destruct (0 <=? n)%Z; apply prefix_take.
Qed.

Lemma unpublished_elem published item hot_searches :
  item ∈ unpublished published hot_searches ->
  item ∈ hot_searches /\ set_mem (url_value item) published = false.
Proof.
  induction hot_searches as [|x rest IH]; cbn [unpublished].
  - intros Hx. by apply elem_of_nil in Hx.
  - destruct (set_mem (url_value x) published) eqn:Hm; cbn [negb].
    + intros Hx. destruct (IH Hx). split; [by right | done].
    + intros Hx. apply elem_of_cons in Hx as [-> | Hx]; [split; [left | done]|].
      destruct (IH Hx). split; [by right | done].
Qed.

Section WithOrder.
Context `{SetOrder}.

(** X7.  What [save_published_record] writes, [load_published_records]
    reads back: on a file that can be read and written, after the call the
    file holds the identifier and every record it held before, and nothing
    else. *)
Theorem X7_saved_record_is_read_back (url : pystr) (f f0 : file) (s : pyset)
    (t0 : list event) :
  load_published_records f = (Ret s, f0, t0) ->
  f_writable f = true ->
  exists f1 t1 s1,
    save_published_record url f = (Ret tt, f1, t1) /\
    load_published_records f1 = (Ret s1, f1, []) /\
    VStr url ∈ s1 /\
    (forall x, x ∈ s -> x ∈ s1) /\
    (forall x, x ∈ s1 -> x ∈ s \/ x = VStr url).
Proof.
  intros Hload Hw.
  destruct (load_published_records_run f) as (r & t & Hrun & Hok & _).
  rewrite Hrun in Hload. injection Hload as -> <- ->.
  specialize (Hok s eq_refl).
  pose proof (save_published_record_run url f) as Hsave. rewrite Hrun in Hsave.
  rewrite Hsave. unfold record_written. rewrite Hw.
  assert (Hadd : pyset_ok (set_add (VStr url) s)) by by apply set_add_ok.
  assert (Hp : set_order (set_add (VStr url) s) ≡ₚ set_add (VStr url) s)
    by apply set_order_perm.
  do 3 eexists. split; [reflexivity|]. split.
  { apply load_written. by apply (pyset_ok_perm _ _ Hp). }
  split; [|split].
  - rewrite Hp. by apply set_add_str_member.
  - intros x Hx. rewrite Hp. by apply set_add_keeps.
  - intros x Hx. rewrite Hp in Hx. by apply set_add_elem.
Qed.

(** X8.  A record file in the object form, with the list under ["urls"],
    is read as the set of that list; the next [save_published_record]
    rewrites the file as a plain array of these records and the new
    identifier, so the other members of the object are gone. *)
Theorem X8_object_form_is_rewritten_as_array (url : pystr) (d : gmap pystr pyval)
    (l : list pyval) :
  d !! urls_key = Some (VList l) ->
  Forall (fun v => hashable v = true) l ->
  exists s l1 t1,
    load_published_records {| f_state := Json (VDict d); f_writable := true |}
    = (Ret s, {| f_state := Json (VDict d); f_writable := true |}, []) /\
    (forall x, x ∈ l -> set_mem x s = true) /\
    (forall x, x ∈ s -> x ∈ l) /\
    save_published_record url {| f_state := Json (VDict d); f_writable := true |}
    = (Ret tt, {| f_state := Json (VList l1); f_writable := true |}, t1) /\
    l1 ≡ₚ set_add (VStr url) s.
Proof.
  intros Hd Hh.
  set (f := {| f_state := Json (VDict d); f_writable := true |}).
  destruct (set_of_list_members l [] f Hh) as (s & Hset & Hsub & Hmem).
  assert (Hload : load_published_records f = (Ret s, f, [])).
  { unfold load_published_records, bind, get, try_except, json_load. simpl.
    rewrite Hd. simpl. fold f. by rewrite Hset. }
  pose proof (save_published_record_run url f) as Hsave. rewrite Hload in Hsave.
  exists s, (set_order (set_add (VStr url) s)). eexists.
  split; [done|]. split; [intros x Hx; apply Hmem; by right|]. split.
  { intros x Hx. destruct (Hsub x Hx) as [Hn | ?]; [by apply elem_of_nil in Hn | done]. }
  split; [by rewrite Hsave | apply set_order_perm].
Qed.

End WithOrder.

Section WithCollaborators.
Context {E P : Type} `{Services E} `{Publisher P} `{SetOrder}.

(** X9.  A recorded identifier is not processed again: once
    [save_published_record] has run on a record file that can be read and
    written, the queue that a run with [skip_published] builds holds no
    entry with that [url], whatever the limit; its entries are entries of
    the input. *)
Theorem X9_recorded_url_is_skipped_on_resume (url : pystr)
    (hot_searches : list work_item) (limit : option Z) (w : world E P)
    (s : pyset) (f0 : file) (t0 : list event) :
  load_published_records (records_file w) = (Ret s, f0, t0) ->
  f_writable (records_file w) = true ->
  exists w1 t1 queue w2 t2,
    on_records (save_published_record url) w = (Ret tt, w1, t1) /\
    work_queue hot_searches limit true w1 = (Ret queue, w2, t2) /\
    forall item, item ∈ queue -> item_url item <> Some url /\ item ∈ hot_searches.
Proof.
  intros Hload Hw.
  destruct (load_published_records_run (records_file w)) as (r & t & Hrun & Hok & _).
  rewrite Hrun in Hload. injection Hload as -> <- ->.
  specialize (Hok s eq_refl).
  pose proof (save_published_record_run url (records_file w)) as Hsave.
  rewrite Hrun in Hsave.
  assert (Hadd : pyset_ok (set_add (VStr url) s)) by by apply set_add_ok.
  set (l1 := set_order (set_add (VStr url) s)).
  assert (Hp : l1 ≡ₚ set_add (VStr url) s) by apply set_order_perm.
  assert (Hok1 : pyset_ok l1) by by apply (pyset_ok_perm _ _ Hp).
  assert (Hmem : set_mem (VStr url) l1 = true).
  { apply set_mem_key; [done | apply Hok1 |].
    apply (list_elem_of_fmap_2 key). rewrite Hp. by apply set_add_str_member. }
  rewrite on_records_run, Hsave. unfold record_written. rewrite Hw. fold l1.
  do 2 eexists.
  exists (apply_limit limit (unpublished l1 hot_searches)). do 2 eexists.
  split; [reflexivity|]. split.
  { apply work_queue_run. rewrite on_records_run. cbn [records_file with_records].
    rewrite (load_written l1 true Hok1). reflexivity. }
  intros item Hitem.
  assert (Hin : item ∈ unpublished l1 hot_searches).
  { destruct (apply_limit_prefix limit (unpublished l1 hot_searches)) as [rest Hrest].
    rewrite Hrest. apply elem_of_app. by left. }
  apply unpublished_elem in Hin as [Hin Hnot]. split; [|done].
  intros Hurl. unfold url_value in Hnot. rewrite Hurl in Hnot. congruence.
Qed.

End WithCollaborators.
End RecordRoundTrip.

(** ** More on the work loops                                               *)

Module RunFacts.
Import RecordSpec RecordFacts PipelineSpec PipelineFacts PublishFacts RunSpec.

Lemma count_app (p : event -> bool) t1 t2 :
  length (List.filter p (t1 ++ t2)) = length (List.filter p t1) + length (List.filter p t2).
Proof. by rewrite List.filter_app, length_app. Qed.

Lemma count_none (p q : event -> bool) tr :
  (forall e, q e = true -> p e = false) -> forallb q tr = true ->
  length (List.filter p tr) = 0.
Proof.
  intros Hpq. induction tr as [|e tr IH]; [done|]. cbn [forallb].
  intros Hq. apply andb_true_iff in Hq as [He Ht]. cbn. rewrite (Hpq e He). by apply IH.
Qed.

Lemma quiet_not_publish e : quiet e = true -> is_publish e = false.
Proof. by destruct e. Qed.

Lemma quiet_not_published e : quiet e = true -> is_published e = false.
Proof. by destruct e. Qed.

Lemma quiet_not_write e : quiet e = true -> is_record_write e = false.
Proof. by destruct e. Qed.

Lemma warnings_quiet tl :
  Forall (fun e => is_log WARNING e = true) tl -> forallb quiet tl = true.
Proof.
  induction 1 as [|e tl He _ IH]; [done|]. cbn [forallb]. rewrite IH. by destruct e.
Qed.

Lemma removal_events_quiet {E P} (w : world E P) cover_path evs :
  forallb quiet evs = true -> forallb quiet (removal_events w cover_path evs) = true.
Proof.
  intros Hq. unfold removal_events. destruct (removable w cover_path) as [p|]; [|done].
  by destruct (bool_decide (p ∈ undeletable w)).
Qed.

Lemma pause_events_quiet seconds evs :
  forallb quiet evs = true -> forallb quiet (pause_events seconds evs) = true.
Proof. intros Hq. unfold pause_events. by destruct (Qle_bool 0 seconds). Qed.

Lemma count_removal (p : event -> bool) {E P} (w : world E P) cover_path evs :
  (forall e, quiet e = true -> p e = false) -> forallb quiet evs = true ->
  length (List.filter p (removal_events w cover_path evs)) = 0.
Proof.
  intros Hp Hq. apply (count_none p quiet); [done|]. by apply removal_events_quiet.
Qed.

Lemma count_pause (p : event -> bool) seconds evs :
  (forall e, quiet e = true -> p e = false) -> forallb quiet evs = true ->
  length (List.filter p (pause_events seconds evs)) = 0.
Proof.
  intros Hp Hq. apply (count_none p quiet); [done|]. by apply pause_events_quiet.
Qed.

Section WithCollaborators.
Context {E P : Type} `{Services E} `{Publisher P} `{SetOrder}.

(** The [try] block of the loop body returns; it calls [publish] at most
    once and writes the record file at most as often as [publish]
    returned. *)
Lemma publish_article_counts cfg title article_content url (w : world E P) :
  exists w' tr,
    publish_article cfg title article_content url w = (Ret tt, w', tr) /\
    length (List.filter is_publish tr) <= 1 /\
    length (List.filter is_record_write tr) <= length (List.filter is_published tr).
Proof.
  destruct (cover_step_quiet (cover_mode cfg) title article_content w)
    as ([cover_path|] & w1 & tc & Hcover & Hq & _ & _).
  - rewrite (PublishProofs.publish_article_run _ _ _ _ _ _ _ _ Hcover).
    pose proof (count_none is_publish quiet tc quiet_not_publish Hq) as Hc1.
    pose proof (count_none is_published quiet tc quiet_not_published Hq) as Hc2.
    pose proof (count_none is_record_write quiet tc quiet_not_write Hq) as Hc3.
    destruct (publisher_publish (publisher w1) title (markdown_to_html article_content)
                cover_path true) as [[] p].
    + destruct (load_published_records_run (records_file w1)) as (r & tl & Hrun & _ & Hw).
      rewrite Hrun. apply warnings_quiet in Hw.
      pose proof (count_none is_publish quiet tl quiet_not_publish Hw) as Hl1.
      pose proof (count_none is_published quiet tl quiet_not_published Hw) as Hl2.
      pose proof (count_none is_record_write quiet tl quiet_not_write Hw) as Hl3.
      destruct r as [s|e]; do 2 eexists; (split; [reflexivity|]);
        rewrite !count_app; cbn [List.filter is_publish is_published is_record_write length];
        rewrite ?count_app; cbn [List.filter is_publish is_published is_record_write length];
        rewrite ?count_app; cbn [List.filter is_publish is_published is_record_write length];
        rewrite ?Hc1, ?Hc2, ?Hc3, ?Hl1, ?Hl2, ?Hl3;
        rewrite ?(count_removal is_publish), ?(count_removal is_published),
          ?(count_removal is_record_write), ?(count_pause is_publish),
          ?(count_pause is_published), ?(count_pause is_record_write)
          by (done || apply quiet_not_publish || apply quiet_not_published
              || apply quiet_not_write);
        unfold record_events; destruct (f_writable (records_file w1)); simpl; lia.
    + do 2 eexists. split; [reflexivity|].
      rewrite !count_app, Hc1, Hc2, Hc3. simpl. lia.
  - rewrite (PublishProofs.publish_article_skipped _ _ _ _ _ _ _ Hcover).
    do 2 eexists. split; [reflexivity|].
    rewrite (count_none is_publish quiet tc quiet_not_publish Hq),
      (count_none is_record_write quiet tc quiet_not_write Hq). lia.
Qed.

(** One pass of the loop body with a publisher, whatever its outcome: it
    ends with an exception only when [call_deepseek_api] raised it. *)
Lemma process_item_counts cfg delay_seconds n idx item (w : world E P) :
  match process_item cfg true delay_seconds n idx item w with
  | (r, _, tr) =>
      length (List.filter is_publish tr) <= 1 /\
      length (List.filter is_record_write tr) <= length (List.filter is_published tr) /\
      (r = Ret tt \/
       exists x e,
         call_deepseek_api (services w) (field (item_title item))
           (Some (field (item_url item))) = (Raise x, e) /\
         r = Raise x)
  end.
Proof.
  rewrite PublishProofs.process_item_run. cbv zeta.
  destruct (negb (nonempty (field (item_title item))) ||
            negb (nonempty (field (item_url item)))).
  { simpl. split; [lia|]. split; [lia | by left]. }
  destruct (call_deepseek_api (services w) (field (item_title item)) _)
    as [[full_article|x] e].
  2:{ simpl. split; [lia|]. split; [lia|]. right. by exists x, e. }
  destruct (Shaping.extract_title_and_content full_article) as [title article_content].
  destruct (negb (nonempty article_content)).
  { simpl. split; [lia|]. split; [lia | by left]. }
  match goal with
  | |- context [publish_article cfg ?t ?a ?u ?w0] =>
      destruct (publish_article_counts cfg t a u w0) as (w' & tr & -> & Hp & Hw)
  end.
  cbn [List.filter is_publish is_published is_record_write].
  split; [done|]. split; [done | by left].
Qed.

(** One pass of the loop body without a publisher, whatever its outcome. *)
Lemma process_item_offline cfg delay_seconds n idx item (w : world E P) :
  match process_item cfg false delay_seconds n idx item w with
  | (_, w', tr) =>
      forallb offline tr = true /\ publisher w' = publisher w /\
      records_file w' = records_file w /\ files w' = files w
  end.
Proof.
  rewrite PublishProofs.process_item_run. cbv zeta.
  destruct (negb (nonempty (field (item_title item))) ||
            negb (nonempty (field (item_url item)))); [done|].
  destruct (call_deepseek_api (services w) (field (item_title item)) _)
    as [[full_article|x] e]; [|done].
  destruct (Shaping.extract_title_and_content full_article) as [title article_content].
  destruct (negb (nonempty article_content)); [done|].
  run. rewrite call_service_run. cbn [fst snd services with_services].
  destruct (save_article_to_file e _ _ _) as [[] e2]; cbn [fst snd]; run; [|done].
  rewrite sleep_unfold. by destruct (Qle_bool 0 delay_seconds).
Qed.

End WithCollaborators.

(** The text of a failed request gives no title and no body. *)
Lemma extract_blank text :
  strip text = [] -> Shaping.extract_title_and_content text = (Some [], []).
Proof. intros Hb. unfold Shaping.extract_title_and_content. by rewrite Hb. Qed.

End RunFacts.

Module RunProofs.
Import RecordSpec RecordFacts PipelineSpec PipelineFacts PublishFacts RunSpec RunFacts.

Section WithCollaborators.
Context {E P : Type} `{Services E} `{Publisher P} `{SetOrder}.

(** X10.  With a publisher, only [call_deepseek_api] can stop the loop of
    [process_hot_searches]: the run returns after the last entry whatever
    the image service, the publisher and the files do, and when it ends
    with an exception instead, that exception was raised by
    [call_deepseek_api] on the title and url of an entry of the queue.
    Either way [publish] is called at most once per entry, and over the
    whole run the record file is written at most as often as [publish]
    returned. *)
Theorem X10_only_the_text_service_stops_a_publishing_run (cfg : publish_config)
    (delay_seconds : Q) (queue : list work_item) (w : world E P) :
  match process_queue cfg true delay_seconds queue w with
  | (r, _, tr) =>
      length (List.filter is_publish tr) <= length queue /\
      length (List.filter is_record_write tr) <= length (List.filter is_published tr) /\
      (r = Ret tt \/
       exists x item e e',
         item ∈ queue /\
         call_deepseek_api e (field (item_title item)) (Some (field (item_url item)))
         = (Raise x, e') /\
         r = Raise x)
  end.
Proof.
  assert (Hloop : forall n items idx (w0 : world E P),
            match for_each (process_item cfg true delay_seconds n) idx items w0 with
            | (r, _, tr) =>
                length (List.filter is_publish tr) <= length items /\
                length (List.filter is_record_write tr)
                <= length (List.filter is_published tr) /\
                (r = Ret tt \/
                 exists x item e e',
                   item ∈ items /\
                   call_deepseek_api e (field (item_title item))
                     (Some (field (item_url item))) = (Raise x, e') /\
                   r = Raise x)
            end).
  { intros n items. induction items as [|item rest IH]; intros idx w0.
    - simpl. split; [lia|]. split; [lia | by left].
    - cbn [for_each]. run.
      pose proof (process_item_counts cfg delay_seconds n idx item w0) as Hitem.
      destruct (process_item cfg true delay_seconds n idx item w0) as [[[[]|x] w1] t1].
      + destruct Hitem as (Hp & Hw & _). specialize (IH (S idx) w1).
        destruct (for_each _ (S idx) rest w1) as [[r w2] t2].
        destruct IH as (Hp2 & Hw2 & Hr2). rewrite !count_app. cbn [length].
        split; [lia|]. split; [lia|].
        destruct Hr2 as [-> | (x & it & e & e' & Hin & Hcall & ->)]; [by left|].
        right. exists x, it, e, e'. split; [by right | done].
      + destruct Hitem as (Hp & Hw & [Hr | (x' & e & Hcall & Hr)]); [done|].
        cbn [length]. split; [lia|]. split; [lia|].
        right. exists x, item, (services w0), e. injection Hr as ->.
        split; [left | done]. }
  unfold process_queue. destruct queue as [|item rest].
  { simpl. split; [lia|]. split; [lia | by left]. }
  run. specialize (Hloop (length (item :: rest)) (item :: rest) 1 w).
  destruct (for_each _ 1 (item :: rest) w) as [[[[]|x] w'] tr]; run;
    destruct Hloop as (Hp & Hw & Hr);
    cbn [List.filter is_publish is_published is_record_write app];
    rewrite ?count_app; cbn [List.filter is_publish is_published is_record_write length];
    (split; [simpl in *; lia|]); (split; [simpl in *; lia|]); [by left|].
  destruct Hr as [Hr | Hr]; [done | by right].
Qed.

(** X11.  When the text service gives nothing back (the empty string of a
    failed request, or only blanks), the entry is given up with one
    warning: no cover is generated, nothing is published, recorded or
    saved, and no delay is slept, with or without a publisher. *)
Theorem X11_failed_generation_skips_the_entry (cfg : publish_config)
    (with_publisher : bool) (delay_seconds : Q) (n idx : nat) (item : work_item)
    (w : world E P) (topic url text : pystr) (e : E) :
  item_title item = Some topic -> nonempty topic = true ->
  item_url item = Some url -> nonempty url = true ->
  call_deepseek_api (services w) topic (Some url) = (Ret text, e) ->
  strip text = [] ->
  process_item cfg with_publisher delay_seconds n idx item w
  = (Ret tt, with_services w e,
     [Log INFO (GeneratingArticle idx n topic); GenerateText topic url;
      Log WARNING (GenerationFailed topic)]).
Proof.
  intros Ht Htn Hu Hun Hcall Hblank. rewrite PublishProofs.process_item_run. cbv zeta.
  rewrite Ht, Hu.
  change (field (Some topic)) with topic. change (field (Some url)) with url.
  rewrite Htn, Hun. cbn [negb orb]. by rewrite Hcall, (extract_blank _ Hblank).
Qed.

(** X12.  [publish_directory] does not leave the cover behind: once the
    cover of an article file has been generated, the file it was written
    to is gone when the loop body ends, whether [publish] returned or
    raised, unless [os.remove] itself fails on it. *)
Theorem X12_directory_run_removes_the_cover (mode : pystr) (delay_seconds : Q)
    (n idx : nat) (file_path title content_html raw_text cover_path : pystr)
    (w0 w1 : world E P) (e1 : E) (tc : list event) :
  extract_article (services w0) file_path
  = (Ret (Some (title, content_html, raw_text)), e1) ->
  cover_step mode title raw_text (with_services w0 e1)
  = (Ret (Some (Some cover_path)), w1, tc) ->
  nonempty cover_path = true ->
  (cover_path ∉ undeletable w1) ->
  Qle_bool 0 delay_seconds = true ->
  exists w' tr,
    publish_file mode delay_seconds n idx file_path w0 = (Ret tt, w', tr) /\
    (cover_path ∉ files w') /\
    length (List.filter is_publish tr) = 1.
Proof.
  intros Hx Hcover Hne Hdel Hdelay. unfold publish_file. run.
  rewrite call_raising_run, Hx. cbn [fst snd]. run. rewrite Hcover. run.
  pose proof (cover_step_quiet mode title raw_text (with_services w0 e1))
    as (r' & w1' & tc' & Hc' & Hq & _ & _).
  rewrite Hcover in Hc'. injection Hc' as <- <- <-.
  pose proof (count_none is_publish quiet tc quiet_not_publish Hq) as Hc1.
  assert (Hgone : forall w2 : world E P,
            undeletable w2 = undeletable w1 ->
            cover_path ∉ files (after_remove w2 (Some cover_path))).
  { intros w2 Hu. unfold after_remove, removable. rewrite Hne. cbn [andb].
    case_bool_decide as Hin; [|done].
    rewrite Hu, bool_decide_eq_false_2 by done. cbn [files].
    intros Hgone. apply elem_of_difference in Hgone as [_ Hgone]. apply Hgone.
    by apply elem_of_singleton. }
  rewrite do_publish_run.
  destruct (publisher_publish (publisher w1) title content_html (Some cover_path) true)
    as [[] p]; run.
  - rewrite (remove_cover_run _ _ [Log WARNING CoverRemoveFailed]) by done. run.
    do 2 eexists. split; [reflexivity|]. split; [by apply Hgone|].
    repeat (rewrite ?count_app; cbn [List.filter is_publish length app]).
    rewrite ?Hc1, ?(count_removal is_publish) by (done || apply quiet_not_publish).
    simpl. lia.
  - cbn [any_exception]. run.
    rewrite (remove_cover_run _ _ []) by done. run.
    do 2 eexists. split; [reflexivity|]. split; [by apply Hgone|].
    repeat (rewrite ?count_app; cbn [List.filter is_publish length app]).
    rewrite ?Hc1, ?(count_removal is_publish) by (done || apply quiet_not_publish).
    simpl. lia.
Qed.

(** X13.  Without a publisher the run only generates: it calls neither the
    image service nor [publish], removes no file, and leaves the record
    file, the publisher and the image files as they were; this holds also
    for a run that an error of [save_article_to_file] or of [time.sleep]
    ends early. *)
Theorem X13_generating_run_publishes_nothing (cfg : publish_config)
    (delay_seconds : Q) (queue : list work_item) (w : world E P) :
  match process_queue cfg false delay_seconds queue w with
  | (_, w', tr) =>
      forallb offline tr = true /\ publisher w' = publisher w /\
      records_file w' = records_file w /\ files w' = files w
  end.
Proof.
  assert (Hloop : forall n items idx (w0 : world E P),
            match for_each (process_item cfg false delay_seconds n) idx items w0 with
            | (_, w', tr) =>
                forallb offline tr = true /\ publisher w' = publisher w0 /\
                records_file w' = records_file w0 /\ files w' = files w0
            end).
  { intros n items. induction items as [|item rest IH]; intros idx w0; [done|].
    cbn [for_each]. run.
    pose proof (process_item_offline cfg delay_seconds n idx item w0) as Hitem.
    destruct (process_item cfg false delay_seconds n idx item w0) as [[[[]|e] w1] t1];
      [|done].
    specialize (IH (S idx) w1).
    destruct (for_each _ (S idx) rest w1) as [[r w2] t2].
    destruct Hitem as (Hq & Hp & Hr & Hf), IH as (Hq2 & Hp2 & Hr2 & Hf2).
    rewrite forallb_app, Hq, Hq2. by rewrite Hp2, Hr2, Hf2. }
  unfold process_queue. destruct queue as [|item rest]; [done|]. run.
  specialize (Hloop (length (item :: rest)) (item :: rest) 1 w).
  destruct (for_each _ 1 (item :: rest) w) as [[[[]|e] w'] tr]; run.
  - destruct Hloop as (Hq & ?). by rewrite !forallb_app, Hq.
  - destruct Hloop as (Hq & ?). by rewrite !forallb_app, Hq.
Qed.

End WithCollaborators.

(** X14.  Whatever the limit, the entries kept are a prefix of the list:
    the limit never reorders, adds or skips.  No limit and the limit 0 keep
    the whole list (0 is not "process nothing"); a positive limit keeps at
    most that many entries; a negative limit [-k] drops the last [k]. *)
Theorem X14_limit_keeps_a_prefix {A : Type} (limit : option Z) (items : list A) :
  apply_limit limit items `prefix_of` items /\
  match limit with
  | None => apply_limit limit items = items
  | Some n =>
      if (n =? 0)%Z then apply_limit limit items = items
      else if (0 <? n)%Z
           then length (apply_limit limit items) = Nat.min (Z.to_nat n) (length items)
           else length (apply_limit limit items) = length items - Z.to_nat (- n)
  end.
Proof.
  split; [apply RecordRoundTrip.apply_limit_prefix|].
  destruct limit as [n|]; [|done]. unfold apply_limit, slice_to.
  destruct (Z.eqb_spec n 0) as [->|Hn]; [done|].
  destruct (Z.ltb_spec 0 n), (Z.leb_spec 0 n); try lia; rewrite length_take; lia.
Qed.

End RunProofs.

(** ** The record file over a run                                           *)

Module GrowthProofs.
Import RecordSpec RecordFacts PipelineSpec PipelineFacts PublishFacts RecordRoundTrip RunSpec.

Section WithCollaborators.
Context {E P : Type} `{Services E} `{Publisher P} `{SetOrder}.

Lemma records_after_remove (w : world E P) cover_path :
  records_file (after_remove w cover_path) = records_file w.
Proof.
  unfold after_remove. destruct (removable w cover_path) as [p|]; [|done].
  by destruct (bool_decide (p ∈ undeletable w)).
Qed.

(** One pass of the loop body adds at most the [url] of its entry,
    whatever its outcome. *)
Lemma process_item_records cfg delay_seconds n idx item (w : world E P) s :
  holds (records_file w) s ->
  match process_item cfg true delay_seconds n idx item w with
  | (_, w', _) =>
      exists s',
        holds (records_file w') s' /\
        (forall x, x ∈ s -> x ∈ s') /\
        (forall x, x ∈ s' -> x ∈ s \/ x = VStr (field (item_url item)))
  end.
Proof.
  intros Hholds. rewrite PublishProofs.process_item_run. cbv zeta.
  destruct (negb (nonempty (field (item_title item))) ||
            negb (nonempty (field (item_url item)))).
  { exists s. split; [done|]. by auto. }
  destruct (call_deepseek_api (services w) (field (item_title item)) _)
    as [[full_article|x] e].
  2:{ exists s. split; [done|]. by auto. }
  destruct (Shaping.extract_title_and_content full_article) as [title article_content].
  destruct (negb (nonempty article_content)).
  { exists s. split; [done|]. by auto. }
  set (the_title := if Shaping.not_title title then field (item_title item)
                    else field title).
  set (url := field (item_url item)).
  destruct (cover_step_quiet (cover_mode cfg) the_title article_content (with_services w e))
    as ([cover_path|] & w1 & tc & Hcover & _ & Hrec & _).
  2:{ rewrite (PublishProofs.publish_article_skipped _ _ _ url _ _ _ Hcover).
      exists s. rewrite Hrec. split; [done|]. by auto. }
  rewrite (PublishProofs.publish_article_run _ _ _ url _ _ _ _ Hcover).
  cbn [records_file with_services] in Hrec. rewrite Hrec.
  destruct Hholds as (Hw & t & Hload).
  destruct (publisher_publish (publisher w1) the_title (markdown_to_html article_content)
              cover_path true) as [[] p].
  - rewrite Hload.
    destruct (load_published_records_run (records_file w)) as (r & t' & Hrun & Hok & _).
    rewrite Hrun in Hload. injection Hload as -> ->. specialize (Hok s eq_refl).
    assert (Hadd : pyset_ok (set_add (VStr url) s)) by by apply set_add_ok.
    pose proof (set_order_perm (set_add (VStr url) s)) as Hp.
    eexists. rewrite records_after_remove. cbn [records_file with_records with_publisher].
    unfold record_written. rewrite Hw. split; [|split].
    + split; [done|]. exists []. apply load_written. by apply (pyset_ok_perm _ _ Hp).
    + intros x Hx. rewrite Hp. by apply set_add_keeps.
    + intros x Hx. rewrite Hp in Hx. by apply set_add_elem.
  - exists s. cbn [records_file with_publisher].
    rewrite Hrec. split; [split; [done | by exists t]|]. by auto.
Qed.

(** X25.  Over a run with a publisher the record file only grows, and only
    by entries of the queue: when the file can be read and written at the
    start, it can at the end of the run, every record it held is still
    there, and each record that is new is the [url] of an entry of the
    queue.  This holds for every outcome of the run, also when an
    exception of [call_deepseek_api] ends it early. *)
Theorem X25_record_file_only_grows (cfg : publish_config) (delay_seconds : Q)
    (queue : list work_item) (w : world E P) (s : pyset) (f0 : file) (t0 : list event) :
  f_writable (records_file w) = true ->
  load_published_records (records_file w) = (Ret s, f0, t0) ->
  match process_queue cfg true delay_seconds queue w with
  | (_, w', _) =>
      f_writable (records_file w') = true /\
      exists s' t',
        load_published_records (records_file w') = (Ret s', records_file w', t') /\
        (forall x, x ∈ s -> x ∈ s') /\
        (forall x, x ∈ s' ->
           x ∈ s \/ exists item, item ∈ queue /\ x = VStr (field (item_url item)))
  end.
Proof.
  intros Hw Hload.
  assert (Hholds : holds (records_file w) s).
  { split; [done|]. exists t0.
    destruct (load_published_records_run (records_file w)) as (r & t & Hrun & _).
    rewrite Hrun in Hload. injection Hload as -> _ ->. done. }
  clear Hw Hload.
  assert (Hloop : forall n items idx (w0 : world E P) s0,
            holds (records_file w0) s0 ->
            match for_each (process_item cfg true delay_seconds n) idx items w0 with
            | (_, w', _) =>
                exists s',
                  holds (records_file w') s' /\
                  (forall x, x ∈ s0 -> x ∈ s') /\
                  (forall x, x ∈ s' ->
                     x ∈ s0 \/
                     exists item, item ∈ items /\ x = VStr (field (item_url item)))
            end).
  { intros n items. induction items as [|item rest IH]; intros idx w0 s0 Hh.
    - exists s0. split; [done|]. by auto.
    - cbn [for_each]. run.
      pose proof (process_item_records cfg delay_seconds n idx item w0 s0 Hh) as Hitem.
      destruct (process_item cfg true delay_seconds n idx item w0) as [[[[]|x] w1] t1];
        destruct Hitem as (s1 & Hh1 & Hkeep1 & Hnew1).
      + specialize (IH (S idx) w1 s1 Hh1).
        destruct (for_each _ (S idx) rest w1) as [[r w2] t2].
        destruct IH as (s2 & Hh2 & Hkeep2 & Hnew2).
        exists s2. split; [done|]. split; [by auto|].
        intros y Hy. destruct (Hnew2 y Hy) as [Hy1 | (it & Hit & ->)].
        * destruct (Hnew1 y Hy1) as [? | ->]; [by left|].
          right. exists item. split; [left | done].
        * right. exists it. split; [by right | done].
      + exists s1. split; [done|]. split; [done|].
        intros y Hy. destruct (Hnew1 y Hy) as [? | ->]; [by left|].
        right. exists item. split; [left | done]. }
  assert (Hend : forall (w' : world E P) s',
            holds (records_file w') s' ->
            (forall x, x ∈ s -> x ∈ s') ->
            (forall x, x ∈ s' ->
               x ∈ s \/ exists item, item ∈ queue /\ x = VStr (field (item_url item))) ->
            f_writable (records_file w') = true /\
            exists s'' t',
              load_published_records (records_file w') = (Ret s'', records_file w', t') /\
              (forall x, x ∈ s -> x ∈ s'') /\
              (forall x, x ∈ s'' ->
                 x ∈ s \/ exists item, item ∈ queue /\ x = VStr (field (item_url item)))).
  { intros w' s' (Hw' & t' & Hload') Hkeep Hnew. split; [done|]. by exists s', t'. }
  unfold process_queue. destruct queue as [|item rest].
  { run. apply (Hend w s); by auto. }
  run. specialize (Hloop (length (item :: rest)) (item :: rest) 1 w s Hholds).
  destruct (for_each _ 1 (item :: rest) w) as [[[[]|x] w'] tr]; run;
    destruct Hloop as (s' & Hh' & Hkeep & Hnew); by apply (Hend w' s').
Qed.

End WithCollaborators.
End GrowthProofs.

(** ** More on titles                                                       *)

Module TitleFacts.
Import Shaping ShapingSpec ShapingFacts.

(** [lstrip] drops a prefix of blanks and stops at the first other code
    point. *)
Lemma lstrip_split s :
  exists p, s = p ++ lstrip s /\ Forall (fun c => isspace c = true) p /\
            match lstrip s with
            | [] => True
            | c :: _ => isspace c = false
            end.
Proof.
  induction s as [|c r (p & Hp & Hs & Hh)]; [by exists []|].
  cbn [lstrip]. destruct (isspace c) eqn:Hc.
  - exists (c :: p). cbn [app]. split; [by rewrite <- Hp|]. split; [by constructor | done].
  - by exists [].
Qed.

Lemma lstrip_nonspace c r : isspace c = false -> lstrip (c :: r) = c :: r.
Proof. intros Hc. cbn [lstrip]. by rewrite Hc. Qed.

(** [rstrip] keeps the head of a string that starts with something other
    than a blank. *)
Lemma rstrip_head c r : isspace c = false -> exists r', rstrip (c :: r) = c :: r'.
Proof.
  intros Hc. unfold rstrip.
  destruct (lstrip_split (rev (c :: r))) as (p & Hp & Hs & _).
  destruct (lstrip (rev (c :: r))) as [|x xs] eqn:Hl using rev_ind.
  - rewrite app_nil_r in Hp. rewrite <- Hp in Hs. apply Forall_rev in Hs.
    rewrite rev_involutive in Hs. inversion Hs; congruence.
  - clear IHxs. cbn [rev] in Hp. rewrite app_assoc in Hp.
    apply app_inj_tail in Hp as [_ ->]. rewrite rev_unit. by eauto.
Qed.

Lemma strip_head s :
  strip s <> [] -> exists c r, strip s = c :: r /\ isspace c = false.
Proof.
  intros Hne. unfold strip in *.
  destruct (lstrip_split s) as (p & _ & _ & Hh).
  destruct (lstrip s) as [|c r]; [done|].
  destruct (rstrip_head c r Hh) as (r' & Hr). rewrite Hr. by eauto.
Qed.

Lemma strip_nonspace_head c r : isspace c = false -> exists r', strip (c :: r) = c :: r'.
Proof. intros Hc. unfold strip. rewrite lstrip_nonspace by done. by apply rstrip_head. Qed.

(** The first line of a text that starts with something other than a
    blank starts with it too. *)
Lemma split_nl_head c r :
  isspace c = false -> exists l ls, split_nl (c :: r) = (c :: l) :: ls.
Proof.
  intros Hc. cbn [split_nl].
  destruct (N.eqb_spec c newline) as [-> | _]; [discriminate|].
  destruct (split_nl r) as [|l ls]; by eauto.
Qed.

Lemma split_nl_nonempty s : split_nl s <> [].
Proof.
  destruct s as [|c r]; [done|]. cbn [split_nl].
  destruct (c =? newline)%N; [done|]. by destruct (split_nl r).
Qed.

(** What [extract_title_and_content] returns, by the title that the marker
    loop found. *)
Lemma extract_unfold text :
  extract_title_and_content text
  = let lines := split_nl (strip text) in
    let first_line := strip (List.hd [] lines) in
    match find_title_line 0 lines with
    | Some (c :: t, i) => (Some (c :: t), content_from i lines)
    | _ =>
        if (5 <? length first_line) && (length first_line <? 50)
        then (Some first_line, content_from 1 lines)
        else (Some (take 30 first_line), content_from 0 lines)
    end.
Proof.
  unfold extract_title_and_content. cbv zeta.
  pose proof (split_nl_nonempty (strip text)) as Hne.
  destruct (split_nl (strip text)) as [|first others]; [done|]. cbn [hd].
  destruct (find_title_line 0 (first :: others)) as [[[|c t] i]|];
    cbn [not_title nonempty negb]; try done;
    destruct (strip first) as [|c' t']; cbn [not_title nonempty negb length];
    try done;
    match goal with
    | |- context [(5 <? ?n) && (?n <? 50)] => destruct ((5 <? n) && (n <? 50))
    end; done.
Qed.

(** A text that is not blank gets a title that is not empty. *)
Lemma title_nonempty text :
  strip text <> [] ->
  exists c t, (extract_title_and_content text).1 = Some (c :: t).
Proof.
  intros Hne. rewrite extract_unfold. cbv zeta.
  destruct (find_title_line 0 (split_nl (strip text))) as [[[|c t] i]|] eqn:Hf;
    try (by eauto).
  all: destruct (strip_head text Hne) as (c0 & r0 & Hs & Hc0); rewrite Hs;
    destruct (split_nl_head c0 r0 Hc0) as (l & ls & ->); cbn [hd];
    destruct (strip_nonspace_head c0 l Hc0) as (r' & ->);
    destruct ((5 <? length (c0 :: r')) && (length (c0 :: r') <? 50)); by eauto.
Qed.

Lemma elem_of_rev (x : N) s : x ∈ rev s <-> x ∈ s.
Proof. rewrite !list_elem_of_In. symmetry. apply in_rev. Qed.

Lemma take_elem (x : N) n s : x ∈ take n s -> x ∈ s.
Proof.
  intros Hx. apply elem_of_take in Hx as (i & Hi & _). by eapply list_elem_of_lookup_2.
Qed.

(** The characters of the pieces come from the text. *)
Lemma lstrip_elem x s : x ∈ lstrip s -> x ∈ s.
Proof.
  destruct (lstrip_split s) as (p & Hp & _). intros Hx. rewrite Hp.
  apply elem_of_app. by right.
Qed.

Lemma strip_elem x s : x ∈ strip s -> x ∈ s.
Proof.
  unfold strip, rstrip. intros Hx. apply (proj1 (elem_of_rev _ _)) in Hx.
  apply lstrip_elem in Hx. apply (proj1 (elem_of_rev _ _)) in Hx. by apply lstrip_elem.
Qed.

Lemma remove_from_elem x old s : forall skip, x ∈ remove_from old skip s -> x ∈ s.
Proof.
  induction s as [|c r IH]; intros skip; cbn [remove_from]; [done|].
  destruct skip as [|k].
  - destruct (startswith old (c :: r)).
    + intros Hx. right. by eapply IH.
    + intros Hx. apply elem_of_cons in Hx as [-> | Hx]; [left | right; by eapply IH].
  - intros Hx. right. by eapply IH.
Qed.

Lemma split_nl_lines s : Forall (fun l => newline ∉ l) (split_nl s).
Proof.
  induction s as [|c r IH]; cbn [split_nl].
  - constructor; [|done]. apply not_elem_of_nil.
  - destruct (N.eqb_spec c newline) as [-> | Hc].
    + constructor; [apply not_elem_of_nil | done].
    + destruct (split_nl r) as [|l ls].
      * constructor; [|done]. intros Hx. apply list_elem_of_singleton in Hx. congruence.
      * inversion IH as [|? ? Hl Hls]; subst. constructor; [|done].
        intros Hx. apply elem_of_cons in Hx as [Hx | Hx]; [congruence | done].
Qed.

Lemma find_title_line_source lines : forall i t j,
  find_title_line i lines = Some (t, j) ->
  exists line, line ∈ lines /\ forall x, x ∈ t -> x ∈ line.
Proof.
  induction lines as [|line rest IH]; intros i t j; cbn [find_title_line]; [done|].
  cbv zeta. destruct (startswith marker_fullwidth (strip line)).
  { intros [= <- _]. exists line. split; [left|].
    intros x Hx. by apply strip_elem, remove_from_elem, strip_elem in Hx. }
  destruct (startswith marker_ascii (strip line)).
  { intros [= <- _]. exists line. split; [left|].
    intros x Hx. by apply strip_elem, remove_from_elem, strip_elem in Hx. }
  intros Hf. destruct (IH _ _ _ Hf) as (l & Hl & Hsub). exists l. split; [by right | done].
Qed.

End TitleFacts.

Module TitleProofs.
Import Shaping ShapingSpec ShapingFacts TitleFacts.

(** X15.  [extract_title_and_content] always returns a title, and the
    title is empty only for a text that is empty or all blanks, for which
    the body is empty too. *)
Theorem X15_title_is_empty_only_for_blank_text (text : pystr) :
  exists t,
    (extract_title_and_content text).1 = Some t /\
    (t = [] <-> strip text = []) /\
    (strip text = [] -> (extract_title_and_content text).2 = []).
Proof.
  destruct (strip text) as [|c r] eqn:Hs.
  - exists []. rewrite (RunFacts.extract_blank text Hs). by repeat split.
  - destruct (title_nonempty text) as (c' & t' & Ht); [by rewrite Hs|].
    exists (c' :: t'). split; [done|]. split; [split; discriminate | discriminate].
Qed.

(** X16.  The title never holds a line break, whatever the text. *)
Theorem X16_title_has_no_line_break (text : pystr) :
  match (extract_title_and_content text).1 with
  | Some t => newline ∉ t
  | None => False
  end.
Proof.
  rewrite extract_unfold. cbv zeta.
  pose proof (split_nl_lines (strip text)) as Hlines.
  pose proof (split_nl_nonempty (strip text)) as Hne.
  assert (Hfirst : newline ∉ strip (List.hd [] (split_nl (strip text)))).
  { destruct (split_nl (strip text)) as [|first others]; [done|]. cbn [hd].
    inversion Hlines; subst. intros Hx. by apply strip_elem in Hx. }
  destruct (find_title_line 0 (split_nl (strip text))) as [[[|c t] i]|] eqn:Hf.
  2:{ cbn [fst]. destruct (find_title_line_source _ _ _ _ Hf) as (line & Hl & Hsub).
      intros Hx. apply Hsub in Hx. rewrite Forall_forall in Hlines.
      by apply (Hlines line). }
  all: destruct ((5 <? _) && (_ <? 50)); cbn [fst]; try done;
    intros Hx; apply Hfirst; by eapply take_elem.
Qed.

(** X17.  Whenever the body is not empty the title is not empty either, so
    the loop of [process_hot_searches], which gives up an entry with an
    empty body, never has to fall back on the topic for the title. *)
Theorem X17_title_fallback_is_never_needed (text : pystr) :
  nonempty (extract_title_and_content text).2 = true ->
  not_title (extract_title_and_content text).1 = false.
Proof.
  intros Hbody.
  destruct (strip text) as [|c r] eqn:Hs.
  - by rewrite (RunFacts.extract_blank text Hs) in Hbody.
  - destruct (title_nonempty text) as (c' & t' & ->); [by rewrite Hs | done].
Qed.

End TitleProofs.

(** ** Markdown to HTML                                                     *)

Module TextFacts.
Import Shaping ShapingFacts TitleFacts.

Lemma lstrip_idem s : lstrip (lstrip s) = lstrip s.
Proof.
  destruct (lstrip_split s) as (_ & _ & _ & Hh).
  destruct (lstrip s) as [|c r]; [done|]. by apply lstrip_nonspace.
Qed.

Lemma rstrip_idem s : rstrip (rstrip s) = rstrip s.
Proof. unfold rstrip. by rewrite rev_involutive, lstrip_idem. Qed.

Lemma strip_idem s : strip (strip s) = strip s.
Proof.
  unfold strip. set (y := lstrip s).
  assert (Hl : lstrip (rstrip y) = rstrip y).
  { destruct (lstrip_split s) as (_ & _ & _ & Hh). fold y in Hh.
    destruct y as [|c r]; [done|].
    destruct (rstrip_head c r Hh) as (r' & ->). by apply lstrip_nonspace. }
  by rewrite Hl, rstrip_idem.
Qed.

(** A string that starts and ends with something other than a blank is
    its own [strip]. *)
Lemma rstrip_id s c : isspace c = false -> rstrip (s ++ [c]) = s ++ [c].
Proof.
  intros Hc. unfold rstrip. rewrite rev_unit, lstrip_nonspace by done.
  cbn [rev]. by rewrite rev_involutive.
Qed.

Lemma strip_id c s d :
  isspace c = false -> isspace d = false -> strip (c :: s ++ [d]) = c :: s ++ [d].
Proof.
  intros Hc Hd. unfold strip. rewrite lstrip_nonspace by done.
  exact (rstrip_id (c :: s) d Hd).
Qed.

(** A fixed point of [strip] that is not empty starts and ends with
    something other than a blank. *)
Lemma strip_fixed s :
  strip s = s -> s <> [] ->
  (exists c r, s = c :: r /\ isspace c = false) /\
  (exists front d, s = front ++ [d] /\ isspace d = false).
Proof.
  intros Hs Hne.
  destruct (strip_head s) as (c & r & Hcr & Hc); [by rewrite Hs|].
  rewrite Hs in Hcr. subst s. split; [by eauto|].
  destruct r as [|x r'] using rev_ind.
  { exists [], c. by auto. }
  clear IHr'. exists (c :: r'), x. split; [done|].
  destruct (isspace x) eqn:Hx; [|done]. exfalso.
  assert (Hr : rstrip (c :: r' ++ [x]) = rstrip (c :: r')).
  { unfold rstrip. change (c :: r' ++ [x]) with ((c :: r') ++ [x]).
    rewrite rev_unit. cbn [lstrip]. by rewrite Hx. }
  unfold strip in Hs. rewrite lstrip_nonspace in Hs by done. rewrite Hr in Hs.
  assert (Hlen : length (rstrip (c :: r')) <= length (c :: r')).
  { unfold rstrip. rewrite length_rev.
    destruct (lstrip_split (rev (c :: r'))) as (p & Hp & _).
    apply (f_equal length) in Hp. rewrite length_app, length_rev in Hp. lia. }
  apply (f_equal length) in Hs. cbn [length] in Hs, Hlen.
  rewrite length_app in Hs. cbn [length] in Hs. lia.
Qed.

(** Pieces of a text that holds no separator. *)
Lemma startswith_elem p s x : startswith (x :: p) s = true -> x ∈ s.
Proof.
  destruct s as [|c r]; cbn [startswith]; [done|].
  intros Hs. apply andb_true_iff in Hs as [Hc _]. apply N.eqb_eq in Hc. subst. left.
Qed.

Lemma split_from_all (P : N -> Prop) sep s : forall skip,
  Forall P s -> Forall (Forall P) (split_from sep skip s).
Proof.
  induction s as [|c r IH]; intros skip Hs; cbn [split_from].
  - by repeat constructor.
  - inversion Hs as [|? ? Hc Hr]; subst. destruct skip as [|k]; [|by apply IH].
    destruct (startswith sep (c :: r)).
    + constructor; [done | by apply IH].
    + specialize (IH 0 Hr). destruct (split_from sep 0 r) as [|piece pieces].
      * by repeat constructor.
      * inversion IH; subst. constructor; [by constructor | done].
Qed.

Lemma split_absent x sep s : x ∉ s -> split (x :: sep) s = [s].
Proof.
  unfold split. induction s as [|c r IH]; cbn [split_from]; [done|].
  intros Hx. apply not_elem_of_cons in Hx as [Hc Hr].
  destruct (startswith (x :: sep) (c :: r)) eqn:Hs.
  { apply startswith_elem in Hs. apply elem_of_cons in Hs as [-> | Hs]; done. }
  by rewrite (IH Hr).
Qed.

Lemma replace_absent x old new s : x ∉ s -> replace (x :: old) new s = s.
Proof.
  unfold replace. induction s as [|c r IH]; cbn [replace_from]; [done|].
  intros Hx. apply not_elem_of_cons in Hx as [Hc Hr].
  destruct (startswith (x :: old) (c :: r)) eqn:Hs.
  { apply startswith_elem in Hs. apply elem_of_cons in Hs as [-> | Hs]; done. }
  by rewrite (IH Hr).
Qed.

End TextFacts.

Module MarkdownProofs.
Import Shaping ShapingFacts TitleFacts TextFacts Markdown.

Lemma html_parts_blank blocks :
  Forall (Forall (fun c => isspace c = true)) blocks -> html_parts blocks = [].
Proof.
  induction 1 as [|block rest Hb _ IH]; [done|].
  cbn [html_parts]. cbv zeta. apply strip_nil_iff in Hb. by rewrite Hb.
Qed.

(** X18.  A text that is empty or all blanks gives the empty HTML: no
    element at all, not an empty paragraph. *)
Theorem X18_blank_markdown_gives_no_html (markdown_text : pystr) :
  Forall (fun c => isspace c = true) markdown_text ->
  markdown_to_html markdown_text = [].
Proof.
  intros Hb. unfold markdown_to_html. rewrite html_parts_blank; [done|].
  by apply split_from_all.
Qed.

(** X19.  [markdown_to_html] escapes nothing: a one-line text that is
    stripped and starts with none of ["#"], [">"] and ["*"] is copied as
    it is between [<p>] and [</p>], tags and ampersands included. *)
Theorem X19_paragraph_text_is_not_escaped (c : N) (rest : pystr) :
  strip (c :: rest) = c :: rest ->
  (newline ∉ c :: rest) ->
  c <> 35%N -> c <> 62%N -> c <> 42%N ->
  markdown_to_html (c :: rest) = u "<p>" ++ (c :: rest) ++ u "</p>".
Proof.
  intros Hs Hnl Hhash Hgt Hstar. unfold markdown_to_html, blank_line.
  rewrite split_absent by done. cbn [html_parts]. cbv zeta. rewrite Hs.
  cbn [nonempty negb join_nl]. unfold render_block.
  assert (Hh : forall p, startswith (35%N :: p) (c :: rest) = false).
  { intros p. cbn [startswith]. by destruct (N.eqb_spec 35 c). }
  assert (Hg : forall p, startswith (62%N :: p) (c :: rest) = false).
  { intros p. cbn [startswith]. by destruct (N.eqb_spec 62 c). }
  assert (Ha : forall p, startswith (42%N :: p) (c :: rest) = false).
  { intros p. cbn [startswith]. by destruct (N.eqb_spec 42 c). }
  change (u "### ") with [35; 35; 35; 32]%N. change (u "## ") with [35; 35; 32]%N.
  change (u "# ") with [35; 32]%N. change (u ">") with [62]%N.
  change (u "**") with [42; 42]%N.
  rewrite !Hh, Hg, Ha. cbn [andb]. cbv zeta. by rewrite replace_absent.
Qed.

Lemma X19_paragraph_text_is_not_escaped_witness :
  markdown_to_html (u "<b>A&B</b>") = u "<p><b>A&B</b></p>".
Proof.
  apply (X19_paragraph_text_is_not_escaped 60%N (u "b>A&B</b>")).
  - reflexivity.
  - vm_compute. intros Hx. by repeat (apply elem_of_cons in Hx as [Hx | Hx]; [discriminate|]);
      apply elem_of_nil in Hx.
  - discriminate.
  - discriminate.
  - discriminate.
Defined.

Lemma X18_blank_markdown_gives_no_html_witness :
  markdown_to_html [32; 10; 10; 9]%N = [].
Proof.
  apply X18_blank_markdown_gives_no_html. by repeat constructor.
Defined.

End MarkdownProofs.

(** ** Article files                                                        *)

Module ArticleFacts.
Import Shaping ShapingFacts TitleFacts TextFacts Markdown Articles.

Lemma splitlines_nil_iff s : splitlines s = [] <-> s = [].
Proof.
  split; [|by intros ->]. unfold splitlines. destruct s as [|c r]; [done|].
  cbn [splitlines_from andb]. destruct (is_linebreak c); [done|].
  by destruct (splitlines_from false r).
Qed.

(** The first line ends at the first line feed. *)
Lemma splitlines_first line rest :
  Forall (fun c => is_linebreak c = false) line ->
  splitlines (line ++ newline :: rest) = line :: splitlines rest.
Proof.
  unfold splitlines. induction 1 as [|c line Hc _ IH]; cbn [app splitlines_from andb].
  - done.
  - by rewrite Hc, IH.
Qed.

Lemma splitlines_single line :
  Forall (fun c => is_linebreak c = false) line -> line <> [] ->
  splitlines line = [line].
Proof.
  unfold splitlines. induction 1 as [|c line Hc Hl IH]; [done|]. intros _.
  cbn [splitlines_from andb]. rewrite Hc.
  destruct line as [|d line']; [done|]. by rewrite IH.
Qed.

Lemma join_nl_cons c l ls : join_nl ((c :: l) :: ls) = c :: join_nl (l :: ls).
Proof. by destruct ls. Qed.

(** Joining the lines of a text whose only line boundaries are line feeds,
    and which does not end with one, gives the text back. *)
Lemma join_splitlines s :
  Forall (fun c => is_linebreak c = true -> c = newline) s ->
  last s <> Some newline ->
  join_nl (splitlines s) = s.
Proof.
  unfold splitlines. induction 1 as [|c r Hc Hr IH]; [done|]. intros Hlast.
  assert (Hlast' : r <> [] -> last r <> Some newline).
  { intros Hne. by destruct r. }
  cbn [splitlines_from andb]. destruct (is_linebreak c) eqn:Hb.
  - rewrite (Hc eq_refl) in *. change (newline =? 13)%N with false.
    destruct r as [|d r']; [by destruct Hlast|].
    destruct (splitlines_from false (d :: r')) as [|l ls] eqn:Hs.
    { by apply (splitlines_nil_iff (d :: r')) in Hs. }
    cbn [join_nl app]. f_equal. rewrite <- IH by by apply Hlast'. done.
  - destruct r as [|d r']; [done|].
    destruct (splitlines_from false (d :: r')) as [|l ls] eqn:Hs.
    { by apply (splitlines_nil_iff (d :: r')) in Hs. }
    rewrite join_nl_cons. f_equal. by apply IH, Hlast'.
Qed.

(** Once a title is there, the other lines are all body. *)
Lemma heading_scan_some t lines : heading_scan (Some t) lines = (Some t, lines).
Proof.
  induction lines as [|line rest IH]; [done|].
  cbn [heading_scan andb]. cbv zeta. by rewrite IH.
Qed.

(** The loop takes the first heading line out and keeps every other
    line. *)
Lemma heading_scan_first before h after :
  Forall (fun l => startswith [hash] (strip l) = false) before ->
  startswith [hash] (strip h) = true ->
  heading_scan None (before ++ h :: after)
  = (Some (strip (lstrip_chars [hash] (strip h))), before ++ after).
Proof.
  intros Hb Hh. induction Hb as [|l before Hl _ IH]; cbn [app heading_scan andb]; cbv zeta.
  - by rewrite Hh, heading_scan_some.
  - by rewrite Hl, IH.
Qed.

Lemma linebreak_space c : is_linebreak c = true -> isspace c = true.
Proof.
  unfold is_linebreak. rewrite !orb_true_iff, !N.eqb_eq.
  intros Hc. repeat destruct Hc as [Hc | Hc]; by subst.
Qed.

Lemma replace_char_elem a b s x :
  x ∈ replace [a] [b] s -> x = b \/ (x ∈ s /\ x <> a).
Proof.
  unfold replace. induction s as [|c r IH]; cbn [replace_from startswith length];
    [by intros Hx; apply elem_of_nil in Hx|].
  destruct (N.eqb_spec a c) as [<- | Hac]; cbn [andb app Nat.sub].
  - intros Hx. apply elem_of_cons in Hx as [-> | Hx]; [by left|].
    destruct (IH Hx) as [? | [? ?]]; [by left | right; split; [by right | done]].
  - intros Hx. apply elem_of_cons in Hx as [-> | Hx].
    + right. split; [left | congruence].
    + destruct (IH Hx) as [? | [? ?]]; [by left | right; split; [by right | done]].
Qed.

End ArticleFacts.

Module ArticleProofs.
Import Shaping ShapingFacts TitleFacts TextFacts Markdown Articles ArticleFacts.

(** X20.  A file that holds nothing but a heading line is not published
    with an empty body: the heading gives the title (the file name without
    directory and extension when nothing follows the ["#"]), and the whole
    line, heading marker included, is also used as the body. *)
Theorem X20_heading_only_file_keeps_the_heading_as_body (content line file_path : pystr) :
  strip content = line ->
  Forall (fun c => is_linebreak c = false) line ->
  startswith [hash] line = true ->
  extract_article (Text content) file_path
  = (Ret (Some (let title := strip (lstrip_chars [hash] line) in
                if nonempty title then title else splitext_root (basename file_path),
                markdown_to_html line, line)), []).
Proof.
  intros Hs Hl Hh. unfold extract_article. rewrite Hs.
  assert (Hne : line <> []) by by destruct line.
  apply nonempty_true in Hne as Hn. rewrite Hn. cbn [negb].
  apply nonempty_true in Hn. rewrite (splitlines_single line Hl Hn).
  assert (Hsl : strip line = line) by (by rewrite <- Hs, strip_idem).
  cbn [heading_scan andb]. cbv zeta. rewrite !Hsl, Hh.
  cbn [join_nl]. change (strip []) with (@nil N). cbn [nonempty].
  by destruct (strip (lstrip_chars [hash] line)).
Qed.

(** X21.  What [save_article_to_file] writes, [extract_article] reads
    back.  For a title and a body that are stripped and not empty, the
    title holding no line boundary and the body none but line feeds, the
    file text is the heading line, an empty line and the body; from it
    [extract_article] returns the same title, the HTML of the same body and
    the whole text as raw text. *)
Theorem X21_saved_article_is_read_back (title article_content file_path : pystr) :
  strip title = title -> title <> [] ->
  Forall (fun c => is_linebreak c = false) title ->
  strip article_content = article_content -> article_content <> [] ->
  Forall (fun c => is_linebreak c = true -> c = newline) article_content ->
  extract_article (Text (article_text (Some title) article_content)) file_path
  = (Ret (Some (title, markdown_to_html article_content,
                article_text (Some title) article_content)), []).
Proof.
  intros Ht Htn Htl Hc Hcn Hcl.
  destruct (strip_fixed title Ht Htn) as [_ (front & t1 & Hfront & Ht1)].
  destruct (strip_fixed article_content Hc Hcn) as [_ (body & c1 & Hbody & Hc1)].
  assert (Htext : article_text (Some title) article_content
                  = (u "# " ++ title) ++ newline :: newline :: article_content).
  { unfold article_text. apply nonempty_true in Htn. cbn [not_title default from_option id].
    rewrite Htn. cbn [negb]. by rewrite <- !app_assoc. }
  assert (Hraw : strip (article_text (Some title) article_content)
                 = article_text (Some title) article_content).
  { rewrite Htext, Hbody.
    assert (Hshape : (u "# " ++ title) ++ newline :: newline :: body ++ [c1]
                     = 35%N :: ((32%N :: title) ++ newline :: newline :: body) ++ [c1]).
    { change (u "# ") with [35; 32]%N. cbn [app]. by rewrite <- app_assoc. }
    rewrite Hshape. by apply strip_id. }
  unfold extract_article. rewrite Hraw.
  assert (Hne : nonempty (article_text (Some title) article_content) = true).
  { by rewrite Htext. }
  rewrite Hne. cbn [negb]. rewrite Htext.
  rewrite splitlines_first.
  2:{ apply Forall_app. split; [by repeat constructor | done]. }
  change (splitlines (newline :: article_content)) with ([] :: splitlines article_content).
  cbn [heading_scan andb]. cbv zeta.
  assert (Hline : strip (u "# " ++ title) = u "# " ++ title).
  { rewrite Hfront. change (u "# " ++ front ++ [t1]) with (35%N :: (32%N :: front) ++ [t1]).
    by apply strip_id. }
  rewrite Hline. change (startswith [hash] (u "# " ++ title)) with true. cbv iota.
  change (lstrip_chars [hash] (u "# " ++ title)) with (32%N :: title).
  assert (Htitle : strip (32%N :: title) = title).
  { unfold strip. change (lstrip (32%N :: title)) with (lstrip title).
    by rewrite <- Ht at 2. }
  rewrite Htitle, heading_scan_some.
  apply nonempty_true in Htn as Htn'. cbn [not_title]. rewrite Htn'. cbn [negb default from_option id].
  assert (Hlines : splitlines article_content <> []).
  { by rewrite splitlines_nil_iff. }
  destruct (splitlines article_content) as [|l ls] eqn:Hsl; [done|].
  assert (Hjoin : join_nl (l :: ls) = article_content).
  { rewrite <- Hsl. apply join_splitlines; [done|].
    rewrite Hbody, last_snoc. intros [= ->]. discriminate. }
  change (join_nl ([] :: l :: ls)) with (newline :: join_nl (l :: ls)).
  rewrite Hjoin.
  assert (Hstrip : strip (newline :: article_content) = article_content).
  { unfold strip. change (lstrip (newline :: article_content)) with (lstrip article_content).
    by rewrite <- Hc at 2. }
  rewrite Hstrip. apply nonempty_true in Hcn. by rewrite Hcn.
Qed.

(** X22.  The file-name part made of a topic holds no space, and each of
    its code points is alphanumeric, a hyphen or an underscore: neither a
    path separator nor a dot gets into the name, whatever the topic. *)
Theorem X22_safe_name_keeps_safe_code_points (isalnum : N -> bool) (topic : pystr) (c : N) :
  c ∈ safe_name isalnum topic ->
  c <> 32%N /\ (isalnum c = true \/ c = 45%N \/ c = 95%N).
Proof.
  unfold safe_name. change (u " ") with [32%N]. change (u "_") with [95%N].
  intros Hc. apply replace_char_elem in Hc as [-> | [Hc Hsp]].
  { split; [discriminate | by auto]. }
  split; [done|]. apply strip_elem in Hc.
  apply list_elem_of_In, List.filter_In in Hc as [_ Hc].
  apply orb_true_iff in Hc as [Hc | Hc]; [by left|]. right.
  change (u " -_") with [32; 45; 95]%N in Hc. unfold among in Hc. cbn [existsb] in Hc.
  rewrite !orb_true_iff, !N.eqb_eq in Hc. destruct Hc as [Hc | [Hc | [Hc | Hc]]];
    [congruence | by left | by right | done].
Qed.

(** X26.  Only the first heading line is taken for the title.  When the
    lines of the stripped text are [before], then a line that starts with
    ["#"] once stripped, then [after], and no line of [before] starts with
    ["#"], the title is what follows the ["#"] signs of that line (the
    file name without directory and extension when nothing does), and the
    body is made of all the other lines, later heading lines included. *)
Theorem X26_only_the_first_heading_is_the_title (content file_path : pystr)
    (before : list pystr) (h : pystr) (after : list pystr) :
  splitlines (strip content) = before ++ h :: after ->
  Forall (fun l => startswith [hash] (strip l) = false) before ->
  startswith [hash] (strip h) = true ->
  extract_article (Text content) file_path
  = (Ret (Some (let title := strip (lstrip_chars [hash] (strip h)) in
                if nonempty title then title else splitext_root (basename file_path),
                markdown_to_html
                  (let body := strip (join_nl (before ++ after)) in
                   if nonempty body then body else strip content),
                strip content)), []).
Proof.
  intros Hlines Hb Hh. unfold extract_article.
  assert (Hne : nonempty (strip content) = true).
  { destruct (strip content); [|done]. by destruct before. }
  rewrite Hne. cbn [negb]. rewrite Hlines, (heading_scan_first before h after Hb Hh).
  cbv zeta. by destruct (strip (lstrip_chars [hash] (strip h))).
Qed.

Lemma X26_only_the_first_heading_is_the_title_witness :
  extract_article (Text (u "intro" ++ newline :: u "# T" ++ newline :: u "## more"))
    (u "a.md")
  = (Ret (Some (u "T", markdown_to_html (u "intro" ++ newline :: u "## more"),
                u "intro" ++ newline :: u "# T" ++ newline :: u "## more")), []).
Proof.
  refine (X26_only_the_first_heading_is_the_title
            (u "intro" ++ newline :: u "# T" ++ newline :: u "## more") (u "a.md")
            [u "intro"] (u "# T") [u "## more"] _ _ _).
  - reflexivity.
  - by repeat constructor.
  - reflexivity.
Defined.

Lemma X20_heading_only_file_keeps_the_heading_as_body_witness :
  extract_article (Text (u "# Only")) (u "generated_articles/a.md")
  = (Ret (Some (u "Only", u "<h1>Only</h1>", u "# Only")), []).
Proof.
  apply (X20_heading_only_file_keeps_the_heading_as_body (u "# Only") (u "# Only")).
  - reflexivity.
  - by repeat constructor.
  - reflexivity.
Defined.

Lemma X21_saved_article_is_read_back_witness :
  extract_article (Text (article_text (Some (u "Foo")) (u "Bar"))) (u "a.md")
  = (Ret (Some (u "Foo", markdown_to_html (u "Bar"),
                article_text (Some (u "Foo")) (u "Bar"))), []).
Proof.
  apply X21_saved_article_is_read_back.
  - reflexivity.
  - discriminate.
  - by repeat constructor.
  - reflexivity.
  - discriminate.
  - repeat constructor; discriminate.
Defined.

Lemma X22_safe_name_keeps_safe_code_points_witness :
  95%N <> 32%N /\ ((fun c => (48 <=? c)%N && (c <=? 57)%N) 95%N = true \/
                  95%N = 45%N \/ 95%N = 95%N).
Proof.
  apply (X22_safe_name_keeps_safe_code_points
           (fun c => (48 <=? c)%N && (c <=? 57)%N) (u "1 2/..")).
  apply list_elem_of_In. vm_compute. auto.
Defined.

End ArticleProofs.

(** ** Filtering and saving the topics                                      *)

Module CrawlerProofs.
Import Articles Crawler.

Section WithJudge.
Context {J : Type} `{Judge J}.
Variable lower : pystr -> pystr.

(** A topic is given up only on the answer ["是"]. *)
Lemma deepseek_political_filter_drop title (j : J) j' tr :
  deepseek_political_filter lower title j = (false, j', tr) ->
  exists text,
    post j title = (Reply 200 (Some text), j') /\ lower (strip text) = yes /\
    tr = [Judged title (strip text)].
Proof.
  unfold deepseek_political_filter.
  destruct (post j title) as [[|status_code [text|]] j1]; try by intros [= ? ? ?].
  - destruct (Z.eqb_spec status_code 200) as [-> | _]; [|by intros [= ? ? ?]].
    cbv zeta. case_bool_decide as Hy; [|by intros [= ? ? ?]].
    intros [= <- <-]. by exists text.
  - by destruct (status_code =? 200)%Z; intros [= ? ? ?].
Qed.

Lemma filter_loop_spec n hot_searches : forall i (j : J),
  match filter_loop lower n i hot_searches j with
  | (filtered, _, tr) =>
      filtered `sublist_of` hot_searches /\
      (forall title, Dropped title ∈ tr ->
         exists answer, Judged title answer ∈ tr /\ lower answer = yes) /\
      ((forall j0 title text j1,
          post j0 title = (Reply 200 (Some text), j1) -> lower (strip text) <> yes) ->
       filtered = hot_searches)
  end.
Proof.
  induction hot_searches as [|item rest IH]; intros i j; cbn [filter_loop].
  - split; [done|]. split; [|done]. intros title Hd. by apply elem_of_nil in Hd.
  - cbv zeta.
    destruct (deepseek_political_filter lower (h_title item) j) as [[keep j1] t1] eqn:Hf.
    specialize (IH (S i) j1).
    destruct (filter_loop lower n (S i) rest j1) as [[filtered j2] t2].
    destruct IH as (Hsub & Hdrop & Hall).
    assert (Hnot : forall title, Dropped title ∉ t1).
    { intros title. revert Hf. unfold deepseek_political_filter.
      destruct (post j (h_title item)) as [[|status_code [text|]] j0];
        try destruct (status_code =? 200)%Z; intros [= <- <- <-]; intros Hx;
        apply list_elem_of_singleton in Hx; discriminate. }
    split; [|split].
    + destruct keep; [by apply sublist_skip | by apply sublist_cons].
    + intros title Hd. apply elem_of_cons in Hd as [Hd | Hd]; [discriminate|].
      apply elem_of_app in Hd as [Hd | Hd]; [by destruct (Hnot title)|].
      apply elem_of_cons in Hd as [Hd | Hd].
      * destruct keep; [discriminate|]. injection Hd as ->.
        apply deepseek_political_filter_drop in Hf as (text & _ & Hy & ->).
        exists (strip text). split; [|done]. right. apply elem_of_app. left. left.
      * destruct (Hdrop title Hd) as (answer & Ha & Hy). exists answer. split; [|done].
        right. apply elem_of_app. right. by right.
    + intros Hfail. rewrite (Hall Hfail). destruct keep; [done|].
      apply deepseek_political_filter_drop in Hf as (text & Hp & Hy & _).
      by destruct (Hfail _ _ _ _ Hp).
Qed.

(** X24.  The political filter fails open.  [filter_with_deepseek] returns
    topics of its input, in their order; it leaves a topic out only when
    the service answered that topic with status 200 and, once stripped and
    lowered, the text ["是"]; when no request is answered that way (the
    service is down, answers with another status or with something that is
    not the expected JSON), every topic is kept. *)
Theorem X24_political_filter_fails_open (hot_searches : list hot_item) (j : J) :
  match filter_with_deepseek lower hot_searches j with
  | (filtered, _, tr) =>
      filtered `sublist_of` hot_searches /\
      (forall title, Dropped title ∈ tr ->
         exists answer, Judged title answer ∈ tr /\ lower answer = yes) /\
      ((forall j0 title text j1,
          post j0 title = (Reply 200 (Some text), j1) -> lower (strip text) <> yes) ->
       filtered = hot_searches)
  end.
Proof.
  unfold filter_with_deepseek.
  pose proof (filter_loop_spec (length hot_searches) hot_searches 0 j) as Hloop.
  destruct (filter_loop lower (length hot_searches) 0 hot_searches j)
    as [[filtered j'] tr].
  destruct Hloop as (Hsub & Hdrop & Hall). split; [done|]. split; [|done].
  intros title Hd. apply elem_of_cons in Hd as [Hd | Hd]; [discriminate|].
  apply elem_of_app in Hd as [Hd | Hd].
  - destruct (Hdrop title Hd) as (answer & Ha & Hy). exists answer. split; [|done].
    right. apply elem_of_app. by left.
  - apply list_elem_of_singleton in Hd. discriminate.
Qed.

End WithJudge.

(** X23.  What the crawler saves, the analyzer loads: after [save_results]
    on a file that can be written, [load_hot_searches] returns the dicts
    of the saved topics, in their order and with no error logged.  These
    are all the topics when there are no more than [max_count], and their
    first [max_count] otherwise. *)
Theorem X23_saved_topics_are_loaded_back (hot_searches : list hot_item)
    (max_count : Z) (f : file) :
  f_writable f = true ->
  (0 <= max_count)%Z ->
  exists f' tr,
    save_results hot_searches max_count f = (f', tr) /\
    load_hot_searches f'
    = (Ret (to_json <$> take (Z.to_nat max_count) hot_searches), []).
Proof.
  intros Hw Hmax. unfold save_results.
  assert (Hkept : (if (max_count <? Z.of_nat (length hot_searches))%Z
                   then (slice_to max_count hot_searches, [TruncatedTo max_count])
                   else (hot_searches, []))
                  = (take (Z.to_nat max_count) hot_searches,
                     if (max_count <? Z.of_nat (length hot_searches))%Z
                     then [TruncatedTo max_count] else [])).
  { destruct (Z.ltb_spec max_count (Z.of_nat (length hot_searches))).
    - unfold slice_to. by destruct (Z.leb_spec 0 max_count); [|lia].
    - rewrite take_ge by lia. done. }
  rewrite Hkept. unfold json_dump. rewrite Hw.
  do 2 eexists. split; [reflexivity|]. reflexivity.
Qed.

Lemma X23_saved_topics_are_loaded_back_witness :
  exists f' tr,
    save_results [ {| h_title := u "a"; h_url := u "b"; h_heat := u "c"; h_rank := u "1" |};
                   {| h_title := u "d"; h_url := u "e"; h_heat := u "f"; h_rank := u "2" |} ]
      1 {| f_state := Absent; f_writable := true |} = (f', tr) /\
    load_hot_searches f'
    = (Ret (to_json <$> take (Z.to_nat 1)
              [ {| h_title := u "a"; h_url := u "b"; h_heat := u "c"; h_rank := u "1" |};
                {| h_title := u "d"; h_url := u "e"; h_heat := u "f"; h_rank := u "2" |} ]),
       []).
Proof.
  apply X23_saved_topics_are_loaded_back; [reflexivity | lia].
Defined.

End CrawlerProofs.

(** ** The added properties at sample inputs                                *)

Module CoverageExamples.
Import RecordSpec PipelineSpec RunSpec Examples.

Lemma X7_saved_record_is_read_back_witness :
  exists f1 t1 s1,
    save_published_record (u "b") records_a = (Ret tt, f1, t1) /\
    load_published_records f1 = (Ret s1, f1, []) /\
    VStr (u "b") ∈ s1 /\
    (forall x, x ∈ [VStr (u "a")] -> x ∈ s1) /\
    (forall x, x ∈ s1 -> x ∈ [VStr (u "a")] \/ x = VStr (u "b")).
Proof.
  exact (RecordRoundTrip.X7_saved_record_is_read_back (u "b") records_a records_a
           [VStr (u "a")] [] eq_refl eq_refl).
Defined.

Lemma X8_object_form_is_rewritten_as_array_witness :
  exists s l1 t1,
    load_published_records
      {| f_state := Json (VDict {[ urls_key := VList [VStr (u "a")] ]});
         f_writable := true |}
    = (Ret s, {| f_state := Json (VDict {[ urls_key := VList [VStr (u "a")] ]});
                 f_writable := true |}, []) /\
    (forall x, x ∈ [VStr (u "a")] -> set_mem x s = true) /\
    (forall x, x ∈ s -> x ∈ [VStr (u "a")]) /\
    save_published_record (u "b")
      {| f_state := Json (VDict {[ urls_key := VList [VStr (u "a")] ]});
         f_writable := true |}
    = (Ret tt, {| f_state := Json (VList l1); f_writable := true |}, t1) /\
    l1 ≡ₚ set_add (VStr (u "b")) s.
Proof.
  apply (RecordRoundTrip.X8_object_form_is_rewritten_as_array (u "b")
           {[ urls_key := VList [VStr (u "a")] ]} [VStr (u "a")]).
  - apply lookup_singleton_eq.
  - by repeat constructor.
Defined.

Lemma X9_recorded_url_is_skipped_on_resume_witness :
  exists w1 t1 queue w2 t2,
    on_records (save_published_record (u "a")) world_with_b_published = (Ret tt, w1, t1) /\
    work_queue [entry (u "a"); entry (u "c")] None true w1 = (Ret queue, w2, t2) /\
    forall item, item ∈ queue ->
      item_url item <> Some (u "a") /\ item ∈ [entry (u "a"); entry (u "c")].
Proof.
  exact (RecordRoundTrip.X9_recorded_url_is_skipped_on_resume (u "a")
           [entry (u "a"); entry (u "c")] None world_with_b_published
           [VStr (u "b")] _ [] eq_refl eq_refl).
Defined.

(** A run that the text service ends: the first entry is published and
    recorded; on the second, [call_deepseek_api] raises [KeyError], which
    ends the run with the second entry visited and not published. *)
Lemma X10_only_the_text_service_stops_a_publishing_run_witness :
  match process_queue sample_config true 1.5 [entry (u "a"); entry (u "c")]
          world_one_reply with
  | (r, w', tr) =>
      (length (List.filter is_publish tr) <= 2 /\
       length (List.filter is_record_write tr) <= length (List.filter is_published tr) /\
       (r = Ret tt \/
        exists x item (e e' : nat),
          item ∈ [entry (u "a"); entry (u "c")] /\
          call_deepseek_api e (field (item_title item)) (Some (field (item_url item)))
          = (Raise x, e') /\
          r = Raise x)) /\
      r = Raise KeyError /\
      List.filter is_publish tr = [Publish (u "Foo") (Some cover_png) true true] /\
      visited tr = visits 2 1 [entry (u "a"); entry (u "c")] /\
      f_state (records_file w') = Json (VList [VStr (u "a")])
  end.
Proof.
  pose proof (RunProofs.X10_only_the_text_service_stops_a_publishing_run sample_config
                1.5 [entry (u "a"); entry (u "c")] world_one_reply) as Hrun.
  destruct (process_queue sample_config true 1.5 [entry (u "a"); entry (u "c")]
              world_one_reply) as [[r w'] tr] eqn:Hq.
  split; [exact Hrun|].
  vm_compute in Hq. injection Hq as <- <- <-. repeat split.
Defined.

Lemma X11_failed_generation_skips_the_entry_witness :
  process_item sample_config true 1.5 1 1 (entry (u "https://example.org/a")) world_offline
  = (Ret tt, world_offline,
     [Log INFO (GeneratingArticle 1 1 (u "topic"));
      GenerateText (u "topic") (u "https://example.org/a");
      Log WARNING (GenerationFailed (u "topic"))]).
Proof.
  exact (RunProofs.X11_failed_generation_skips_the_entry sample_config true 1.5 1 1
           (entry (u "https://example.org/a")) world_offline (u "topic")
           (u "https://example.org/a") [] tt eq_refl eq_refl eq_refl eq_refl eq_refl
           eq_refl).
Defined.

Lemma X12_directory_run_removes_the_cover_witness :
  exists w' tr,
    publish_file literal_generate 8 1 1 (u "a.md") world_failing_publish = (Ret tt, w', tr) /\
    (cover_png ∉ files w') /\
    length (List.filter is_publish tr) = 1.
Proof.
  refine (RunProofs.X12_directory_run_removes_the_cover literal_generate 8 1 1 (u "a.md")
            (u "Foo") (u "<p>Bar</p>") (u "Bar") cover_png world_failing_publish
            (with_cover world_failing_publish [] cover_png) [Some cover_png]
            (attempt_ok 1 (u "Foo") cover_png) _ _ _ _ _).
  - reflexivity.
  - reflexivity.
  - reflexivity.
  - apply not_elem_of_empty.
  - reflexivity.
Defined.

Lemma X17_title_fallback_is_never_needed_witness :
  Shaping.not_title (Shaping.extract_title_and_content sample_text).1 = false.
Proof. exact (TitleProofs.X17_title_fallback_is_never_needed sample_text eq_refl). Defined.

Lemma X25_record_file_only_grows_witness :
  match process_queue sample_config true 1.5 [entry (u "a"); entry (u "c")]
          (PipelineSpec.with_records world_one_reply records_a) with
  | (_, w', _) =>
      f_writable (records_file w') = true /\
      exists s' t',
        load_published_records (records_file w') = (Ret s', records_file w', t') /\
        (forall x, x ∈ [VStr (u "a")] -> x ∈ s') /\
        (forall x, x ∈ s' ->
           x ∈ [VStr (u "a")] \/
           exists item, item ∈ [entry (u "a"); entry (u "c")] /\
                        x = VStr (field (item_url item)))
  end.
Proof.
  exact (GrowthProofs.X25_record_file_only_grows sample_config 1.5
           [entry (u "a"); entry (u "c")]
           (PipelineSpec.with_records world_one_reply records_a)
           [VStr (u "a")] _ [] eq_refl eq_refl).
Defined.

End CoverageExamples.
